(** * Session token lifecycle of the SaaS admin backend

    A shallow embedding of [AuthService] (register, login, refreshToken,
    logout, generateTokens) and of [AuditService.log], together with the
    stores they talk to: the relational tables reached through Prisma, the
    optional Redis client and the audit-log table.

    Conventions.
    - Instants ([Date], [Date.now()]) are integers: milliseconds since the
      epoch.  Every call of a service method reads the clock once; the
      small-step version of [refreshToken] reads it once per store access.
    - The external libraries (bcrypt, jsonwebtoken) are parameters of the
      development, collected in the record [Externals].
    - A store access succeeds unless it violates a constraint of the table
      (unique key on insert, missing row on [update]); the audit-log table
      alone can be unreachable, which is what [AuditService.log] guards
      against.
    - The Prisma schema is not among the sources.  Rows carry the columns
      the service reads or writes; the unique columns are the primary keys
      and the two columns the service passes to [findUnique]
      ([RefreshToken.token], [Tenant.slug]); a new user row starts with
      [failedLoginAttempts = 0] and no lock. *)

From Stdlib Require Import ZArith String Ascii List Bool Lia.
From stdpp Require Import gmap strings list fin_maps.

Open Scope string_scope.
Open Scope Z_scope.

(** ** Enumerations *)

Module UserRole.
Inductive t := SUPER_ADMIN | TENANT_ADMIN | USER | VIEWER.
End UserRole.

Module UserStatus.
Inductive t := ACTIVE | INACTIVE | SUSPENDED | PENDING.

Definition eqb (a b : t) : bool :=
  match a, b with
  | ACTIVE, ACTIVE | INACTIVE, INACTIVE
  | SUSPENDED, SUSPENDED | PENDING, PENDING => true
  | _, _ => false
  end.
End UserStatus.

Module TenantStatus.
Inductive t := TRIAL | ACTIVE | SUSPENDED | CANCELLED.

Definition eqb (a b : t) : bool :=
  match a, b with
  | TRIAL, TRIAL | ACTIVE, ACTIVE
  | SUSPENDED, SUSPENDED | CANCELLED, CANCELLED => true
  | _, _ => false
  end.
End TenantStatus.

(** ** Errors (types/index.ts) *)

Module ErrorClass.
Inductive t :=
  | Validation | Unauthorized | Forbidden | NotFound | Conflict | TooManyRequests.
End ErrorClass.

(** [AppError]: the class of the instance, its message and the HTTP status
    code the constructor of the class passes to [super]. *)
Record AppError := mkAppError {
  errClass : ErrorClass.t;
  message : string;
  statusCode : Z;
}.

Definition ValidationError (msg : string) : AppError :=
  mkAppError ErrorClass.Validation msg 400.
Definition UnauthorizedError (msg : string) : AppError :=
  mkAppError ErrorClass.Unauthorized msg 401.
Definition ForbiddenError (msg : string) : AppError :=
  mkAppError ErrorClass.Forbidden msg 403.
Definition NotFoundError (msg : string) : AppError :=
  mkAppError ErrorClass.NotFound msg 404.
Definition ConflictError (msg : string) : AppError :=
  mkAppError ErrorClass.Conflict msg 409.
Definition TooManyRequestsError (msg : string) : AppError :=
  mkAppError ErrorClass.TooManyRequests msg 429.

(** The three error classes of jsonwebtoken; [TokenExpiredError] and
    [NotBeforeError] extend [JsonWebTokenError]. *)
Inductive JwtErrorKind := JsonWebTokenError | TokenExpiredError | NotBeforeError.

Definition instanceof_JsonWebTokenError (k : JwtErrorKind) : bool :=
  match k with
  | JsonWebTokenError | TokenExpiredError | NotBeforeError => true
  end.

(** What a service method can throw. *)
Inductive Thrown :=
  | AppErr (e : AppError)
  | JwtErr (k : JwtErrorKind)
  | PrismaErr (code : string)
  | PlainErr (msg : string).

Inductive Outcome (A : Type) :=
  | Returned (a : A)
  | Threw (e : Thrown).
Arguments Returned {A} a.
Arguments Threw {A} e.

(** ** Rows *)

Module Tenant.
Record t := mk {
  id : string;
  name : string;
  slug : string;
  plan : string;
  status : TenantStatus.t;
  trialEndsAt : option Z;
  maxUsers : Z;
  maxApiCalls : Z;
  maxStorage : Z;
}.
End Tenant.

Module User.
Record t := mk {
  id : string;
  tenantId : option string;
  email : string;
  passwordHash : string;
  firstName : string;
  lastName : string;
  role : UserRole.t;
  status : UserStatus.t;
  emailVerified : bool;
  failedLoginAttempts : Z;
  lockedUntil : option Z;
  lastLoginAt : option Z;
  lastLoginIp : option string;
}.
End User.

Module RefreshToken.
Record t := mk {
  userId : string;
  token : string;
  expiresAt : Z;
  revokedAt : option Z;
  replacedBy : option string;
}.
End RefreshToken.

Module AuditLog.
Record t := mk {
  tenantId : option string;
  userId : option string;
  action : string;
  resource : string;
  resourceId : option string;
  description : string;
  ipAddress : option string;
  userAgent : option string;
}.
End AuditLog.

(** A user row read with [include: { tenant: true }]. *)
Record UserWithTenant := mkUserWithTenant {
  row : User.t;
  tenant : option Tenant.t;
}.

(** [Omit<User, 'passwordHash'>] with the included tenant. *)
Module UserWithoutPassword.
Record t := mk {
  id : string;
  tenantId : option string;
  email : string;
  firstName : string;
  lastName : string;
  role : UserRole.t;
  status : UserStatus.t;
  emailVerified : bool;
  failedLoginAttempts : Z;
  lockedUntil : option Z;
  lastLoginAt : option Z;
  lastLoginIp : option string;
  tenant : option Tenant.t;
}.
End UserWithoutPassword.

Definition omitPasswordHash (u : UserWithTenant) : UserWithoutPassword.t :=
  let r := row u in
  UserWithoutPassword.mk (User.id r) (User.tenantId r) (User.email r)
    (User.firstName r) (User.lastName r) (User.role r) (User.status r)
    (User.emailVerified r) (User.failedLoginAttempts r) (User.lockedUntil r)
    (User.lastLoginAt r) (User.lastLoginIp r) (tenant u).

(** ** Data transfer objects *)

Module RegisterUserDto.
Record t := mk {
  tenantName : string;
  email : string;
  password : string;
  firstName : string;
  lastName : string;
}.
End RegisterUserDto.

Module LoginDto.
Record t := mk {
  email : string;
  password : string;
}.
End LoginDto.

Module AuthTokens.
Record t := mk {
  accessToken : string;
  refreshToken : string;
}.
End AuthTokens.

Module JWTPayload.
Record t := mk {
  userId : string;
  email : string;
  role : UserRole.t;
  tenantId : option string;
}.
End JWTPayload.

(** ** The stores *)

(** An entry written with [setEx]: the value and the instant it expires. *)
Record RedisEntry := mkRedisEntry {
  redis_value : string;
  redis_expiresAt : Z;
}.

(** [users] and [tenants] keep the order of the rows ([findFirst] returns
    the first match); [refreshTokens] is keyed by its unique column
    [token]; [redis] is [None] when [getRedisClient()] returns [null]. *)
Record Store := mkStore {
  users : list User.t;
  tenants : list Tenant.t;
  refreshTokens : gmap string RefreshToken.t;
  auditLogs : list AuditLog.t;
  redis : option (gmap string RedisEntry);
}.

(** ** A monad for service methods: store passing with exceptions

    A thrown error keeps the writes made before it: nothing here runs in a
    transaction except the two inserts of [register]. *)

Definition M (A : Type) : Type := Store -> Store * Outcome A.

Definition ret {A} (a : A) : M A := fun s => (s, Returned a).
Definition throw {A} (e : Thrown) : M A := fun s => (s, Threw e).
Definition bind {A B} (c : M A) (k : A -> M B) : M B :=
  fun s =>
    match c s with
    | (s', Returned a) => k a s'
    | (s', Threw e) => (s', Threw e)
    end.
Definition try_catch {A} (c : M A) (handler : Thrown -> M A) : M A :=
  fun s =>
    match c s with
    | (s', Returned a) => (s', Returned a)
    | (s', Threw e) => handler e s'
    end.

Declare Scope svc_scope.
Delimit Scope svc_scope with svc.
Notation "'let*' x ':=' c 'in' k" :=
  (bind c (fun x => k))
  (at level 10, x name, c at level 100, k at level 200) : svc_scope.
Notation "'await' c 'in' k" :=
  (bind c (fun _ => k))
  (at level 10, c at level 100, k at level 200) : svc_scope.
Open Scope svc_scope.

(** ** JavaScript truthiness of the values the code tests *)

(** A [string | null] is truthy when it is present and not empty. *)
Definition truthy_string (o : option string) : bool :=
  match o with
  | Some s => negb (String.eqb s "")
  | None => false
  end.

(** [o || undefined] *)
Definition or_undefined (o : option string) : option string :=
  if truthy_string o then o else None.

(** [process.env.X || d] *)
Definition or_default (o : option string) (d : string) : string :=
  match o with
  | Some s => if String.eqb s "" then d else s
  | None => d
  end.

(** ** Prisma accesses *)

Definition join_tenant (s : Store) (u : User.t) : UserWithTenant :=
  mkUserWithTenant u
    match User.tenantId u with
    | Some tid => List.find (fun t => String.eqb (Tenant.id t) tid) (tenants s)
    | None => None
    end.

(** [prisma.user.findFirst({ where: { email }, include: { tenant: true } })] *)
Definition user_findFirst_email (e : string) : M (option UserWithTenant) :=
  fun s =>
    (s, Returned (join_tenant s <$>
                  List.find (fun u => String.eqb (User.email u) e) (users s))).

(** [prisma.user.findUnique({ where: { id }, include: { tenant: true } })] *)
Definition user_findUnique_id (i : string) : M (option UserWithTenant) :=
  fun s =>
    (s, Returned (join_tenant s <$>
                  List.find (fun u => String.eqb (User.id u) i) (users s))).

Definition set_users (us : list User.t) (s : Store) : Store :=
  mkStore us (tenants s) (refreshTokens s) (auditLogs s) (redis s).
Definition set_tenants (ts : list Tenant.t) (s : Store) : Store :=
  mkStore (users s) ts (refreshTokens s) (auditLogs s) (redis s).
Definition set_refreshTokens (m : gmap string RefreshToken.t) (s : Store) : Store :=
  mkStore (users s) (tenants s) m (auditLogs s) (redis s).
Definition set_auditLogs (l : list AuditLog.t) (s : Store) : Store :=
  mkStore (users s) (tenants s) (refreshTokens s) l (redis s).
Definition set_redis (r : option (gmap string RedisEntry)) (s : Store) : Store :=
  mkStore (users s) (tenants s) (refreshTokens s) (auditLogs s) r.

Definition update_where_id (i : string) (f : User.t -> User.t) (us : list User.t)
  : list User.t :=
  List.map (fun u => if String.eqb (User.id u) i then f u else u) us.

(** [prisma.user.update({ where: { id }, data })]; Prisma rejects the call
    with P2025 when no row has the id. *)
Definition user_update (i : string) (f : User.t -> User.t) : M unit :=
  fun s =>
    if existsb (fun u => String.eqb (User.id u) i) (users s)
    then (set_users (update_where_id i f (users s)) s, Returned tt)
    else (s, Threw (PrismaErr "P2025")).

(** [prisma.refreshToken.findUnique({ where: { token } })] *)
Definition refreshToken_findUnique (tok : string) : M (option RefreshToken.t) :=
  fun s => (s, Returned (refreshTokens s !! tok)).

(** [prisma.refreshToken.create({ data })]; a second row with the same
    value of the unique column is rejected with P2002. *)
Definition refreshToken_create (r : RefreshToken.t) : M unit :=
  fun s =>
    match refreshTokens s !! RefreshToken.token r with
    | Some _ => (s, Threw (PrismaErr "P2002"))
    | None =>
        (set_refreshTokens (<[RefreshToken.token r := r]> (refreshTokens s)) s,
         Returned tt)
    end.

(** [prisma.refreshToken.update({ where: { token }, data })] *)
Definition refreshToken_update (tok : string) (f : RefreshToken.t -> RefreshToken.t)
  : M unit :=
  fun s =>
    match refreshTokens s !! tok with
    | Some r => (set_refreshTokens (<[tok := f r]> (refreshTokens s)) s, Returned tt)
    | None => (s, Threw (PrismaErr "P2025"))
    end.

(** [prisma.refreshToken.updateMany({ where: { token }, data })]: every
    matching row is updated, none matching is not an error. *)
Definition refreshToken_updateMany (tok : string) (f : RefreshToken.t -> RefreshToken.t)
  : M unit :=
  fun s => (set_refreshTokens (alter f tok (refreshTokens s)) s, Returned tt).

(** [prisma.auditLog.create({ data })]; [up] tells whether the audit table
    can be written. *)
Definition auditLog_create (up : bool) (r : AuditLog.t) : M unit :=
  fun s =>
    if up then (set_auditLogs (auditLogs s ++ [r]) s, Returned tt)
    else (s, Threw (PrismaErr "P1001")).

(** [getRedisClient()]: whether the module holds a client ([true]) or
    [null] ([false]). *)
Definition getRedisClient : M bool :=
  fun s => (s, Returned (bool_decide (is_Some (redis s)))).

(** [redis.setEx(key, seconds, value)] on an open client. *)
Definition redis_setEx (key : string) (seconds : Z) (value : string) (now : Z)
  : M unit :=
  fun s =>
    match redis s with
    | Some m =>
        (set_redis (Some (<[key := mkRedisEntry value (now + seconds * 1000)]> m)) s,
         Returned tt)
    | None => (s, Threw (PlainErr "The client is closed"))
    end.

(** [`blacklist:${refreshToken}`] *)
Definition blacklist_key (refreshToken : string) : string :=
  "blacklist:" +:+ refreshToken.


(** ** audit.service.ts *)

Module AuditService.

(** [log]: the insert is wrapped in try/catch and the handler only writes to
    the application logger. The callers of this file never pass [metadata]. *)
Definition log (up : bool) (dto : AuditLog.t) : M unit :=
  try_catch (auditLog_create up dto) (fun _ => ret tt).

End AuditService.

(** ** The libraries and the environment *)

Inductive JwtVerified :=
  | Verified (p : JWTPayload.t)
  | Rejected (k : JwtErrorKind).

(** - [bcrypt_compare data hash];
    - [bcrypt_hash data rounds salt], the salt being drawn by the library;
    - [jwt_sign payload secret expiresIn now], [None] when the library
      throws (no secret, malformed [expiresIn]);
    - [jwt_verify token secret now]. *)
Record Externals := mkExternals {
  bcrypt_compare : string -> string -> bool;
  bcrypt_hash : string -> Z -> string -> string;
  jwt_sign : JWTPayload.t -> option string -> string -> Z -> option string;
  jwt_verify : string -> option string -> Z -> JwtVerified;
}.

(** [process.env] *)
Record Env := mkEnv {
  JWT_SECRET : option string;
  JWT_REFRESH_SECRET : option string;
  JWT_EXPIRES_IN : option string;
  JWT_REFRESH_EXPIRES_IN : option string;
}.

(** ** Setters for the columns the service writes *)

Definition set_failedLoginAttempts (n : Z) (u : User.t) : User.t :=
  User.mk (User.id u) (User.tenantId u) (User.email u) (User.passwordHash u)
    (User.firstName u) (User.lastName u) (User.role u) (User.status u)
    (User.emailVerified u) n (User.lockedUntil u) (User.lastLoginAt u)
    (User.lastLoginIp u).

Definition set_lockedUntil (l : option Z) (u : User.t) : User.t :=
  User.mk (User.id u) (User.tenantId u) (User.email u) (User.passwordHash u)
    (User.firstName u) (User.lastName u) (User.role u) (User.status u)
    (User.emailVerified u) (User.failedLoginAttempts u) l (User.lastLoginAt u)
    (User.lastLoginIp u).

Definition set_lastLogin (at_ : option Z) (ip : option string) (u : User.t) : User.t :=
  User.mk (User.id u) (User.tenantId u) (User.email u) (User.passwordHash u)
    (User.firstName u) (User.lastName u) (User.role u) (User.status u)
    (User.emailVerified u) (User.failedLoginAttempts u) (User.lockedUntil u)
    at_ ip.

Definition set_revokedAt (r : option Z) (t : RefreshToken.t) : RefreshToken.t :=
  RefreshToken.mk (RefreshToken.userId t) (RefreshToken.token t)
    (RefreshToken.expiresAt t) r (RefreshToken.replacedBy t).

Definition set_replacedBy (r : option string) (t : RefreshToken.t) : RefreshToken.t :=
  RefreshToken.mk (RefreshToken.userId t) (RefreshToken.token t)
    (RefreshToken.expiresAt t) (RefreshToken.revokedAt t) r.

(** ** Durations *)

Definition FIFTEEN_MINUTES : Z := 15 * 60 * 1000.
Definition SEVEN_DAYS : Z := 7 * 24 * 60 * 60 * 1000.
Definition SEVEN_DAYS_SECONDS : Z := 7 * 24 * 60 * 60.
Definition FOURTEEN_DAYS : Z := 14 * 24 * 60 * 60 * 1000.

(** ** Guards of [login] *)

(** [user.lockedUntil && user.lockedUntil > new Date()] *)
Definition locked (u : User.t) (now : Z) : bool :=
  match User.lockedUntil u with
  | Some l => now <? l
  | None => false
  end.

(** The tenant check of [login]: the error to throw, if any. *)
Definition tenant_check (user : UserWithTenant) : option AppError :=
  if truthy_string (User.tenantId (row user)) then
    match tenant user with
    | Some t =>
        if TenantStatus.eqb (Tenant.status t) TenantStatus.SUSPENDED
        then Some (UnauthorizedError "Tenant account is suspended")
        else if TenantStatus.eqb (Tenant.status t) TenantStatus.CANCELLED
        then Some (UnauthorizedError "Tenant account is cancelled")
        else None
    | None => None
    end
  else None.

(** The [updates] object of the wrong-password branch, as the change it
    makes to the row. *)
Definition failed_login_updates (failedAttempts now : Z) (r : User.t) : User.t :=
  let r := set_failedLoginAttempts failedAttempts r in
  if 5 <=? failedAttempts
  then set_lockedUntil (Some (now + FIFTEEN_MINUTES)) r
  else r.

(** The [data] of the update after a successful login.  Prisma leaves a
    column alone when the value given for it is [undefined], which is what
    [lastLoginIp] gets when the caller passes no address. *)
Definition successful_login_updates (now : Z) (ipAddress : option string)
    (r : User.t) : User.t :=
  let lastLoginIp :=
    match ipAddress with
    | Some ip => Some ip
    | None => User.lastLoginIp r
    end in
  set_lockedUntil None
    (set_failedLoginAttempts 0 (set_lastLogin (Some now) lastLoginIp r)).

(** ** Validators of [register] (strings over the 8-bit alphabet) *)

Definition code (c : ascii) : Z := Z.of_N (N_of_ascii c).

Definition is_lower (c : ascii) : bool := (97 <=? code c) && (code c <=? 122).
Definition is_upper (c : ascii) : bool := (65 <=? code c) && (code c <=? 90).
Definition is_digit (c : ascii) : bool := (48 <=? code c) && (code c <=? 57).

(** [\s] below code 256: TAB, LF, VT, FF, CR, SPACE and NBSP. *)
Definition is_space (c : ascii) : bool :=
  ((9 <=? code c) && (code c <=? 13)) || (code c =? 32) || (code c =? 160).

(** [[@$!%*?&]] *)
Definition is_special (c : ascii) : bool :=
  existsb (fun d => Ascii.eqb c d) (list_ascii_of_string "@$!%*?&").

(** [[^\s@]] *)
Definition is_email_char (c : ascii) : bool :=
  negb (is_space c) && negb (Ascii.eqb c "@"%char).

Fixpoint span_until (c : ascii) (l : list ascii) : list ascii * option (list ascii) :=
  match l with
  | [] => ([], None)
  | x :: r =>
      if Ascii.eqb x c then ([], Some r)
      else let '(a, b) := span_until c r in (x :: a, b)
  end.

(** A dot with at least one character on each side. *)
Fixpoint has_inner_dot (l : list ascii) : bool :=
  match l with
  | [] | [_] => false
  | _ :: ((y :: r) as tl) =>
      (Ascii.eqb y "."%char && negb (Nat.eqb (length r) 0)) || has_inner_dot tl
  end.

(** [/^[^\s@]+@[^\s@]+\.[^\s@]+$/.test(email)] *)
Definition isValidEmail (email : string) : bool :=
  match span_until "@"%char (list_ascii_of_string email) with
  | (loc, Some dom) =>
      negb (Nat.eqb (length loc) 0) && forallb is_email_char loc
      && forallb is_email_char dom && has_inner_dot dom
  | (_, None) => false
  end.

(** [/^(?=.*[a-z])(?=.*[A-Z])(?=.*\d)(?=.*[@$!%*?&])[A-Za-z\d@$!%*?&]{8,}$/] *)
Definition isStrongPassword (password : string) : bool :=
  let cs := list_ascii_of_string password in
  existsb is_lower cs && existsb is_upper cs && existsb is_digit cs
  && existsb is_special cs
  && forallb (fun c => is_lower c || is_upper c || is_digit c || is_special c) cs
  && (8 <=? Z.of_nat (length cs)).

Definition to_lower (c : ascii) : ascii :=
  if is_upper c then ascii_of_N (N_of_ascii c + 32) else c.

(** [.replace(/[^a-z0-9]+/g, '-')]: [prev] tells that the previous
    character already belonged to the run being replaced. *)
Fixpoint dash_runs (prev : bool) (l : list ascii) : list ascii :=
  match l with
  | [] => []
  | c :: r =>
      if is_lower c || is_digit c then c :: dash_runs false r
      else if prev then dash_runs true r
      else "-"%char :: dash_runs true r
  end.

Fixpoint drop_dashes (l : list ascii) : list ascii :=
  match l with
  | c :: r => if Ascii.eqb c "-"%char then drop_dashes r else l
  | [] => []
  end.

(** [.replace(/^-+|-+$/g, '')] *)
Definition trim_dashes (l : list ascii) : list ascii :=
  rev (drop_dashes (rev (drop_dashes l))).

Definition createSlug (name : string) : string :=
  string_of_list_ascii
    (firstn 50
       (trim_dashes (dash_runs false (List.map to_lower (list_ascii_of_string name))))).

(** Values produced outside the service during one [register]: the keys the
    database gives to the two new rows and the salt bcrypt draws. *)
Record Generated := mkGenerated {
  gen_tenantId : string;
  gen_userId : string;
  gen_salt : string;
}.

(** [tx.tenant.create]: the primary key and the slug are unique. *)
Definition tenant_create (t : Tenant.t) : M Tenant.t :=
  fun s =>
    if existsb (fun x => String.eqb (Tenant.id x) (Tenant.id t)
                         || String.eqb (Tenant.slug x) (Tenant.slug t)) (tenants s)
    then (s, Threw (PrismaErr "P2002"))
    else (set_tenants (tenants s ++ [t]) s, Returned t).

(** [tx.user.create({ data, include: { tenant: true } })]: the primary key
    is unique. *)
Definition user_create (u : User.t) : M UserWithTenant :=
  fun s =>
    if existsb (fun x => String.eqb (User.id x) (User.id u)) (users s)
    then (s, Threw (PrismaErr "P2002"))
    else let s' := set_users (users s ++ [u]) s in (s', Returned (join_tenant s' u)).

(** [prisma.$transaction]: a throw inside undoes the writes. *)
Definition transaction {A} (c : M A) : M A :=
  fun s =>
    match c s with
    | (s', Returned a) => (s', Returned a)
    | (_, Threw e) => (s, Threw e)
    end.

(** [prisma.tenant.findUnique({ where: { slug } })] *)
Definition tenant_findUnique_slug (sl : string) : M (option Tenant.t) :=
  fun s => (s, Returned (List.find (fun t => String.eqb (Tenant.slug t) sl) (tenants s))).

(** ** Reading the tables, and the errors by name *)

Definition user_by_email (e : string) (s : Store) : option User.t :=
  List.find (fun u => String.eqb (User.email u) e) (users s).

Definition user_by_id (i : string) (s : Store) : option User.t :=
  List.find (fun u => String.eqb (User.id u) i) (users s).

(** The record of [tok] is stored and carries a revocation timestamp. *)
Definition revoked_in (tok : string) (s : Store) : Prop :=
  exists r, refreshTokens s !! tok = Some r /\ is_Some (RefreshToken.revokedAt r).

(** Two stores that differ at most in the audit-log table. *)
Definition same_but_audit (s1 s2 : Store) : Prop :=
  users s1 = users s2 /\ tenants s1 = tenants s2
  /\ refreshTokens s1 = refreshTokens s2 /\ redis s1 = redis s2.

(** Two stores that differ at most in what Redis holds. *)
Definition same_but_redis (s1 s2 : Store) : Prop :=
  users s1 = users s2 /\ tenants s1 = tenants s2
  /\ refreshTokens s1 = refreshTokens s2 /\ auditLogs s1 = auditLogs s2.

Definition invalid_credentials : Thrown :=
  AppErr (UnauthorizedError "Invalid credentials").
Definition account_locked : Thrown :=
  AppErr (UnauthorizedError "Account is locked. Please try again later.").
Definition invalid_refresh_token : Thrown :=
  AppErr (UnauthorizedError "Invalid refresh token").

Definition preserves {A} (P : Store -> Prop) (c : M A) : Prop :=
  forall s, P s -> P (fst (c s)).

(** A predicate that only looks at the refresh-token table. *)
Definition on_refreshTokens (P : Store -> Prop) : Prop :=
  forall s s', refreshTokens s' = refreshTokens s -> P s -> P s'.

(** One authentication attempt for a fixed identifier. *)
Record Attempt := mkAttempt {
  att_password : string;
  att_ip : option string;
  att_now : Z;
  att_auditUp : bool;
}.

(** The user belongs to a tenant whose status is SUSPENDED or CANCELLED
    (keys are never the empty string, so [tenantId] is truthy). *)
Definition tenant_blocked (s : Store) (u : User.t) : Prop :=
  truthy_string (User.tenantId u) = true
  /\ exists t, tenant (join_tenant s u) = Some t
       /\ (Tenant.status t = TenantStatus.SUSPENDED
           \/ Tenant.status t = TenantStatus.CANCELLED).

(** Both calls throw an application error, and the two errors carry the
    same message. *)
Definition same_failure {A B} (o1 : Outcome A) (o2 : Outcome B) : Prop :=
  exists e1 e2, o1 = Threw (AppErr e1) /\ o2 = Threw (AppErr e2)
                /\ message e1 = message e2.

(** The call throws an application error of a class other than the class
    of the credential errors. *)
Definition throws_other_class_than {A} (c : ErrorClass.t) (o : Outcome A) : Prop :=
  exists e, o = Threw (AppErr e) /\ errClass e <> c.

(** The store in which every user row has another lock state: [l] gives the
    new [lockedUntil], [c] the new failed counter. *)
Definition relock (l : User.t -> option Z) (c : User.t -> Z) (u : User.t) : User.t :=
  set_lockedUntil (l u) (set_failedLoginAttempts (c u) u).

Definition with_lock_state (l : User.t -> option Z) (c : User.t -> Z) (s : Store)
  : Store :=
  set_users (List.map (relock l c) (users s)) s.

(** Two computations started in related stores end in related stores with
    the same outcome. *)
Definition agree (R : Store -> Store -> Prop) {A} (c1 c2 : M A) : Prop :=
  forall s1 s2, R s1 s2 ->
    snd (c1 s1) = snd (c2 s2) /\ R (fst (c1 s1)) (fst (c2 s2)).

(** ** auth.service.ts *)

Section AuthService.

Variable X : Externals.
Variable env : Env.

Definition sign (payload : JWTPayload.t) (secret : option string) (expiresIn : string)
    (now : Z) : M string :=
  match jwt_sign X payload secret expiresIn now with
  | Some t => ret t
  | None => throw (PlainErr "jwt.sign")
  end.

Definition verify (tok : string) (secret : option string) (now : Z) : M JWTPayload.t :=
  match jwt_verify X tok secret now with
  | Verified p => ret p
  | Rejected k => throw (JwtErr k)
  end.

(** The [payload] object of [generateTokens]. *)
Definition payload_of (user : User.t) : JWTPayload.t :=
  JWTPayload.mk (User.id user) (User.email user) (User.role user)
    (User.tenantId user).

Definition generateTokens (user : User.t) (now : Z) : M AuthTokens.t :=
  let payload := payload_of user in
  let* accessToken :=
    sign payload (JWT_SECRET env) (or_default (JWT_EXPIRES_IN env) "15m") now in
  let* refreshToken :=
    sign payload (JWT_REFRESH_SECRET env)
      (or_default (JWT_REFRESH_EXPIRES_IN env) "7d") now in
  await refreshToken_create
          (RefreshToken.mk (User.id user) refreshToken (now + SEVEN_DAYS) None None) in
  ret (AuthTokens.mk accessToken refreshToken).

Definition register (dto : RegisterUserDto.t) (g : Generated) (now : Z) (auditUp : bool)
  : M (UserWithoutPassword.t * AuthTokens.t) :=
  if negb (isValidEmail (RegisterUserDto.email dto)) then
    throw (AppErr (ValidationError "Invalid email format"))
  else if negb (isStrongPassword (RegisterUserDto.password dto)) then
    throw (AppErr (ValidationError
      "Password must be at least 8 characters with uppercase, lowercase, number, and special character"))
  else
  let* existingUser := user_findFirst_email (RegisterUserDto.email dto) in
  match existingUser with
  | Some _ => throw (AppErr (ConflictError "Email already registered"))
  | None =>
  let slug := createSlug (RegisterUserDto.tenantName dto) in
  let* existingTenant := tenant_findUnique_slug slug in
  match existingTenant with
  | Some _ => throw (AppErr (ConflictError "Tenant name already taken"))
  | None =>
  let passwordHash := bcrypt_hash X (RegisterUserDto.password dto) 12 (gen_salt g) in
  let* result :=
    transaction
      (let* tenant :=
         tenant_create
           (Tenant.mk (gen_tenantId g) (RegisterUserDto.tenantName dto) slug "TRIAL"
              TenantStatus.TRIAL (Some (now + FOURTEEN_DAYS)) 5 1000 1073741824) in
       let* user :=
         user_create
           (User.mk (gen_userId g) (Some (Tenant.id tenant)) (RegisterUserDto.email dto)
              passwordHash (RegisterUserDto.firstName dto) (RegisterUserDto.lastName dto)
              UserRole.TENANT_ADMIN UserStatus.ACTIVE false 0 None None None) in
       ret (tenant, user)) in
  let '(tenant, user) := result in
  let* tokens := generateTokens (row user) now in
  await AuditService.log auditUp
          (AuditLog.mk (Some (Tenant.id tenant)) (Some (User.id (row user)))
             "CREATE" "User" (Some (User.id (row user)))
             "User registered and tenant created" None None) in
  ret (omitPasswordHash user, tokens)
  end
  end.

Definition login (dto : LoginDto.t) (ipAddress : option string) (now : Z)
    (auditUp : bool) : M (UserWithoutPassword.t * AuthTokens.t) :=
  let* found := user_findFirst_email (LoginDto.email dto) in
  match found with
  | None => throw (AppErr (UnauthorizedError "Invalid credentials"))
  | Some user =>
  let u := row user in
  if locked u now then
    throw (AppErr (UnauthorizedError "Account is locked. Please try again later."))
  else
  let isValidPassword := bcrypt_compare X (LoginDto.password dto) (User.passwordHash u) in
  if negb isValidPassword then
    let failedAttempts := User.failedLoginAttempts u + 1 in
    await user_update (User.id u) (failed_login_updates failedAttempts now) in
    await AuditService.log auditUp
            (AuditLog.mk (or_undefined (User.tenantId u)) (Some (User.id u))
               "LOGIN_FAILED" "User" (Some (User.id u)) "Failed login attempt"
               ipAddress None) in
    throw (AppErr (UnauthorizedError "Invalid credentials"))
  else if negb (UserStatus.eqb (User.status u) UserStatus.ACTIVE) then
    throw (AppErr (UnauthorizedError "Account is not active"))
  else
  match tenant_check user with
  | Some e => throw (AppErr e)
  | None =>
  await user_update (User.id u) (successful_login_updates now ipAddress) in
  let* tokens := generateTokens u now in
  await AuditService.log auditUp
          (AuditLog.mk (or_undefined (User.tenantId u)) (Some (User.id u))
             "LOGIN" "User" (Some (User.id u)) "User logged in successfully"
             ipAddress None) in
  ret (omitPasswordHash user, tokens)
  end
  end.

(** The handler of the [catch] block of [refreshToken]. *)
Definition refresh_handler (error : Thrown) : M AuthTokens.t :=
  match error with
  | JwtErr k =>
      if instanceof_JsonWebTokenError k
      then throw (AppErr (UnauthorizedError "Invalid refresh token"))
      else throw error
  | _ => throw error
  end.

(** The change the last write of [refreshToken] makes to the row. *)
Definition rotate_updates (now : Z) (newToken : string) (r : RefreshToken.t)
  : RefreshToken.t :=
  set_replacedBy (Some newToken) (set_revokedAt (Some now) r).

Definition refreshToken (refreshToken : string) (now : Z) : M AuthTokens.t :=
  try_catch
    (let* decoded := verify refreshToken (JWT_REFRESH_SECRET env) now in
     let* storedToken := refreshToken_findUnique refreshToken in
     match storedToken with
     | None => throw (AppErr (UnauthorizedError "Invalid refresh token"))
     | Some storedToken =>
     if bool_decide (is_Some (RefreshToken.revokedAt storedToken)) then
       throw (AppErr (UnauthorizedError "Invalid refresh token"))
     else if RefreshToken.expiresAt storedToken <? now then
       throw (AppErr (UnauthorizedError "Refresh token expired"))
     else
     let* user := user_findUnique_id (JWTPayload.userId decoded) in
     match user with
     | None => throw (AppErr (UnauthorizedError "User not found or inactive"))
     | Some user =>
     if negb (UserStatus.eqb (User.status (row user)) UserStatus.ACTIVE) then
       throw (AppErr (UnauthorizedError "User not found or inactive"))
     else
     let* newTokens := generateTokens (row user) now in
     await refreshToken_update refreshToken
             (rotate_updates now (AuthTokens.refreshToken newTokens)) in
     ret newTokens
     end
     end)
    refresh_handler.

Definition logout (refreshToken : string) (now : Z) : M unit :=
  await refreshToken_updateMany refreshToken (set_revokedAt (Some now)) in
  let* redis := getRedisClient in
  if redis
  then redis_setEx (blacklist_key refreshToken) SEVEN_DAYS_SECONDS "1" now
  else ret tt.

(** ** [refreshToken] between its store accesses

    Each [await] of [refreshToken] hands control back to the event loop, so
    another request can run between two store accesses of the same call.
    [RotatePc] is what a call remembers at such a point; one [rotate_step]
    performs the next store access and the synchronous code after it. *)

Inductive RotatePc :=
  | AtStart
  | HaveStored (decoded : JWTPayload.t)
  | HaveUser (user : UserWithTenant)
  | HaveNew (newTokens : AuthTokens.t)
  | Finished (o : Outcome AuthTokens.t).

Definition rotate_stage (refreshToken : string) (now : Z) (k : RotatePc) : M RotatePc :=
  match k with
  | AtStart =>
      let* decoded := verify refreshToken (JWT_REFRESH_SECRET env) now in
      let* storedToken := refreshToken_findUnique refreshToken in
      match storedToken with
      | None => throw (AppErr (UnauthorizedError "Invalid refresh token"))
      | Some storedToken =>
          if bool_decide (is_Some (RefreshToken.revokedAt storedToken)) then
            throw (AppErr (UnauthorizedError "Invalid refresh token"))
          else if RefreshToken.expiresAt storedToken <? now then
            throw (AppErr (UnauthorizedError "Refresh token expired"))
          else ret (HaveStored decoded)
      end
  | HaveStored decoded =>
      let* user := user_findUnique_id (JWTPayload.userId decoded) in
      match user with
      | None => throw (AppErr (UnauthorizedError "User not found or inactive"))
      | Some user =>
          if negb (UserStatus.eqb (User.status (row user)) UserStatus.ACTIVE) then
            throw (AppErr (UnauthorizedError "User not found or inactive"))
          else ret (HaveUser user)
      end
  | HaveUser user =>
      let* newTokens := generateTokens (row user) now in
      ret (HaveNew newTokens)
  | HaveNew newTokens =>
      await refreshToken_update refreshToken
              (rotate_updates now (AuthTokens.refreshToken newTokens)) in
      ret (Finished (Returned newTokens))
  | Finished o => ret (Finished o)
  end.

Definition rotate_step (refreshToken : string) (now : Z) (k : RotatePc)
  : Store -> Store * RotatePc :=
  fun s =>
    match rotate_stage refreshToken now k s with
    | (s', Returned k') => (s', k')
    | (s', Threw e) => let '(s'', o) := refresh_handler e s' in (s'', Finished o)
    end.

(** One call running alone: its store accesses at the instants [nows]. *)
Fixpoint rotate_steps (refreshToken : string) (nows : list Z) (k : RotatePc)
    (s : Store) : Store * RotatePc :=
  match nows with
  | [] => (s, k)
  | now :: rest =>
      let '(s', k') := rotate_step refreshToken now k s in
      rotate_steps refreshToken rest k' s'
  end.

(** Two calls presenting the same value, scheduled by the event loop. *)
Inductive Caller := CallerA | CallerB.

Record Race := mkRace {
  race_store : Store;
  pcA : RotatePc;
  pcB : RotatePc;
}.

Definition race_step (refreshToken : string) (r : Race) (ev : Caller * Z) : Race :=
  match ev with
  | (CallerA, now) =>
      let '(s', k') := rotate_step refreshToken now (pcA r) (race_store r) in
      mkRace s' k' (pcB r)
  | (CallerB, now) =>
      let '(s', k') := rotate_step refreshToken now (pcB r) (race_store r) in
      mkRace s' (pcA r) k'
  end.

Definition race (refreshToken : string) (schedule : list (Caller * Z)) (s : Store)
  : Race :=
  fold_left (race_step refreshToken) schedule (mkRace s AtStart AtStart).

(** A call has returned a pair. *)
Definition succeeded (k : RotatePc) : bool :=
  match k with
  | Finished (Returned _) => true
  | _ => false
  end.

(** Of two racing calls, one and only one has returned a pair. *)
Definition one_winner (r : Race) : Prop :=
  xorb (succeeded (pcA r)) (succeeded (pcB r)) = true.

(** The four store accesses of caller [c], all at instant [now]. *)
Definition whole_call (c : Caller) (now : Z) : list (Caller * Z) :=
  [(c, now); (c, now); (c, now); (c, now)].

(** ** Sequences of calls *)

Inductive Call :=
  | CallRegister (dto : RegisterUserDto.t) (g : Generated) (now : Z) (auditUp : bool)
  | CallLogin (dto : LoginDto.t) (ipAddress : option string) (now : Z) (auditUp : bool)
  | CallRefresh (refreshToken : string) (now : Z)
  | CallLogout (refreshToken : string) (now : Z).

(** The store a call leaves behind, whether it returns or throws. *)
Definition exec (s : Store) (c : Call) : Store :=
  match c with
  | CallRegister dto g now auditUp => fst (register dto g now auditUp s)
  | CallLogin dto ip now auditUp => fst (login dto ip now auditUp s)
  | CallRefresh t now => fst (refreshToken t now s)
  | CallLogout t now => fst (logout t now s)
  end.

Definition run (s : Store) (calls : list Call) : Store := fold_left exec calls s.


(** What the caller of a service method gets back. *)
Inductive Reply :=
  | ReplySession (o : Outcome (UserWithoutPassword.t * AuthTokens.t))
  | ReplyTokens (o : Outcome AuthTokens.t)
  | ReplyVoid (o : Outcome unit).

Definition perform (s : Store) (c : Call) : Store * Reply :=
  match c with
  | CallRegister dto g now auditUp =>
      let '(s', o) := register dto g now auditUp s in (s', ReplySession o)
  | CallLogin dto ip now auditUp =>
      let '(s', o) := login dto ip now auditUp s in (s', ReplySession o)
  | CallRefresh t now =>
      let '(s', o) := refreshToken t now s in (s', ReplyTokens o)
  | CallLogout t now =>
      let '(s', o) := logout t now s in (s', ReplyVoid o)
  end.

(** The same call with another fate for its audit write. *)
Definition with_audit (up : bool) (c : Call) : Call :=
  match c with
  | CallRegister dto g now _ => CallRegister dto g now up
  | CallLogin dto ip now _ => CallLogin dto ip now up
  | CallRefresh t now => CallRefresh t now
  | CallLogout t now => CallLogout t now
  end.

(** ** Vocabulary of the properties *)

(** Both signatures are produced and the refresh value is not stored yet, so
    that [generateTokens] returns the pair [t]. *)
Definition mints (u : User.t) (now : Z) (s : Store) (t : AuthTokens.t) : Prop :=
  jwt_sign X (payload_of u) (JWT_SECRET env)
    (or_default (JWT_EXPIRES_IN env) "15m") now = Some (AuthTokens.accessToken t)
  /\ jwt_sign X (payload_of u) (JWT_REFRESH_SECRET env)
       (or_default (JWT_REFRESH_EXPIRES_IN env) "7d") now
     = Some (AuthTokens.refreshToken t)
  /\ refreshTokens s !! AuthTokens.refreshToken t = None.

(** The row [generateTokens] inserts. *)
Definition issued_row (u : User.t) (now : Z) (t : AuthTokens.t) : RefreshToken.t :=
  RefreshToken.mk (User.id u) (AuthTokens.refreshToken t) (now + SEVEN_DAYS) None None.

(** The presented value passes every guard of [refreshToken] in [s]: it
    verifies, its record is stored, not revoked and not expired, and the
    user named in it exists with status ACTIVE. *)
Definition exchangeable (tok : string) (now : Z) (s : Store) (r : RefreshToken.t)
    (u : User.t) : Prop :=
  (exists p, jwt_verify X tok (JWT_REFRESH_SECRET env) now = Verified p
             /\ user_by_id (JWTPayload.userId p) s = Some u)
  /\ refreshTokens s !! tok = Some r
  /\ RefreshToken.revokedAt r = None
  /\ now <= RefreshToken.expiresAt r
  /\ User.status u = UserStatus.ACTIVE.

(** The store after a successful rotation. *)
Definition rotated (tok : string) (now : Z) (r : RefreshToken.t) (u : User.t)
    (t : AuthTokens.t) (s : Store) : Store :=
  set_refreshTokens
    (<[tok := rotate_updates now (AuthTokens.refreshToken t) r]>
       (<[AuthTokens.refreshToken t := issued_row u now t]> (refreshTokens s))) s.

(** ** Consecutive attempts *)

Definition attempt (e : string) (a : Attempt) : M (UserWithoutPassword.t * AuthTokens.t) :=
  login (LoginDto.mk e (att_password a)) (att_ip a) (att_now a) (att_auditUp a).

(** Consecutive attempts: the final store and the outcome of each. *)
Fixpoint attempts (e : string) (l : list Attempt) (s : Store)
  : Store * list (Outcome (UserWithoutPassword.t * AuthTokens.t)) :=
  match l with
  | [] => (s, [])
  | a :: rest =>
      let '(s1, o) := attempt e a s in
      let '(s2, os) := attempts e rest s1 in
      (s2, o :: os)
  end.

End AuthService.

(** ** A reference instance of the libraries

    Used to run the service on concrete stores.  A token is the secret and
    the signed fields joined by [|]; [iat] and [exp] are in seconds, as
    jsonwebtoken writes them. *)

Module Ref.

Definition role_name (r : UserRole.t) : string :=
  match r with
  | UserRole.SUPER_ADMIN => "SUPER_ADMIN"
  | UserRole.TENANT_ADMIN => "TENANT_ADMIN"
  | UserRole.USER => "USER"
  | UserRole.VIEWER => "VIEWER"
  end.

Definition role_of_name (s : string) : option UserRole.t :=
  if String.eqb s "SUPER_ADMIN" then Some UserRole.SUPER_ADMIN
  else if String.eqb s "TENANT_ADMIN" then Some UserRole.TENANT_ADMIN
  else if String.eqb s "USER" then Some UserRole.USER
  else if String.eqb s "VIEWER" then Some UserRole.VIEWER
  else None.

Fixpoint digits (fuel : nat) (n : Z) (acc : list ascii) : list ascii :=
  match fuel with
  | O => acc
  | S f =>
      let d := ascii_of_N (Z.to_N (48 + n mod 10)) in
      if n <? 10 then d :: acc else digits f (n / 10) (d :: acc)
  end.

Definition show (n : Z) : string := string_of_list_ascii (digits 20 n []).

Definition read (s : string) : option Z :=
  let cs := list_ascii_of_string s in
  if forallb is_digit cs && negb (Nat.eqb (length cs) 0)
  then Some (fold_left (fun a c => 10 * a + (code c - 48)) cs 0)
  else None.

Fixpoint fields (l : list ascii) (cur : list ascii) : list string :=
  match l with
  | [] => [string_of_list_ascii (rev cur)]
  | c :: r =>
      if Ascii.eqb c "|"%char
      then string_of_list_ascii (rev cur) :: fields r []
      else fields r (c :: cur)
  end.

Definition join (l : list string) : string :=
  match l with
  | [] => ""
  | x :: r => fold_left (fun a y => a +:+ "|" +:+ y) r x
  end.

Definition seconds_of (expiresIn : string) : option Z :=
  if String.eqb expiresIn "15m" then Some 900
  else if String.eqb expiresIn "7d" then Some 604800
  else None.

Definition sign (p : JWTPayload.t) (secret : option string) (expiresIn : string)
    (now : Z) : option string :=
  match secret, seconds_of expiresIn with
  | Some k, Some ttl =>
      let iat := now / 1000 in
      Some (join [k; JWTPayload.userId p; JWTPayload.email p;
                  role_name (JWTPayload.role p);
                  default "" (JWTPayload.tenantId p);
                  show iat; show (iat + ttl)])
  | _, _ => None
  end.

Definition verify (tok : string) (secret : option string) (now : Z) : JwtVerified :=
  match fields (list_ascii_of_string tok) [], secret with
  | [k; uid; em; ro; tid; iat; ex], Some k' =>
      match role_of_name ro, read iat, read ex with
      | Some r, Some _, Some e =>
          if negb (String.eqb k k') then Rejected JsonWebTokenError
          else if e <=? now / 1000 then Rejected TokenExpiredError
          else Verified (JWTPayload.mk uid em r
                           (if String.eqb tid "" then None else Some tid))
      | _, _, _ => Rejected JsonWebTokenError
      end
  | _, _ => Rejected JsonWebTokenError
  end.

Definition hash (data : string) (rounds : Z) (salt : string) : string :=
  salt +:+ "$" +:+ data.

Definition compare (data hash : string) : bool :=
  match fields (list_ascii_of_string
                  (string_of_list_ascii
                     (List.map (fun c => if Ascii.eqb c "$"%char then "|"%char else c)
                        (list_ascii_of_string hash)))) [] with
  | [_; d] => String.eqb d data
  | _ => false
  end.

Definition X : Externals := mkExternals compare hash sign verify.

Definition env : Env := mkEnv (Some "k1") (Some "k2") None None.

Definition acme : Tenant.t :=
  Tenant.mk "t1" "Acme" "acme" "PRO" TenantStatus.ACTIVE None 5 1000 1073741824.

Definition alice : User.t :=
  User.mk "u1" (Some "t1") "a@x.com" "s$Abc123!@" "Alice" "A"
    UserRole.TENANT_ADMIN UserStatus.ACTIVE true 0 None None None.

Definition store0 : Store := mkStore [alice] [acme] ∅ [] (Some ∅).

(** Alice after five mismatches, the fifth at instant 5000. *)
Definition alice_locked : User.t :=
  set_lockedUntil (Some (5000 + FIFTEEN_MINUTES)) (set_failedLoginAttempts 5 alice).

Definition store_locked : Store := mkStore [alice_locked] [acme] ∅ [] (Some ∅).

Definition acme_suspended : Tenant.t :=
  Tenant.mk "t1" "Acme" "acme" "PRO" TenantStatus.SUSPENDED None 5 1000 1073741824.

(** The refresh value minted for Alice at instant 5000 and its record. *)
Definition alice_refresh : string := "k2|u1|a@x.com|TENANT_ADMIN|t1|5|604805".

Definition alice_record : RefreshToken.t :=
  RefreshToken.mk "u1" alice_refresh (5000 + SEVEN_DAYS) None None.

(** Alice logged in at 5000. *)
Definition store_session : Store :=
  mkStore [alice] [acme] {[alice_refresh := alice_record]} [] (Some ∅).

(** The same, her tenant having been suspended since. *)
Definition store_suspended : Store :=
  mkStore [alice] [acme_suspended] {[alice_refresh := alice_record]} [] (Some ∅).

(** No Redis client. *)
Definition store_no_redis : Store :=
  mkStore [alice] [acme] {[alice_refresh := alice_record]} [] None.

Definition wrong (now : Z) : Attempt := mkAttempt "guess" None now true.

(** The pair minted for Alice at instant 7000. *)
Definition alice_pair_7000 : AuthTokens.t :=
  AuthTokens.mk "k1|u1|a@x.com|TENANT_ADMIN|t1|7|907"
    "k2|u1|a@x.com|TENANT_ADMIN|t1|7|604807".

Definition alice_login : LoginDto.t := LoginDto.mk "a@x.com" "Abc123!@".
Definition alice_guess : LoginDto.t := LoginDto.mk "a@x.com" "guess".
Definition nobody_guess : LoginDto.t := LoginDto.mk "n@x.com" "guess".

(** Alice with a lock that is still running at instant 7000. *)
Definition store_session_locked : Store :=
  mkStore [alice_locked] [acme] {[alice_refresh := alice_record]} [] (Some ∅).

End Ref.

(** * Further vocabulary

    Predicates used to state what the service does beyond the token
    lifecycle: the shape of accepted input, the rows [register] inserts and
    the invariants of the tables. *)

(** [[a-z0-9-]] *)
Definition is_slug_char (c : ascii) : bool :=
  is_lower c || is_digit c || Ascii.eqb c "-"%char.

Definition dash : ascii := "-"%char.

(** The store after [AuditService.log]: one more row when the audit table
    can be written. *)
Definition audited (up : bool) (r : AuditLog.t) (s : Store) : Store :=
  if up then set_auditLogs (auditLogs s ++ [r]) s else s.

(** The audit rows [login] and [register] write. *)
Definition login_failed_row (u : User.t) (ipAddress : option string) : AuditLog.t :=
  AuditLog.mk (or_undefined (User.tenantId u)) (Some (User.id u))
    "LOGIN_FAILED" "User" (Some (User.id u)) "Failed login attempt" ipAddress None.

Definition login_row (u : User.t) (ipAddress : option string) : AuditLog.t :=
  AuditLog.mk (or_undefined (User.tenantId u)) (Some (User.id u))
    "LOGIN" "User" (Some (User.id u)) "User logged in successfully" ipAddress None.

Definition register_row (t : Tenant.t) (u : User.t) : AuditLog.t :=
  AuditLog.mk (Some (Tenant.id t)) (Some (User.id u))
    "CREATE" "User" (Some (User.id u)) "User registered and tenant created" None None.

(** The store after [generateTokens] has stored the record of [t]. *)
Definition issued (u : User.t) (now : Z) (t : AuthTokens.t) (s : Store) : Store :=
  set_refreshTokens
    (<[AuthTokens.refreshToken t := issued_row u now t]> (refreshTokens s)) s.

(** The rows [register] inserts. *)
Definition new_tenant (dto : RegisterUserDto.t) (g : Generated) (now : Z) : Tenant.t :=
  Tenant.mk (gen_tenantId g) (RegisterUserDto.tenantName dto)
    (createSlug (RegisterUserDto.tenantName dto)) "TRIAL" TenantStatus.TRIAL
    (Some (now + FOURTEEN_DAYS)) 5 1000 1073741824.

Definition new_user (X : Externals) (dto : RegisterUserDto.t) (g : Generated) : User.t :=
  User.mk (gen_userId g) (Some (gen_tenantId g)) (RegisterUserDto.email dto)
    (bcrypt_hash X (RegisterUserDto.password dto) 12 (gen_salt g))
    (RegisterUserDto.firstName dto) (RegisterUserDto.lastName dto)
    UserRole.TENANT_ADMIN UserStatus.ACTIVE false 0 None None None.

(** The store with the two rows of a registration. *)
Definition enrolled (X : Externals) (dto : RegisterUserDto.t) (g : Generated) (now : Z)
    (s : Store) : Store :=
  set_users (users s ++ [new_user X dto g])
    (set_tenants (tenants s ++ [new_tenant dto g now]) s).

(** The input passes the two validators, the identifier and the slug are
    free, and the keys the database draws are new. *)
Definition registrable (dto : RegisterUserDto.t) (g : Generated) (s : Store) : Prop :=
  isValidEmail (RegisterUserDto.email dto) = true
  /\ isStrongPassword (RegisterUserDto.password dto) = true
  /\ user_by_email (RegisterUserDto.email dto) s = None
  /\ List.find (fun t => String.eqb (Tenant.slug t)
                           (createSlug (RegisterUserDto.tenantName dto)))
       (tenants s) = None
  /\ existsb (fun t => String.eqb (Tenant.id t) (gen_tenantId g)) (tenants s) = false
  /\ existsb (fun u => String.eqb (User.id u) (gen_userId g)) (users s) = false.

(** The secret is right and no guard of [login] stops the user. *)
Definition admissible (X : Externals) (dto : LoginDto.t) (now : Z) (s : Store)
    (u : User.t) : Prop :=
  user_by_email (LoginDto.email dto) s = Some u
  /\ locked u now = false
  /\ bcrypt_compare X (LoginDto.password dto) (User.passwordHash u) = true
  /\ User.status u = UserStatus.ACTIVE
  /\ tenant_check (join_tenant s u) = None.

Definition not_active : Thrown := AppErr (UnauthorizedError "Account is not active").

(** The store after [login] has reset the row of [u]. *)
Definition logged (u : User.t) (now : Z) (ipAddress : option string) (s : Store)
  : Store :=
  set_users
    (update_where_id (User.id u) (successful_login_updates now ipAddress) (users s)) s.

(** The store after [login] has recorded a mismatch for [u]. *)
Definition mismatched (u : User.t) (now : Z) (s : Store) : Store :=
  set_users
    (update_where_id (User.id u)
       (failed_login_updates (User.failedLoginAttempts u + 1) now) (users s)) s.

Section Cases.

Variable X : Externals.
Variable env : Env.

(** The seven ways through [login]: which guard stops the call, what it has
    written by then and what it answers. *)
Inductive login_case (dto : LoginDto.t) (ip : option string) (now : Z) (au : bool)
    (s : Store) : Store * Outcome (UserWithoutPassword.t * AuthTokens.t) -> Prop :=
  | Login_unknown :
      user_by_email (LoginDto.email dto) s = None ->
      login_case dto ip now au s (s, Threw invalid_credentials)
  | Login_locked u :
      user_by_email (LoginDto.email dto) s = Some u ->
      locked u now = true ->
      login_case dto ip now au s (s, Threw account_locked)
  | Login_mismatch u :
      user_by_email (LoginDto.email dto) s = Some u ->
      locked u now = false ->
      bcrypt_compare X (LoginDto.password dto) (User.passwordHash u) = false ->
      login_case dto ip now au s
        (audited au (login_failed_row u ip) (mismatched u now s),
         Threw invalid_credentials)
  | Login_inactive u :
      user_by_email (LoginDto.email dto) s = Some u ->
      locked u now = false ->
      bcrypt_compare X (LoginDto.password dto) (User.passwordHash u) = true ->
      User.status u <> UserStatus.ACTIVE ->
      login_case dto ip now au s (s, Threw not_active)
  | Login_tenant u e :
      user_by_email (LoginDto.email dto) s = Some u ->
      locked u now = false ->
      bcrypt_compare X (LoginDto.password dto) (User.passwordHash u) = true ->
      User.status u = UserStatus.ACTIVE ->
      tenant_check (join_tenant s u) = Some e ->
      login_case dto ip now au s (s, Threw (AppErr e))
  | Login_unminted u e :
      admissible X dto now s u ->
      generateTokens X env u now (logged u now ip s) = (logged u now ip s, Threw e) ->
      login_case dto ip now au s (logged u now ip s, Threw e)
  | Login_returned u t :
      admissible X dto now s u ->
      mints X env u now s t ->
      login_case dto ip now au s
        (audited au (login_row u ip) (issued u now t (logged u now ip s)),
         Returned (omitPasswordHash (join_tenant s u), t)).

End Cases.

Definition invalid_email : Thrown := AppErr (ValidationError "Invalid email format").
Definition weak_password : Thrown :=
  AppErr (ValidationError
    "Password must be at least 8 characters with uppercase, lowercase, number, and special character").
Definition email_taken : Thrown := AppErr (ConflictError "Email already registered").
Definition name_taken : Thrown := AppErr (ConflictError "Tenant name already taken").

Section RegisterCases.

Variable X : Externals.
Variable env : Env.

(** The ways through [register]. *)
Inductive register_case (dto : RegisterUserDto.t) (g : Generated) (now : Z) (au : bool)
    (s : Store) : Store * Outcome (UserWithoutPassword.t * AuthTokens.t) -> Prop :=
  | Register_invalid_email :
      isValidEmail (RegisterUserDto.email dto) = false ->
      register_case dto g now au s (s, Threw invalid_email)
  | Register_weak_password :
      isValidEmail (RegisterUserDto.email dto) = true ->
      isStrongPassword (RegisterUserDto.password dto) = false ->
      register_case dto g now au s (s, Threw weak_password)
  | Register_email_taken u :
      isValidEmail (RegisterUserDto.email dto) = true ->
      isStrongPassword (RegisterUserDto.password dto) = true ->
      user_by_email (RegisterUserDto.email dto) s = Some u ->
      register_case dto g now au s (s, Threw email_taken)
  | Register_name_taken t :
      isValidEmail (RegisterUserDto.email dto) = true ->
      isStrongPassword (RegisterUserDto.password dto) = true ->
      user_by_email (RegisterUserDto.email dto) s = None ->
      List.find (fun t => String.eqb (Tenant.slug t)
                            (createSlug (RegisterUserDto.tenantName dto)))
        (tenants s) = Some t ->
      register_case dto g now au s (s, Threw name_taken)
  | Register_key_clash :
      isValidEmail (RegisterUserDto.email dto) = true ->
      isStrongPassword (RegisterUserDto.password dto) = true ->
      user_by_email (RegisterUserDto.email dto) s = None ->
      ~ registrable dto g s ->
      register_case dto g now au s (s, Threw (PrismaErr "P2002"))
  | Register_unminted e :
      registrable dto g s ->
      generateTokens X env (new_user X dto g) now (enrolled X dto g now s)
      = (enrolled X dto g now s, Threw e) ->
      register_case dto g now au s (enrolled X dto g now s, Threw e)
  | Register_returned t :
      registrable dto g s ->
      mints X env (new_user X dto g) now s t ->
      register_case dto g now au s
        (audited au (register_row (new_tenant dto g now) (new_user X dto g))
           (issued (new_user X dto g) now t (enrolled X dto g now s)),
         Returned
           (omitPasswordHash
              (mkUserWithTenant (new_user X dto g) (Some (new_tenant dto g now))),
            t)).

End RegisterCases.

(** ** Invariants of the tables *)

(** A counter is never negative, and a row that carries a lock carries at
    least five failures. *)
Definition row_sane (u : User.t) : Prop :=
  0 <= User.failedLoginAttempts u
  /\ (is_Some (User.lockedUntil u) -> 5 <= User.failedLoginAttempts u).

(** The keys of the user rows are distinct and every row is sane. *)
Definition users_sane (s : Store) : Prop :=
  NoDup (List.map User.id (users s)) /\ Forall row_sane (users s).

(** Only a revoked record names a successor, and the successor it names is
    another, stored record. *)
Definition records_linked (s : Store) : Prop :=
  forall k r k',
    refreshTokens s !! k = Some r ->
    RefreshToken.replacedBy r = Some k' ->
    is_Some (RefreshToken.revokedAt r) /\ k' <> k /\ is_Some (refreshTokens s !! k').

(** Every record of [s] is still in [s'], with its owner and its expiry, and
    still revoked if it was. *)
Definition records_kept (s s' : Store) : Prop :=
  forall k r,
    refreshTokens s !! k = Some r ->
    exists r',
      refreshTokens s' !! k = Some r'
      /\ RefreshToken.userId r' = RefreshToken.userId r
      /\ RefreshToken.expiresAt r' = RefreshToken.expiresAt r
      /\ (is_Some (RefreshToken.revokedAt r) -> is_Some (RefreshToken.revokedAt r')).

Definition token_expired : Thrown := AppErr (UnauthorizedError "Refresh token expired").
Definition user_gone : Thrown := AppErr (UnauthorizedError "User not found or inactive").

(** The store with no row at all. *)
Definition empty_store (r : option (gmap string RedisEntry)) : Store :=
  mkStore [] [] ∅ [] r.

(** ** The HTTP layer (auth.middleware.ts, auth.controller.ts, errorHandler.ts)

    Conventions.
    - A request carries what the handlers read: the [authorization] header,
      the cookies ([None] when no cookie parser has filled [req.cookies]),
      the parsed body, the two sources of the caller's address, and the
      [user] and [tenant] that [authenticate] attaches.
    - A middleware ends in [next()] or [next(error)]; a controller ends in a
      response or in [next(error)].
    - A store access succeeds, as in the service. *)

Module RefreshBody.
Record t := mk { refreshToken : option string }.
End RefreshBody.

Module Request.
Record t (B : Type) := mk {
  authorization : option string;
  cookies : option (gmap string string);
  body : B;
  ip : option string;
  remoteAddress : option string;
  user : option JWTPayload.t;
  tenant : option Tenant.t;
}.
Arguments mk {B}.
Arguments authorization {B}.
Arguments cookies {B}.
Arguments body {B}.
Arguments ip {B}.
Arguments remoteAddress {B}.
Arguments user {B}.
Arguments tenant {B}.

(** [req.user = decoded; req.tenant = t] *)
Definition attach {B} (decoded : JWTPayload.t) (t : option Tenant.t) (req : Request.t B)
  : Request.t B :=
  mk (authorization req) (cookies req) (body req) (ip req) (remoteAddress req)
    (Some decoded) t.
End Request.

(** How a middleware hands over: [next()] with the request as it left it,
    or [next(error)]. *)
Inductive Next (B : Type) :=
  | Continue (req : Request.t B)
  | Fail (error : Thrown).
Arguments Continue {B} req.
Arguments Fail {B} error.

(** [s.startsWith(p)] and [s.substring(n)] *)
Definition startsWith (s p : string) : bool := String.prefix p s.
Definition substring_from (n : nat) (s : string) : string :=
  String.substring n (String.length s - n) s.

(** [a || b] on [string | undefined] *)
Definition or_else (a b : option string) : option string :=
  if truthy_string a then a else b.

Definition UserRole_eqb (a b : UserRole.t) : bool :=
  match a, b with
  | UserRole.SUPER_ADMIN, UserRole.SUPER_ADMIN
  | UserRole.TENANT_ADMIN, UserRole.TENANT_ADMIN
  | UserRole.USER, UserRole.USER
  | UserRole.VIEWER, UserRole.VIEWER => true
  | _, _ => false
  end.

Definition instanceof_TokenExpiredError (k : JwtErrorKind) : bool :=
  match k with
  | TokenExpiredError => true
  | _ => false
  end.

(** The tenant check of [authenticate]: the error to throw, if any. *)
Definition tenant_gate (user : UserWithTenant) : option AppError :=
  if truthy_string (User.tenantId (row user)) then
    match tenant user with
    | Some t =>
        if TenantStatus.eqb (Tenant.status t) TenantStatus.SUSPENDED
        then Some (ForbiddenError "Tenant account is suspended")
        else if TenantStatus.eqb (Tenant.status t) TenantStatus.CANCELLED
        then Some (ForbiddenError "Tenant account is cancelled")
        else None
    | None => None
    end
  else None.

(** The [catch] of [authenticate]: what it passes to [next]. *)
Definition authenticate_catch (error : Thrown) : Thrown :=
  match error with
  | JwtErr k =>
      if instanceof_JsonWebTokenError k
      then AppErr (UnauthorizedError "Invalid token")
      else if instanceof_TokenExpiredError k
      then AppErr (UnauthorizedError "Token expired")
      else error
  | _ => error
  end.

(** [requireRole(...roles)] *)
Definition requireRole {B} (roles : list UserRole.t) (req : Request.t B) : Next B :=
  match Request.user req with
  | None => Fail (AppErr (UnauthorizedError "Unauthorized"))
  | Some user =>
      if negb (existsb (UserRole_eqb (JWTPayload.role user)) roles)
      then Fail (AppErr (ForbiddenError "Insufficient permissions"))
      else Continue req
  end.

Definition requireSuperAdmin {B} (req : Request.t B) : Next B :=
  match Request.user req with
  | None => Fail (AppErr (UnauthorizedError "Unauthorized"))
  | Some user =>
      if negb (UserRole_eqb (JWTPayload.role user) UserRole.SUPER_ADMIN)
      then Fail (AppErr (ForbiddenError "Super admin access required"))
      else Continue req
  end.

Definition requireAdmin {B} (req : Request.t B) : Next B :=
  match Request.user req with
  | None => Fail (AppErr (UnauthorizedError "Unauthorized"))
  | Some user =>
      if negb (existsb (UserRole_eqb (JWTPayload.role user))
                 [UserRole.SUPER_ADMIN; UserRole.TENANT_ADMIN])
      then Fail (AppErr (ForbiddenError "Admin access required"))
      else Continue req
  end.

(** [!req.user?.tenantId] *)
Definition requireTenant {B} (req : Request.t B) : Next B :=
  if negb (truthy_string (Request.user req ≫= JWTPayload.tenantId))
  then Fail (AppErr (ForbiddenError "Tenant context required"))
  else Continue req.

(** What a handler has done to the [refreshToken] cookie. *)
Inductive Cookie :=
  | CookieKept
  | CookieSet (value : string) (httpOnly secure : bool) (sameSite : string) (maxAge : Z)
  | CookieCleared.

(** [res.status(..).json({ success, message, error, data })] *)
Module Response.
Record t (D : Type) := mk {
  status : Z;
  success : bool;
  message : option string;
  error : option string;
  data : option D;
  cookie : Cookie;
}.
Arguments mk {D}.
Arguments status {D}.
Arguments success {D}.
Arguments message {D}.
Arguments error {D}.
Arguments data {D}.
Arguments cookie {D}.
End Response.

(** How a controller method ends. *)
Inductive Handled (D : Type) :=
  | Sent (res : Response.t D)
  | Forwarded (error : Thrown).
Arguments Sent {D} res.
Arguments Forwarded {D} error.

(** [err.name] *)
Definition err_name (err : Thrown) : string :=
  match err with
  | AppErr _ => "Error"
  | JwtErr JsonWebTokenError => "JsonWebTokenError"
  | JwtErr TokenExpiredError => "TokenExpiredError"
  | JwtErr NotBeforeError => "NotBeforeError"
  | PrismaErr _ => "PrismaClientKnownRequestError"
  | PlainErr _ => "Error"
  end.

(** [req.cookies.refreshToken || req.body.refreshToken]; reading a property
    of [undefined] throws a [TypeError]. *)
Definition cookie_or_body (req : Request.t RefreshBody.t) : Outcome (option string) :=
  match Request.cookies req with
  | Some c =>
      Returned (or_else (c !! "refreshToken")
                  (RefreshBody.refreshToken (Request.body req)))
  | None =>
      Threw (PlainErr "Cannot read properties of undefined (reading 'refreshToken')")
  end.

Definition SEVEN_DAYS_MS : Z := 7 * 24 * 60 * 60 * 1000.

Section Http.

Variable X : Externals.
Variable env : Env.
(** [process.env.NODE_ENV] *)
Variable NODE_ENV : option string.
(** The message jsonwebtoken gives an error of each class. *)
Variable jwt_message : JwtErrorKind -> string.

Definition production : bool :=
  match NODE_ENV with
  | Some e => String.eqb e "production"
  | None => false
  end.

Definition development : bool :=
  match NODE_ENV with
  | Some e => String.eqb e "development"
  | None => false
  end.

(** The [try] block of [authenticate]. *)
Definition authenticate_try {B} (req : Request.t B) (now : Z) : M (Request.t B) :=
  let authHeader := Request.authorization req in
  if negb (truthy_string authHeader)
     || negb (startsWith (default "" authHeader) "Bearer ")
  then throw (AppErr (UnauthorizedError "No token provided"))
  else
  let token := substring_from 7 (default "" authHeader) in
  let* decoded := verify X token (JWT_SECRET env) now in
  let* user := user_findUnique_id (JWTPayload.userId decoded) in
  match user with
  | None => throw (AppErr (UnauthorizedError "User not found"))
  | Some user =>
  if negb (UserStatus.eqb (User.status (row user)) UserStatus.ACTIVE) then
    throw (AppErr (UnauthorizedError "User account is not active"))
  else
  match tenant_gate user with
  | Some e => throw (AppErr e)
  | None => ret (Request.attach decoded (tenant user) req)
  end
  end.

Definition authenticate {B} (req : Request.t B) (now : Z) (s : Store)
  : Store * Next B :=
  match authenticate_try req now s with
  | (s', Returned req') => (s', Continue req')
  | (s', Threw error) => (s', Fail (authenticate_catch error))
  end.

(** [errorHandler]: [AppError]s are operational by construction. *)
Definition err_message (err : Thrown) : string :=
  match err with
  | AppErr e => message e
  | JwtErr k => jwt_message k
  | PrismaErr code => code
  | PlainErr msg => msg
  end.

Definition errorHandler {D} (err : Thrown) : Response.t D :=
  match err with
  | AppErr e =>
      Response.mk (statusCode e) false None (Some (message e)) None CookieKept
  | _ =>
      if String.eqb (err_name err) "PrismaClientKnownRequestError" then
        Response.mk 400 false None (Some "Database operation failed") None CookieKept
      else if String.eqb (err_name err) "ValidationError" then
        Response.mk 400 false None (Some (err_message err)) None CookieKept
      else
        Response.mk 500 false None
          (Some (if development then err_message err else "Internal server error"))
          None CookieKept
  end.

(** What the client gets: the controller's response, or the error handler's
    for what the controller passed to [next]. *)
Definition answered {D} (h : Handled D) : Response.t D :=
  match h with
  | Sent res => res
  | Forwarded error => errorHandler error
  end.

(** A route behind [authenticate]: the controller runs on the request the
    middleware hands over, the error handler on what it refuses. *)
Definition behind_authenticate {B D} (req : Request.t B) (now : Z)
    (controller : Request.t B -> Store -> Store * Handled D) (s : Store)
  : Store * Response.t D :=
  match authenticate req now s with
  | (s', Continue req') =>
      let '(s'', h) := controller req' s' in (s'', answered h)
  | (s', Fail error) => (s', errorHandler error)
  end.

End Http.

(** ** [AuthController] (auth.controller.ts) *)

Module AuthController.
Section Methods.

Variable X : Externals.
Variable env : Env.
Variable NODE_ENV : option string.

(** [register] *)
Definition register (req : Request.t RegisterUserDto.t) (g : Generated)
    (now : Z) (auditUp : bool) (s : Store)
  : Store * Handled (UserWithoutPassword.t * AuthTokens.t) :=
  match register X env (Request.body req) g now auditUp s with
  | (s', Returned (user, tokens)) =>
      (s', Sent (Response.mk 201 true (Some "Registration successful") None
                   (Some (user, tokens)) CookieKept))
  | (s', Threw error) => (s', Forwarded error)
  end.

(** [login]: the refresh value goes into the cookie, the
    access value into the body. *)
Definition login (req : Request.t LoginDto.t) (now : Z) (auditUp : bool)
    (s : Store) : Store * Handled (UserWithoutPassword.t * string) :=
  let ipAddress := or_else (Request.ip req) (Request.remoteAddress req) in
  match login X env (Request.body req) ipAddress now auditUp s with
  | (s', Returned (user, tokens)) =>
      (s', Sent (Response.mk 200 true (Some "Login successful") None
                   (Some (user, AuthTokens.accessToken tokens))
                   (CookieSet (AuthTokens.refreshToken tokens) true (production NODE_ENV)
                      "strict" SEVEN_DAYS_MS)))
  | (s', Threw error) => (s', Forwarded error)
  end.

(** [refresh] *)
Definition refresh (req : Request.t RefreshBody.t) (now : Z) (s : Store)
  : Store * Handled string :=
  match cookie_or_body req with
  | Threw error => (s, Forwarded error)
  | Returned token =>
      if negb (truthy_string token) then
        (s, Sent (Response.mk 401 false None (Some "Refresh token not provided")
                    None CookieKept))
      else
        match refreshToken X env (default "" token) now s with
        | (s', Returned tokens) =>
            (s', Sent (Response.mk 200 true None None
                         (Some (AuthTokens.accessToken tokens))
                         (CookieSet (AuthTokens.refreshToken tokens) true (production NODE_ENV)
                            "strict" SEVEN_DAYS_MS)))
        | (s', Threw error) => (s', Forwarded error)
        end
  end.

(** [logout] *)
Definition logout (req : Request.t RefreshBody.t) (now : Z) (s : Store)
  : Store * Handled unit :=
  match cookie_or_body req with
  | Threw error => (s, Forwarded error)
  | Returned token =>
      match
        (if truthy_string token
         then logout (default "" token) now s
         else (s, Returned tt))
      with
      | (s', Returned _) =>
          (s', Sent (Response.mk 200 true (Some "Logout successful") None None
                       CookieCleared))
      | (s', Threw error) => (s', Forwarded error)
      end
  end.

(** [me]; it runs behind [authenticate], and reading
    [req.user!.userId] of a request without a user throws a [TypeError]. *)
Definition me {B} (req : Request.t B) (s : Store)
  : Store * Handled UserWithoutPassword.t :=
  match Request.user req with
  | None =>
      (s, Forwarded (PlainErr "Cannot read properties of undefined (reading 'userId')"))
  | Some decoded =>
      match user_findUnique_id (JWTPayload.userId decoded) s with
      | (s', Returned (Some user)) =>
          (s', Sent (Response.mk 200 true None None (Some (omitPasswordHash user))
                       CookieKept))
      | (s', Returned None) =>
          (s', Sent (Response.mk 404 false None (Some "User not found") None CookieKept))
      | (s', Threw error) => (s', Forwarded error)
      end
  end.

End Methods.
End AuthController.

(** The request passes every guard of [authenticate] in [s]: the header
    carries a bearer value that verifies as [p], and the user [p] names
    exists, is ACTIVE and belongs to no suspended or cancelled tenant. *)
Definition authenticated {B} (X : Externals) (env : Env) (req : Request.t B) (now : Z)
    (s : Store) (p : JWTPayload.t) (u : User.t) : Prop :=
  exists h,
    Request.authorization req = Some h
    /\ startsWith h "Bearer " = true
    /\ jwt_verify X (substring_from 7 h) (JWT_SECRET env) now = Verified p
    /\ user_by_id (JWTPayload.userId p) s = Some u
    /\ User.status u = UserStatus.ACTIVE
    /\ tenant_gate (join_tenant s u) = None.

(** The errors [authenticate] passes to [next]. *)
Definition authenticate_errors : list Thrown :=
  [AppErr (UnauthorizedError "No token provided");
   AppErr (UnauthorizedError "Invalid token");
   AppErr (UnauthorizedError "User not found");
   AppErr (UnauthorizedError "User account is not active");
   AppErr (ForbiddenError "Tenant account is suspended");
   AppErr (ForbiddenError "Tenant account is cancelled")].

(** Two rows agree on every column the service never writes. *)
Definition same_identity (u v : User.t) : Prop :=
  User.id v = User.id u
  /\ User.tenantId v = User.tenantId u
  /\ User.email v = User.email u
  /\ User.passwordHash v = User.passwordHash u
  /\ User.firstName v = User.firstName u
  /\ User.lastName v = User.lastName u
  /\ User.role v = User.role u
  /\ User.status v = User.status u
  /\ User.emailVerified v = User.emailVerified u.

(** [s'] has the rows of [s], equal on every column the service never
    writes, followed by new users (TENANT_ADMIN, ACTIVE), new tenants
    (TRIAL) and new audit rows. *)
Definition grown (s s' : Store) : Prop :=
  exists us' us ts al,
    users s' = (us' ++ us)%list
    /\ Forall2 same_identity (users s) us'
    /\ Forall (fun u => User.role u = UserRole.TENANT_ADMIN
                        /\ User.status u = UserStatus.ACTIVE) us
    /\ tenants s' = (tenants s ++ ts)%list
    /\ Forall (fun t => Tenant.status t = TenantStatus.TRIAL) ts
    /\ auditLogs s' = (auditLogs s ++ al)%list.

(** ** More of the reference instance *)

Module Scenes.
Import Ref.

(** Bob registers Globex at instant 9000; the database draws the keys. *)
Definition bob_dto : RegisterUserDto.t :=
  RegisterUserDto.mk "Globex Corp" "b@y.org" "Xyz789!@" "Bob" "B".

Definition bob_gen : Generated := mkGenerated "t2" "u2" "salt".

Definition bob_pair_9000 : AuthTokens.t :=
  AuthTokens.mk "k1|u2|b@y.org|TENANT_ADMIN|t2|9|909"
    "k2|u2|b@y.org|TENANT_ADMIN|t2|9|604809".

Definition bob_pair_20000 : AuthTokens.t :=
  AuthTokens.mk "k1|u2|b@y.org|TENANT_ADMIN|t2|20|920"
    "k2|u2|b@y.org|TENANT_ADMIN|t2|20|604820".

(** Carol, same tenant name up to case and punctuation. *)
Definition carol_dto : RegisterUserDto.t :=
  RegisterUserDto.mk "globex-corp" "c@z.org" "Xyz789!@" "Carol" "C".

Definition carol_gen : Generated := mkGenerated "t3" "u3" "salt".

(** An environment without signing secrets. *)
Definition env_no_secret : Env := mkEnv None None None None.

(** A request that carries [tok] as its bearer value and nothing else. *)
Definition bearer (tok : string) : Request.t unit :=
  Request.mk (Some ("Bearer " +:+ tok)) (Some ∅) tt None None None None.

(** A request to the refresh or logout route with the value in its cookie. *)
Definition with_cookie (bearer_value cookie_value : string) : Request.t RefreshBody.t :=
  Request.mk (Some ("Bearer " +:+ bearer_value))
    (Some {[ "refreshToken" := cookie_value ]}) (RefreshBody.mk None)
    None None None None.

(** The access value minted for Alice at instant 7000. *)
Definition alice_access : string := AuthTokens.accessToken alice_pair_7000.

Definition alice_payload : JWTPayload.t :=
  JWTPayload.mk "u1" "a@x.com" UserRole.TENANT_ADMIN (Some "t1").

(** Alice's row is demoted to VIEWER. *)
Definition demote (u : User.t) : User.t :=
  User.mk (User.id u) (User.tenantId u) (User.email u) (User.passwordHash u)
    (User.firstName u) (User.lastName u) UserRole.VIEWER (User.status u)
    (User.emailVerified u) (User.failedLoginAttempts u) (User.lockedUntil u)
    (User.lastLoginAt u) (User.lastLoginIp u).

Definition a_day : list Call :=
  [CallLogin alice_guess None 1000 true;
   CallRegister bob_dto bob_gen 9000 true;
   CallLogin alice_login (Some "10.0.0.1") 12000 false;
   CallRefresh alice_refresh 13000;
   CallLogout alice_refresh 14000].

Definition jwt_says (k : JwtErrorKind) : string := "jwt error".

End Scenes.

(** * Properties *)

(** ** The validators on examples *)

Example isValidEmail_ok : isValidEmail "a@x.com" = true.
Proof. reflexivity. Qed.
Example isValidEmail_no_tld : isValidEmail "a@x." = false.
Proof. reflexivity. Qed.
Example isValidEmail_two_ats : isValidEmail "a@b@x.com" = false.
Proof. reflexivity. Qed.
Example isStrongPassword_ok : isStrongPassword "Abc123!@" = true.
Proof. reflexivity. Qed.
Example isStrongPassword_short : isStrongPassword "Abc12!@" = false.
Proof. reflexivity. Qed.
Example createSlug_ex : createSlug "  Acme & Sons, Inc. " = "acme-sons-inc".
Proof. reflexivity. Qed.

Lemma find_update_where_id (p : User.t -> bool) i f us :
  (forall u, p (f u) = p u) ->
  List.find p (update_where_id i f us)
  = (fun u => if String.eqb (User.id u) i then f u else u) <$> List.find p us.
Proof.
  intros Hp. induction us as [|u us IH]; simpl; [reflexivity|].
  destruct (String.eqb (User.id u) i) eqn:Hi.
  - rewrite Hp. destruct (p u); simpl; [now rewrite Hi | exact IH].
  - destruct (p u); simpl; [now rewrite Hi | exact IH].
Qed.

Lemma find_existsb {A} (p : A -> bool) l x :
  List.find p l = Some x -> existsb p l = true.
Proof.
  intros H. apply existsb_exists. exists x. now apply find_some in H.
Qed.

Lemma found_has_id us (q : User.t -> bool) u :
  List.find q us = Some u ->
  existsb (fun x => String.eqb (User.id x) (User.id u)) us = true.
Proof.
  intros H. apply find_some in H as [Hin _].
  apply existsb_exists. exists u. split; [exact Hin | apply String.eqb_refl].
Qed.

Lemma failed_login_updates_email n now u :
  User.email (failed_login_updates n now u) = User.email u.
Proof. unfold failed_login_updates. now destruct (5 <=? n). Qed.

Lemma failed_login_updates_counter n now u :
  User.failedLoginAttempts (failed_login_updates n now u) = n.
Proof. unfold failed_login_updates. now destruct (5 <=? n). Qed.

Lemma failed_login_updates_lock n now u :
  User.lockedUntil (failed_login_updates n now u)
  = if 5 <=? n then Some (now + FIFTEEN_MINUTES) else User.lockedUntil u.
Proof. unfold failed_login_updates. now destruct (5 <=? n). Qed.

(** The tenant check only ever produces one of its two errors, both of
    class [UnauthorizedError]. *)
Lemma tenant_check_error user e :
  tenant_check user = Some e ->
  e = UnauthorizedError "Tenant account is suspended"
  \/ e = UnauthorizedError "Tenant account is cancelled".
Proof.
  unfold tenant_check.
  destruct (truthy_string _); [|discriminate].
  destruct (tenant user) as [t|]; [|discriminate].
  destruct (TenantStatus.eqb _ TenantStatus.SUSPENDED); [intros [= <-]; now left|].
  destruct (TenantStatus.eqb _ TenantStatus.CANCELLED); [intros [= <-]; now right|].
  discriminate.
Qed.

Section LoginFacts.

Variable X : Externals.
Variable env : Env.

(** Guard 1: no row for the identifier. *)
Lemma login_unknown dto ip now au s :
  user_by_email (LoginDto.email dto) s = None ->
  login X env dto ip now au s = (s, Threw invalid_credentials).
Proof.
  unfold user_by_email, login, bind, user_findFirst_email. intros ->. reflexivity.
Qed.

(** Guard 2: the lock is consulted before the secret and writes nothing. *)
Lemma login_locked dto ip now au s u :
  user_by_email (LoginDto.email dto) s = Some u ->
  locked u now = true ->
  login X env dto ip now au s = (s, Threw account_locked).
Proof.
  unfold user_by_email, login, bind, user_findFirst_email. intros -> Hl.
  simpl. rewrite Hl. reflexivity.
Qed.

(** Guard 3: what a secret mismatch writes and throws. *)
Lemma login_wrong_secret dto ip now au s u :
  user_by_email (LoginDto.email dto) s = Some u ->
  locked u now = false ->
  bcrypt_compare X (LoginDto.password dto) (User.passwordHash u) = false ->
  let s' := fst (login X env dto ip now au s) in
  snd (login X env dto ip now au s) = Threw invalid_credentials
  /\ users s'
     = update_where_id (User.id u)
         (failed_login_updates (User.failedLoginAttempts u + 1) now) (users s)
  /\ tenants s' = tenants s /\ refreshTokens s' = refreshTokens s
  /\ redis s' = redis s.
Proof.
  unfold user_by_email. intros Hf Hl Hp.
  unfold login, bind, user_findFirst_email. rewrite Hf. simpl.
  rewrite Hl, Hp. simpl. unfold user_update.
  rewrite (found_has_id _ _ _ Hf).
  unfold AuditService.log, try_catch, auditLog_create.
  destruct au; simpl; repeat split; reflexivity.
Qed.

(** After a secret mismatch the same identifier finds the updated row. *)
Lemma login_wrong_secret_row dto ip now au s u :
  user_by_email (LoginDto.email dto) s = Some u ->
  locked u now = false ->
  bcrypt_compare X (LoginDto.password dto) (User.passwordHash u) = false ->
  user_by_email (LoginDto.email dto) (fst (login X env dto ip now au s))
  = Some (failed_login_updates (User.failedLoginAttempts u + 1) now u).
Proof.
  intros Hf Hl Hp.
  destruct (login_wrong_secret dto ip now au s u Hf Hl Hp) as (_ & Hu & _).
  unfold user_by_email in *. rewrite Hu.
  rewrite find_update_where_id
    by (intros x; now rewrite failed_login_updates_email).
  rewrite Hf. simpl. now rewrite String.eqb_refl.
Qed.

(** When the row exists, "Invalid credentials" can only come from guard 3. *)
Lemma login_invalid_credentials_inv dto ip now au s u :
  user_by_email (LoginDto.email dto) s = Some u ->
  snd (login X env dto ip now au s) = Threw invalid_credentials ->
  locked u now = false
  /\ bcrypt_compare X (LoginDto.password dto) (User.passwordHash u) = false.
Proof.
  unfold user_by_email. intros Hf.
  unfold login, bind, user_findFirst_email. rewrite Hf. simpl.
  destruct (locked u now); [discriminate|].
  destruct (bcrypt_compare X _ _); [|now split].
  simpl. destruct (UserStatus.eqb _ _); simpl; [|discriminate].
  destruct (tenant_check _) as [e|] eqn:Ht.
  - simpl. intros H. exfalso.
    destruct (tenant_check_error _ _ Ht) as [-> | ->]; discriminate.
  - unfold user_update. rewrite (found_has_id _ _ _ Hf). simpl.
    unfold generateTokens, bind, sign.
    destruct (jwt_sign X _ (JWT_SECRET env) _ _); [|discriminate]. simpl.
    destruct (jwt_sign X _ (JWT_REFRESH_SECRET env) _ _); [|discriminate]. simpl.
    unfold refreshToken_create. simpl.
    destruct (refreshTokens s !! _); simpl; [discriminate|].
    unfold AuditService.log, try_catch, auditLog_create.
    destruct au; simpl; discriminate.
Qed.

End LoginFacts.

(** ** Store predicates kept by every computation *)

Lemma preserves_ret {A} P (a : A) : preserves P (ret a).
Proof. intros s H. exact H. Qed.

Lemma preserves_throw {A} P e : preserves P (@throw A e).
Proof. intros s H. exact H. Qed.

Lemma preserves_bind {A B} P (c : M A) (k : A -> M B) :
  preserves P c -> (forall a, preserves P (k a)) -> preserves P (bind c k).
Proof.
  intros Hc Hk s H. unfold bind. specialize (Hc s H).
  destruct (c s) as [s' [a|e]]; simpl in *; [now apply Hk | exact Hc].
Qed.

Lemma preserves_try_catch {A} P (c : M A) h :
  preserves P c -> (forall e, preserves P (h e)) -> preserves P (try_catch c h).
Proof.
  intros Hc Hh s H. unfold try_catch. specialize (Hc s H).
  destruct (c s) as [s' [a|e]]; simpl in *; [exact Hc | now apply Hh].
Qed.

Lemma preserves_transaction {A} P (c : M A) :
  preserves P c -> preserves P (transaction c).
Proof.
  intros Hc s H. unfold transaction. specialize (Hc s H).
  destruct (c s) as [s' [a|e]]; simpl in *; [exact Hc | exact H].
Qed.

Lemma revoked_in_on_refreshTokens tok : on_refreshTokens (revoked_in tok).
Proof. intros s s' E. unfold revoked_in. now rewrite E. Qed.

Section OtherTables.

Variable P : Store -> Prop.
Hypothesis P_local : on_refreshTokens P.

Lemma preserves_user_findFirst_email e : preserves P (user_findFirst_email e).
Proof. intros s H. exact H. Qed.

Lemma preserves_user_findUnique_id i : preserves P (user_findUnique_id i).
Proof. intros s H. exact H. Qed.

Lemma preserves_tenant_findUnique_slug sl : preserves P (tenant_findUnique_slug sl).
Proof. intros s H. exact H. Qed.

Lemma preserves_refreshToken_findUnique t : preserves P (refreshToken_findUnique t).
Proof. intros s H. exact H. Qed.

Lemma preserves_getRedisClient : preserves P getRedisClient.
Proof. intros s H. exact H. Qed.

Lemma preserves_user_update i f : preserves P (user_update i f).
Proof.
  intros s H. unfold user_update. destruct (existsb _ _); simpl; [|exact H].
  now apply (P_local s).
Qed.

Lemma preserves_user_create u : preserves P (user_create u).
Proof.
  intros s H. unfold user_create. destruct (existsb _ _); simpl; [exact H|].
  now apply (P_local s).
Qed.

Lemma preserves_tenant_create t : preserves P (tenant_create t).
Proof.
  intros s H. unfold tenant_create. destruct (existsb _ _); simpl; [exact H|].
  now apply (P_local s).
Qed.

Lemma preserves_auditLog_create up r : preserves P (auditLog_create up r).
Proof.
  intros s H. unfold auditLog_create. destruct up; simpl; [|exact H].
  now apply (P_local s).
Qed.

Lemma preserves_log up dto : preserves P (AuditService.log up dto).
Proof.
  apply preserves_try_catch; [apply preserves_auditLog_create|].
  intros e. apply preserves_ret.
Qed.

Lemma preserves_redis_setEx k n v now : preserves P (redis_setEx k n v now).
Proof.
  intros s H. unfold redis_setEx. destruct (redis s); simpl; [|exact H].
  now apply (P_local s).
Qed.

End OtherTables.

(** The three writes to the refresh-token table never clear a revocation. *)

Lemma preserves_refreshToken_create tok r :
  preserves (revoked_in tok) (refreshToken_create r).
Proof.
  intros s (r0 & Hr0 & Hrev). unfold refreshToken_create, revoked_in.
  destruct (refreshTokens s !! RefreshToken.token r) eqn:E; simpl.
  - now exists r0.
  - exists r0. split; [|exact Hrev].
    rewrite lookup_insert_ne; [exact Hr0 | congruence].
Qed.

Lemma preserves_refreshToken_update tok t f :
  (forall r, is_Some (RefreshToken.revokedAt r) -> is_Some (RefreshToken.revokedAt (f r))) ->
  preserves (revoked_in tok) (refreshToken_update t f).
Proof.
  intros Hf s (r0 & Hr0 & Hrev). unfold refreshToken_update, revoked_in.
  destruct (refreshTokens s !! t) as [r|] eqn:E; simpl; [|now exists r0].
  destruct (decide (t = tok)) as [->|Hne].
  - exists (f r). rewrite lookup_insert_eq. split; [reflexivity|].
    apply Hf. congruence.
  - exists r0. now rewrite lookup_insert_ne.
Qed.

Lemma preserves_refreshToken_updateMany tok t f :
  (forall r, is_Some (RefreshToken.revokedAt r) -> is_Some (RefreshToken.revokedAt (f r))) ->
  preserves (revoked_in tok) (refreshToken_updateMany t f).
Proof.
  intros Hf s (r0 & Hr0 & Hrev). unfold refreshToken_updateMany, revoked_in. simpl.
  destruct (decide (t = tok)) as [->|Hne].
  - exists (f r0). rewrite lookup_alter_eq, Hr0. split; [reflexivity | now apply Hf].
  - exists r0. now rewrite lookup_alter_ne.
Qed.

Lemma rotate_updates_revoked now nt r : is_Some (RefreshToken.revokedAt (rotate_updates now nt r)).
Proof. now eexists. Qed.

Lemma set_revokedAt_revoked now r : is_Some (RefreshToken.revokedAt (set_revokedAt (Some now) r)).
Proof. now eexists. Qed.

Lemma preserves_rotate_write tok t now nt :
  preserves (revoked_in tok) (refreshToken_update t (rotate_updates now nt)).
Proof.
  apply preserves_refreshToken_update. intros r _. apply rotate_updates_revoked.
Qed.

Lemma preserves_logout_write tok t now :
  preserves (revoked_in tok) (refreshToken_updateMany t (set_revokedAt (Some now))).
Proof.
  apply preserves_refreshToken_updateMany. intros r _. apply set_revokedAt_revoked.
Qed.

Create HintDb preserve discriminated.
#[global] Hint Resolve preserves_ret preserves_throw
  preserves_user_findFirst_email preserves_user_findUnique_id
  preserves_tenant_findUnique_slug preserves_refreshToken_findUnique
  preserves_getRedisClient preserves_user_update preserves_user_create
  preserves_tenant_create preserves_log preserves_redis_setEx
  preserves_refreshToken_create preserves_rotate_write preserves_logout_write
  revoked_in_on_refreshTokens : preserve.

(** Walk down a service method: one rule per construct of the monad, a case
    split at every branch of the code. *)
Ltac preserve_step :=
  match goal with
  | |- preserves _ (bind _ _) => apply preserves_bind; [|intros ?]
  | |- preserves _ (try_catch _ _) => apply preserves_try_catch; [|intros ?]
  | |- preserves _ (transaction _) => apply preserves_transaction
  | |- preserves _ (if ?b then _ else _) => destruct b
  | |- preserves _ (match ?x with _ => _ end) => destruct x
  | |- preserves _ (let '(_, _) := ?x in _) => destruct x
  end.
Ltac preserve := repeat preserve_step; eauto with preserve.

Section Revocation.

Variable X : Externals.
Variable env : Env.
Variable tok : string.

Lemma preserves_generateTokens u now :
  preserves (revoked_in tok) (generateTokens X env u now).
Proof. unfold generateTokens, sign. preserve. Qed.

Lemma preserves_register dto g now au :
  preserves (revoked_in tok) (register X env dto g now au).
Proof.
  unfold register. pose proof preserves_generateTokens. preserve.
Qed.

Lemma preserves_login dto ip now au :
  preserves (revoked_in tok) (login X env dto ip now au).
Proof.
  unfold login. pose proof preserves_generateTokens. preserve.
Qed.

Lemma preserves_refreshToken t now :
  preserves (revoked_in tok) (refreshToken X env t now).
Proof.
  unfold refreshToken, refresh_handler, verify.
  pose proof preserves_generateTokens. preserve.
Qed.

Lemma preserves_logout t now :
  preserves (revoked_in tok) (logout t now).
Proof.
  unfold logout. preserve.
Qed.

(** Once revoked, revoked for ever: no call of the service clears it. *)
Lemma revoked_in_exec s c : revoked_in tok s -> revoked_in tok (exec X env s c).
Proof.
  destruct c; simpl.
  - apply preserves_register.
  - apply preserves_login.
  - apply preserves_refreshToken.
  - apply preserves_logout.
Qed.

Lemma revoked_in_run calls : forall s,
  revoked_in tok s -> revoked_in tok (run X env s calls).
Proof.
  induction calls as [|c calls IH]; intros s H; simpl; [exact H|].
  apply IH. now apply revoked_in_exec.
Qed.

End Revocation.

(** ** What [generateTokens] and [refreshToken] do *)

Section RefreshFacts.

Variable X : Externals.
Variable env : Env.

Lemma generateTokens_mints u now s t :
  mints X env u now s t ->
  generateTokens X env u now s
  = (set_refreshTokens
       (<[AuthTokens.refreshToken t := issued_row u now t]> (refreshTokens s)) s,
     Returned t).
Proof.
  intros (Ha & Hr & Hfresh). unfold generateTokens, bind, sign.
  rewrite Ha. simpl. rewrite Hr. simpl.
  unfold refreshToken_create. simpl. rewrite Hfresh. simpl.
  destruct t; reflexivity.
Qed.

Lemma refreshToken_succeeds tok now s r u t :
  exchangeable X env tok now s r u ->
  mints X env u now s t ->
  refreshToken X env tok now s = (rotated tok now r u t s, Returned t).
Proof.
  intros ((p & Hv & Hu) & Hr & Hrev & Hexp & Hact) Hm.
  assert (Hne : AuthTokens.refreshToken t <> tok).
  { destruct Hm as (_ & _ & Hfresh). congruence. }
  unfold refreshToken, try_catch, bind, verify. rewrite Hv. simpl.
  rewrite Hr, Hrev. simpl.
  replace (RefreshToken.expiresAt r <? now) with false by (symmetry; lia).
  unfold user_findUnique_id. unfold user_by_id in Hu. rewrite Hu. simpl.
  rewrite Hact. simpl.
  rewrite (generateTokens_mints _ _ _ _ Hm).
  unfold refreshToken_update. simpl.
  rewrite lookup_insert_ne by exact Hne. rewrite Hr. reflexivity.
Qed.

(** When no pair can be minted for the owner (the library does not sign,
    or the value it signs is already stored), a value that passes every
    guard is not exchanged: the call throws and the store is left as it
    was. *)
Lemma refreshToken_unminted tok now s r u :
  exchangeable X env tok now s r u ->
  (forall t, ~ mints X env u now s t) ->
  exists e,
    refreshToken X env tok now s = (s, Threw e)
    /\ (e = PlainErr "jwt.sign" \/ e = PrismaErr "P2002").
Proof.
  intros ((p & Hv & Hu) & Hr & Hrev & Hexp & Hact) Hno.
  unfold refreshToken, try_catch, bind, verify. rewrite Hv. simpl.
  rewrite Hr, Hrev. simpl.
  replace (RefreshToken.expiresAt r <? now) with false by (symmetry; lia).
  unfold user_findUnique_id. unfold user_by_id in Hu. rewrite Hu. simpl.
  rewrite Hact. simpl.
  unfold generateTokens, bind, sign.
  destruct (jwt_sign X (payload_of u) (JWT_SECRET env) _ now) as [a|] eqn:Ha;
    [|eexists; split; [reflexivity | now left]].
  simpl.
  destruct (jwt_sign X (payload_of u) (JWT_REFRESH_SECRET env) _ now) as [n|] eqn:Hn;
    [|eexists; split; [reflexivity | now left]].
  simpl. unfold refreshToken_create. simpl.
  destruct (refreshTokens s !! n) eqn:Hs;
    [eexists; split; [reflexivity | now right]|].
  exfalso. apply (Hno (AuthTokens.mk a n)). repeat split; assumption.
Qed.

(** In particular when the library signs the presented value again, as it
    does for the same payload within the second the value was issued: the
    insert of the new record is refused as a duplicate. *)
Lemma refreshToken_same_value tok now s r u a :
  exchangeable X env tok now s r u ->
  jwt_sign X (payload_of u) (JWT_SECRET env)
    (or_default (JWT_EXPIRES_IN env) "15m") now = Some a ->
  jwt_sign X (payload_of u) (JWT_REFRESH_SECRET env)
    (or_default (JWT_REFRESH_EXPIRES_IN env) "7d") now = Some tok ->
  refreshToken X env tok now s = (s, Threw (PrismaErr "P2002")).
Proof.
  intros ((p & Hv & Hu) & Hr & Hrev & Hexp & Hact) Ha Hn.
  unfold refreshToken, try_catch, bind, verify. rewrite Hv. simpl.
  rewrite Hr, Hrev. simpl.
  replace (RefreshToken.expiresAt r <? now) with false by (symmetry; lia).
  unfold user_findUnique_id. unfold user_by_id in Hu. rewrite Hu. simpl.
  rewrite Hact. simpl.
  unfold generateTokens, bind, sign. rewrite Ha. simpl. rewrite Hn. simpl.
  unfold refreshToken_create. simpl. now rewrite Hr.
Qed.

(** A revoked record is refused, whatever the verification says, and the
    store is left as it was. *)
Lemma refreshToken_revoked tok now s :
  revoked_in tok s ->
  refreshToken X env tok now s = (s, Threw invalid_refresh_token).
Proof.
  intros (r & Hr & Hrev).
  unfold refreshToken, try_catch, bind, verify.
  destruct (jwt_verify X tok _ now) as [p|k]; simpl.
  - rewrite Hr. rewrite bool_decide_eq_true_2 by exact Hrev. reflexivity.
  - destruct k; reflexivity.
Qed.

(** So is a value without a record. *)
Lemma refreshToken_absent tok now s :
  refreshTokens s !! tok = None ->
  refreshToken X env tok now s = (s, Threw invalid_refresh_token).
Proof.
  intros Hr. unfold refreshToken, try_catch, bind, verify.
  destruct (jwt_verify X tok _ now) as [p|k]; simpl.
  - rewrite Hr. reflexivity.
  - destruct k; reflexivity.
Qed.

(** A successful rotation leaves the presented record revoked. *)
Lemma refreshToken_returned_revokes tok now s s' t :
  refreshToken X env tok now s = (s', Returned t) -> revoked_in tok s'.
Proof.
  unfold refreshToken, try_catch, bind, verify, refresh_handler, throw, ret.
  destruct (jwt_verify X tok _ now) as [p|k]; simpl;
    [|destruct k; simpl; discriminate].
  destruct (refreshTokens s !! tok) as [r|] eqn:Hr; simpl; [|discriminate].
  destruct (bool_decide _); simpl; [discriminate|].
  destruct (_ <? _); simpl; [discriminate|].
  unfold user_findUnique_id; simpl.
  destruct (join_tenant s <$> _) as [user|]; simpl; [|discriminate].
  destruct (negb _); simpl; [discriminate|].
  destruct (generateTokens X env (row user) now s) as [s1 [nt|e]] eqn:Hg; simpl;
    [|destruct e as [?|k|?|?]; try destruct k; simpl; discriminate].
  unfold refreshToken_update.
  destruct (refreshTokens s1 !! tok) as [r1|] eqn:Hr1; simpl; [|discriminate].
  intros [= <- <-]. unfold revoked_in.
  exists (rotate_updates now (AuthTokens.refreshToken nt) r1).
  simpl. rewrite lookup_insert_eq. split; [reflexivity | now eexists].
Qed.

End RefreshFacts.

(** ** Lockout *)

Lemma last_cons_default {A} (l : list A) : forall a b,
  List.last (b :: l) a = List.last l b.
Proof.
  induction l as [|c l IH]; intros a b; [reflexivity|].
  change (List.last (b :: c :: l) a) with (List.last (c :: l) a).
  now rewrite !IH.
Qed.

Section Lockout.

Variable X : Externals.
Variable env : Env.

Lemma attempts_cons e a l s :
  attempts X env e (a :: l) s
  = let '(s1, o) := attempt X env e a s in
    let '(s2, os) := attempts X env e l s1 in (s2, o :: os).
Proof. reflexivity. Qed.

(** A run of attempts that all fail on the secret: the counter grows by the
    length of the run and, once it has reached five, the lock expires
    fifteen minutes after the last attempt. *)
Lemma attempts_all_failed e l : forall a s u,
  user_by_email e s = Some u ->
  Forall (eq (Threw invalid_credentials)) (snd (attempts X env e (a :: l) s)) ->
  exists u',
    user_by_email e (fst (attempts X env e (a :: l) s)) = Some u'
    /\ User.failedLoginAttempts u'
       = User.failedLoginAttempts u + Z.of_nat (S (length l))
    /\ (5 <= User.failedLoginAttempts u' ->
        User.lockedUntil u' = Some (att_now (List.last l a) + FIFTEEN_MINUTES)).
Proof.
  induction l as [|b l IH]; intros a s u Hu Hall.
  - rewrite attempts_cons in *. simpl attempts in *.
    destruct (attempt X env e a s) as [s1 o] eqn:Hlogin. unfold attempt in Hlogin.
    simpl in *. inversion Hall as [|? ? Ho _]; subst.
    destruct (login_invalid_credentials_inv X env
                (LoginDto.mk e (att_password a)) (att_ip a) (att_now a)
                (att_auditUp a) s u Hu) as [Hl Hp];
      [now rewrite Hlogin|].
    pose proof (login_wrong_secret_row X env
                  (LoginDto.mk e (att_password a)) (att_ip a) (att_now a)
                  (att_auditUp a) s u Hu Hl Hp) as Hrow.
    rewrite Hlogin in Hrow. simpl in Hrow.
    eexists. split; [exact Hrow|].
    rewrite failed_login_updates_counter, failed_login_updates_lock.
    split; [lia|]. intros H5.
    destruct (5 <=? _) eqn:E; [reflexivity | lia].
  - rewrite (attempts_cons e a (b :: l) s) in *.
    destruct (attempt X env e a s) as [s1 o] eqn:Hlogin. unfold attempt in Hlogin.
    destruct (attempts X env e (b :: l) s1) as [s2 os] eqn:Hrest.
    simpl in Hall. inversion Hall as [|? ? Ho Hos]; subst.
    destruct (login_invalid_credentials_inv X env
                (LoginDto.mk e (att_password a)) (att_ip a) (att_now a)
                (att_auditUp a) s u Hu) as [Hl Hp];
      [now rewrite Hlogin|].
    pose proof (login_wrong_secret_row X env
                  (LoginDto.mk e (att_password a)) (att_ip a) (att_now a)
                  (att_auditUp a) s u Hu Hl Hp) as Hrow.
    rewrite Hlogin in Hrow. simpl in Hrow.
    destruct (IH b s1 _ Hrow) as (u' & Hu' & Hc & Hlock);
      [now rewrite Hrest|].
    rewrite Hrest in Hu'. simpl in Hu'.
    exists u'. split; [exact Hu'|].
    rewrite failed_login_updates_counter in Hc.
    split; [simpl length in *; lia|].
    intros H5. rewrite (Hlock H5), last_cons_default. reflexivity.
Qed.

End Lockout.

(** ** [refreshToken] does not look at the lock state *)

Lemma find_map_stable {A} (p : A -> bool) (f : A -> A) l :
  (forall x, p (f x) = p x) -> List.find p (List.map f l) = f <$> List.find p l.
Proof.
  intros Hp. induction l as [|x l IH]; simpl; [reflexivity|].
  rewrite Hp. destruct (p x); [reflexivity | exact IH].
Qed.

Section LockState.

Variable X : Externals.
Variable env : Env.
Variable l : User.t -> option Z.
Variable c : User.t -> Z.

Lemma generateTokens_relock u now s :
  generateTokens X env (relock l c u) now (with_lock_state l c s)
  = let '(s1, o) := generateTokens X env u now s in
    (set_users (List.map (relock l c) (users s)) s1, o).
Proof.
  unfold generateTokens, bind, sign. change (payload_of (relock l c u)) with (payload_of u).
  destruct (jwt_sign X (payload_of u) (JWT_SECRET env) _ now); [|reflexivity].
  simpl.
  destruct (jwt_sign X (payload_of u) (JWT_REFRESH_SECRET env) _ now); [|reflexivity].
  simpl. unfold refreshToken_create. simpl.
  destruct (refreshTokens s !! _); reflexivity.
Qed.

Lemma refreshToken_relock tok now s :
  refreshToken X env tok now (with_lock_state l c s)
  = let '(s1, o) := refreshToken X env tok now s in
    (set_users (List.map (relock l c) (users s)) s1, o).
Proof.
  unfold refreshToken, try_catch, bind, verify.
  destruct (jwt_verify X tok _ now) as [p|k]; simpl; [|destruct k; reflexivity].
  destruct (refreshTokens s !! tok) as [r|] eqn:Hr; simpl; [|reflexivity].
  destruct (bool_decide _); simpl; [reflexivity|].
  destruct (_ <? _); simpl; [reflexivity|].
  rewrite find_map_stable by reflexivity.
  destruct (List.find _ (users s)) as [u|] eqn:Hu; simpl; [|reflexivity].
  destruct (UserStatus.eqb (User.status u) UserStatus.ACTIVE); simpl; [|reflexivity].
  rewrite generateTokens_relock.
  destruct (generateTokens X env u now s) as [s1 [nt|e]] eqn:Hgen; simpl.
  - unfold refreshToken_update. simpl.
    destruct (refreshTokens s1 !! tok); reflexivity.
  - destruct e as [?|k|?|?]; try destruct k; reflexivity.
Qed.

End LockState.

(** ** Computations that cannot tell two stores apart *)

Lemma agree_ret R {A} (a : A) : agree R (ret a) (ret a).
Proof. intros s1 s2 H. now split. Qed.

Lemma agree_throw R {A} e : agree R (@throw A e) (throw e).
Proof. intros s1 s2 H. now split. Qed.

Lemma agree_bind R {A B} (c1 c2 : M A) (k1 k2 : A -> M B) :
  agree R c1 c2 -> (forall a, agree R (k1 a) (k2 a)) ->
  agree R (bind c1 k1) (bind c2 k2).
Proof.
  intros Hc Hk s1 s2 H. unfold bind. destruct (Hc s1 s2 H) as [Ho Hs].
  destruct (c1 s1) as [s1' o1], (c2 s2) as [s2' o2]. simpl in *. subst o2.
  destruct o1 as [a|e]; [now apply Hk | now split].
Qed.

Lemma agree_try_catch R {A} (c1 c2 : M A) h1 h2 :
  agree R c1 c2 -> (forall e, agree R (h1 e) (h2 e)) ->
  agree R (try_catch c1 h1) (try_catch c2 h2).
Proof.
  intros Hc Hh s1 s2 H. unfold try_catch. destruct (Hc s1 s2 H) as [Ho Hs].
  destruct (c1 s1) as [s1' o1], (c2 s2) as [s2' o2]. simpl in *. subst o2.
  destruct o1 as [a|e]; [now split | now apply Hh].
Qed.

Lemma agree_transaction R {A} (c1 c2 : M A) :
  agree R c1 c2 -> agree R (transaction c1) (transaction c2).
Proof.
  intros Hc s1 s2 H. unfold transaction. destruct (Hc s1 s2 H) as [Ho Hs].
  destruct (c1 s1) as [s1' o1], (c2 s2) as [s2' o2]. simpl in *. subst o2.
  destruct o1 as [a|e]; now split.
Qed.

Ltac agree_step :=
  match goal with
  | |- agree _ (bind _ _) (bind _ _) => apply agree_bind; [|intros ?]
  | |- agree _ (try_catch _ _) (try_catch _ _) => apply agree_try_catch; [|intros ?]
  | |- agree _ (transaction _) (transaction _) => apply agree_transaction
  | |- agree _ (ret _) (ret _) => apply agree_ret
  | |- agree _ (throw _) (throw _) => apply agree_throw
  | |- agree _ (if ?b then _ else _) _ => destruct b
  | |- agree _ (match ?x with _ => _ end) _ => destruct x
  end.

(** A relation that forces the three tables of rows to coincide and
    survives the same write on both sides. *)
Section Agreement.

Variable R : Store -> Store -> Prop.
Hypothesis R_tables : forall s1 s2, R s1 s2 ->
  users s1 = users s2 /\ tenants s1 = tenants s2
  /\ refreshTokens s1 = refreshTokens s2.
Hypothesis R_set_users : forall s1 s2 us,
  R s1 s2 -> R (set_users us s1) (set_users us s2).
Hypothesis R_set_tenants : forall s1 s2 ts,
  R s1 s2 -> R (set_tenants ts s1) (set_tenants ts s2).
Hypothesis R_set_refreshTokens : forall s1 s2 m,
  R s1 s2 -> R (set_refreshTokens m s1) (set_refreshTokens m s2).

Ltac tables H := destruct (R_tables _ _ H) as (Hu & Ht & Hr).

Lemma agree_user_findFirst_email e :
  agree R (user_findFirst_email e) (user_findFirst_email e).
Proof.
  intros s1 s2 H. tables H. unfold user_findFirst_email, join_tenant. simpl.
  rewrite Hu, Ht. now split.
Qed.

Lemma agree_user_findUnique_id i :
  agree R (user_findUnique_id i) (user_findUnique_id i).
Proof.
  intros s1 s2 H. tables H. unfold user_findUnique_id, join_tenant. simpl.
  rewrite Hu, Ht. now split.
Qed.

Lemma agree_tenant_findUnique_slug sl :
  agree R (tenant_findUnique_slug sl) (tenant_findUnique_slug sl).
Proof.
  intros s1 s2 H. tables H. unfold tenant_findUnique_slug. simpl.
  rewrite Ht. now split.
Qed.

Lemma agree_refreshToken_findUnique t :
  agree R (refreshToken_findUnique t) (refreshToken_findUnique t).
Proof.
  intros s1 s2 H. tables H. unfold refreshToken_findUnique. simpl.
  rewrite Hr. now split.
Qed.

Lemma agree_user_update i f : agree R (user_update i f) (user_update i f).
Proof.
  intros s1 s2 H. tables H. unfold user_update. rewrite Hu.
  destruct (existsb _ _); simpl; split; auto.
Qed.

Lemma agree_user_create u : agree R (user_create u) (user_create u).
Proof.
  intros s1 s2 H. tables H. unfold user_create, join_tenant. rewrite Hu.
  destruct (existsb _ _); simpl; [now split|]. rewrite Ht. split; auto.
Qed.

Lemma agree_tenant_create t : agree R (tenant_create t) (tenant_create t).
Proof.
  intros s1 s2 H. tables H. unfold tenant_create. rewrite Ht.
  destruct (existsb _ _); simpl; split; auto.
Qed.

Lemma agree_refreshToken_create r :
  agree R (refreshToken_create r) (refreshToken_create r).
Proof.
  intros s1 s2 H. tables H. unfold refreshToken_create. rewrite Hr.
  destruct (refreshTokens s2 !! _); simpl; split; auto.
Qed.

Lemma agree_refreshToken_update t f :
  agree R (refreshToken_update t f) (refreshToken_update t f).
Proof.
  intros s1 s2 H. tables H. unfold refreshToken_update. rewrite Hr.
  destruct (refreshTokens s2 !! _); simpl; split; auto.
Qed.

Lemma agree_refreshToken_updateMany t f :
  agree R (refreshToken_updateMany t f) (refreshToken_updateMany t f).
Proof.
  intros s1 s2 H. tables H. unfold refreshToken_updateMany. rewrite Hr.
  simpl; split; auto.
Qed.

Variable X : Externals.
Variable env : Env.

Lemma agree_generateTokens u now :
  agree R (generateTokens X env u now) (generateTokens X env u now).
Proof.
  unfold generateTokens, sign. repeat agree_step; apply agree_refreshToken_create.
Qed.

Lemma agree_refreshToken tok now :
  agree R (refreshToken X env tok now) (refreshToken X env tok now).
Proof.
  unfold refreshToken, refresh_handler, verify.
  repeat agree_step;
    first [ apply agree_refreshToken_findUnique | apply agree_user_findUnique_id
          | apply agree_generateTokens | apply agree_refreshToken_update ].
Qed.

End Agreement.

(** *** Stores that differ in the audit log *)

Lemma audit_tables s1 s2 : same_but_audit s1 s2 ->
  users s1 = users s2 /\ tenants s1 = tenants s2
  /\ refreshTokens s1 = refreshTokens s2.
Proof. intros (? & ? & ? & ?). auto. Qed.

Lemma audit_set_users s1 s2 us :
  same_but_audit s1 s2 -> same_but_audit (set_users us s1) (set_users us s2).
Proof. intros (? & ? & ? & ?). repeat split; auto. Qed.

Lemma audit_set_tenants s1 s2 ts :
  same_but_audit s1 s2 -> same_but_audit (set_tenants ts s1) (set_tenants ts s2).
Proof. intros (? & ? & ? & ?). repeat split; auto. Qed.

Lemma audit_set_refreshTokens s1 s2 m :
  same_but_audit s1 s2 ->
  same_but_audit (set_refreshTokens m s1) (set_refreshTokens m s2).
Proof. intros (? & ? & ? & ?). repeat split; auto. Qed.

Lemma same_but_audit_refl s : same_but_audit s s.
Proof. repeat split. Qed.

(** The audit write is the one place where the two runs may part: whether
    the insert succeeds or not, [log] returns and the rest of the store is
    untouched. *)
Lemma agree_log up1 up2 dto :
  agree same_but_audit (AuditService.log up1 dto) (AuditService.log up2 dto).
Proof.
  intros s1 s2 (Hu & Ht & Hr & Hx).
  unfold AuditService.log, try_catch, auditLog_create.
  destruct up1, up2; simpl; repeat split; auto.
Qed.

Lemma agree_getRedisClient : agree same_but_audit getRedisClient getRedisClient.
Proof.
  intros s1 s2 (Hu & Ht & Hr & Hx). unfold getRedisClient. simpl.
  rewrite Hx. repeat split; auto.
Qed.

Lemma agree_redis_setEx k n v now :
  agree same_but_audit (redis_setEx k n v now) (redis_setEx k n v now).
Proof.
  intros s1 s2 (Hu & Ht & Hr & Hx). unfold redis_setEx. rewrite Hx.
  destruct (redis s2) eqn:E; simpl; repeat split; auto; congruence.
Qed.

Section AuditAgreement.

Variable X : Externals.
Variable env : Env.

Ltac audit_prim :=
  first
    [ apply agree_log
    | apply agree_getRedisClient
    | apply agree_redis_setEx
    | apply agree_generateTokens
    | apply agree_user_findFirst_email
    | apply agree_user_findUnique_id
    | apply agree_tenant_findUnique_slug
    | apply agree_user_update
    | apply agree_user_create
    | apply agree_tenant_create
    | apply agree_refreshToken_updateMany ];
  auto using audit_tables, audit_set_users, audit_set_tenants,
    audit_set_refreshTokens.

Lemma agree_login dto ip now up1 up2 :
  agree same_but_audit (login X env dto ip now up1) (login X env dto ip now up2).
Proof. unfold login. repeat agree_step; audit_prim. Qed.

Lemma agree_register dto g now up1 up2 :
  agree same_but_audit (register X env dto g now up1) (register X env dto g now up2).
Proof. unfold register. repeat agree_step; audit_prim. Qed.

Lemma agree_logout tok now : agree same_but_audit (logout tok now) (logout tok now).
Proof. unfold logout. repeat agree_step; audit_prim. Qed.

Lemma agree_refreshToken_audit tok now :
  agree same_but_audit (refreshToken X env tok now) (refreshToken X env tok now).
Proof.
  apply agree_refreshToken;
    auto using audit_tables, audit_set_users, audit_set_tenants,
      audit_set_refreshTokens.
Qed.

End AuditAgreement.

(** *** Stores that differ in what Redis holds *)

Lemma redis_tables s1 s2 : same_but_redis s1 s2 ->
  users s1 = users s2 /\ tenants s1 = tenants s2
  /\ refreshTokens s1 = refreshTokens s2.
Proof. intros (? & ? & ? & ?). auto. Qed.

Lemma redis_set_users s1 s2 us :
  same_but_redis s1 s2 -> same_but_redis (set_users us s1) (set_users us s2).
Proof. intros (? & ? & ? & ?). repeat split; auto. Qed.

Lemma redis_set_tenants s1 s2 ts :
  same_but_redis s1 s2 -> same_but_redis (set_tenants ts s1) (set_tenants ts s2).
Proof. intros (? & ? & ? & ?). repeat split; auto. Qed.

Lemma redis_set_refreshTokens s1 s2 m :
  same_but_redis s1 s2 ->
  same_but_redis (set_refreshTokens m s1) (set_refreshTokens m s2).
Proof. intros (? & ? & ? & ?). repeat split; auto. Qed.

(** [refreshToken] never reads Redis. *)
Lemma agree_refreshToken_redis X env tok now :
  agree same_but_redis (refreshToken X env tok now) (refreshToken X env tok now).
Proof.
  apply agree_refreshToken;
    auto using redis_tables, redis_set_users, redis_set_tenants,
      redis_set_refreshTokens.
Qed.

(** ** What [logout] does *)

(** The store and the outcome of [logout], by what [getRedisClient] holds. *)
Lemma logout_eq tok now s :
  logout tok now s
  = (let s1 :=
       set_refreshTokens
         (alter (set_revokedAt (Some now)) tok (refreshTokens s)) s in
     match redis s with
     | Some m =>
         set_redis
           (Some (<[blacklist_key tok
                    := mkRedisEntry "1" (now + SEVEN_DAYS_SECONDS * 1000)]> m)) s1
     | None => s1
     end, Returned tt).
Proof.
  unfold logout, bind, refreshToken_updateMany, getRedisClient, redis_setEx.
  simpl. destruct (redis s) as [m|] eqn:E; simpl; [|reflexivity].
  rewrite E. reflexivity.
Qed.

Lemma logout_returns tok now s : snd (logout tok now s) = Returned tt.
Proof. now rewrite logout_eq. Qed.

Lemma logout_refreshTokens tok now s :
  refreshTokens (fst (logout tok now s))
  = alter (set_revokedAt (Some now)) tok (refreshTokens s).
Proof.
  rewrite logout_eq. simpl.
  destruct (redis s) eqn:E; simpl; rewrite ?E; auto.
Qed.

Lemma logout_redis tok now s :
  redis (fst (logout tok now s))
  = (fun m => <[blacklist_key tok := mkRedisEntry "1" (now + SEVEN_DAYS_SECONDS * 1000)]> m)
    <$> redis s.
Proof.
  rewrite logout_eq. simpl.
  destruct (redis s) eqn:E; simpl; rewrite ?E; auto.
Qed.

Lemma logout_other_tables tok now s :
  users (fst (logout tok now s)) = users s
  /\ tenants (fst (logout tok now s)) = tenants s
  /\ auditLogs (fst (logout tok now s)) = auditLogs s.
Proof.
  rewrite logout_eq. simpl.
  destruct (redis s) eqn:E; simpl; rewrite ?E; auto.
Qed.

Lemma store_eq s1 s2 :
  users s1 = users s2 -> tenants s1 = tenants s2 ->
  refreshTokens s1 = refreshTokens s2 -> auditLogs s1 = auditLogs s2 ->
  redis s1 = redis s2 -> s1 = s2.
Proof. destruct s1, s2. simpl. congruence. Qed.

(** The last [logout] wins: two calls leave what the second alone would. *)
Lemma logout_absorbs tok t1 t2 s :
  fst (logout tok t2 (fst (logout tok t1 s))) = fst (logout tok t2 s).
Proof.
  apply store_eq.
  - destruct (logout_other_tables tok t2 (fst (logout tok t1 s))) as (-> & _ & _).
    destruct (logout_other_tables tok t1 s) as (-> & _ & _).
    now destruct (logout_other_tables tok t2 s) as (-> & _ & _).
  - destruct (logout_other_tables tok t2 (fst (logout tok t1 s))) as (_ & -> & _).
    destruct (logout_other_tables tok t1 s) as (_ & -> & _).
    now destruct (logout_other_tables tok t2 s) as (_ & -> & _).
  - rewrite !logout_refreshTokens. rewrite alter_alter_eq.
    apply alter_ext. intros r _. reflexivity.
  - destruct (logout_other_tables tok t2 (fst (logout tok t1 s))) as (_ & _ & ->).
    destruct (logout_other_tables tok t1 s) as (_ & _ & ->).
    now destruct (logout_other_tables tok t2 s) as (_ & _ & ->).
  - rewrite !logout_redis. destruct (redis s) as [m|]; simpl; [|reflexivity].
    now rewrite insert_insert_eq.
Qed.


(** [logout] neither revokes another record nor restores one. *)
Lemma logout_revoked_iff tok now s k :
  revoked_in k (fst (logout tok now s))
  <-> revoked_in k s \/ (k = tok /\ is_Some (refreshTokens s !! tok)).
Proof.
  unfold revoked_in. rewrite logout_refreshTokens.
  destruct (decide (tok = k)) as [->|Hne].
  - rewrite lookup_alter_eq. destruct (refreshTokens s !! k) as [r|] eqn:Hr; simpl.
    + split; [intros _; right; split; [reflexivity | now eexists]|].
      intros _. eexists. split; [reflexivity | now eexists].
    + split; [intros (r & Hr' & _); discriminate|].
      intros [(r & Hr' & _) | (_ & [r Hr'])]; discriminate.
  - rewrite lookup_alter_ne by exact Hne. split; [now left|].
    intros [H | (-> & _)]; [exact H | congruence].
Qed.

(** ** [refreshToken], one store access at a time *)

Section SmallStep.

Variable X : Externals.
Variable env : Env.

(** Run without interruption, the four steps are the method itself. *)
Lemma rotate_steps_refreshToken tok now s :
  rotate_steps X env tok [now; now; now; now] AtStart s
  = let '(s', o) := refreshToken X env tok now s in (s', Finished o).
Proof.
  unfold rotate_steps, rotate_step, rotate_stage, refreshToken, try_catch, bind, verify.
  destruct (jwt_verify X tok _ now) as [p|k]; simpl; [|destruct k; reflexivity].
  destruct (refreshTokens s !! tok) as [r|] eqn:Hr; simpl; [|reflexivity].
  destruct (bool_decide _); simpl; [reflexivity|].
  destruct (_ <? _); simpl; [reflexivity|].
  destruct (List.find _ (users s)) as [u|] eqn:Hu; simpl; [|reflexivity].
  destruct (UserStatus.eqb (User.status u) UserStatus.ACTIVE); simpl; [|reflexivity].
  destruct (generateTokens X env u now s) as [s1 [nt|e]] eqn:Hgen; simpl.
  - unfold refreshToken_update. simpl.
    destruct (refreshTokens s1 !! tok); reflexivity.
  - destruct e as [?|k|?|?]; try destruct k; reflexivity.
Qed.

(** A finished call takes no further step. *)
Lemma rotate_steps_finished tok nows o s :
  rotate_steps X env tok nows (Finished o) s = (s, Finished o).
Proof. induction nows as [|n nows IH]; simpl; [reflexivity | exact IH]. Qed.

(** The last write does not look at the revocation state of the row. *)
Lemma rotate_last_write tok now nt s r :
  refreshTokens s !! tok = Some r ->
  rotate_step X env tok now (HaveNew nt) s
  = (set_refreshTokens
       (<[tok := rotate_updates now (AuthTokens.refreshToken nt) r]> (refreshTokens s)) s,
     Finished (Returned nt)).
Proof.
  intros Hr. unfold rotate_step, rotate_stage, bind, refreshToken_update.
  rewrite Hr. reflexivity.
Qed.

(** The first step of a call on a revoked record ends the call. *)
Lemma rotate_step_revoked tok now s :
  revoked_in tok s ->
  rotate_step X env tok now AtStart s = (s, Finished (Threw invalid_refresh_token)).
Proof.
  intros (r & Hr & Hrev). unfold rotate_step, rotate_stage, bind, verify.
  destruct (jwt_verify X tok _ now) as [p|k]; simpl; [|destruct k; reflexivity].
  rewrite Hr. rewrite bool_decide_eq_true_2 by exact Hrev. reflexivity.
Qed.

(** Events of one caller only move that caller. *)
Lemma race_callerA tok nows : forall r,
  fold_left (race_step X env tok) (List.map (fun n => (CallerA, n)) nows) r
  = let '(s', k') := rotate_steps X env tok nows (pcA r) (race_store r) in
    mkRace s' k' (pcB r).
Proof.
  induction nows as [|n nows IH]; intros r; simpl; [now destruct r|].
  rewrite IH. simpl.
  destruct (rotate_step X env tok n (pcA r) (race_store r)) as [s1 k1]. reflexivity.
Qed.

Lemma race_callerB tok nows : forall r,
  fold_left (race_step X env tok) (List.map (fun n => (CallerB, n)) nows) r
  = let '(s', k') := rotate_steps X env tok nows (pcB r) (race_store r) in
    mkRace s' (pcA r) k'.
Proof.
  induction nows as [|n nows IH]; intros r; simpl; [now destruct r|].
  rewrite IH. simpl.
  destruct (rotate_step X env tok n (pcB r) (race_store r)) as [s1 k1]. reflexivity.
Qed.

End SmallStep.

(** * The claims *)

Section Claims.

Variable X : Externals.
Variable env : Env.

(** ** Authentication *)

(** Helper for C1 and C3: whatever the secret, the lock and the status, an
    actor of a suspended or cancelled tenant gets an [UnauthorizedError]
    from [login]; when the secret is right nothing is written. *)
Lemma login_blocked_tenant dto ip now au s u :
  user_by_email (LoginDto.email dto) s = Some u ->
  tenant_blocked s u ->
  (exists e, snd (login X env dto ip now au s) = Threw (AppErr e)
             /\ errClass e = ErrorClass.Unauthorized /\ statusCode e = 401)
  /\ (bcrypt_compare X (LoginDto.password dto) (User.passwordHash u) = true ->
      fst (login X env dto ip now au s) = s
      /\ (locked u now = false -> User.status u = UserStatus.ACTIVE ->
          exists msg,
            snd (login X env dto ip now au s) = Threw (AppErr (UnauthorizedError msg))
            /\ (msg = "Tenant account is suspended" \/ msg = "Tenant account is cancelled"))).
Proof.
  intros Hu (Htid & t & Ht & Hst).
  assert (Hgate : exists msg, tenant_check (join_tenant s u) = Some (UnauthorizedError msg)
            /\ (msg = "Tenant account is suspended" \/ msg = "Tenant account is cancelled")).
  { unfold tenant_check. simpl row. rewrite Htid, Ht.
    destruct Hst as [-> | ->]; simpl; eauto. }
  destruct Hgate as (msg & Hgate & Hmsg).
  destruct (locked u now) eqn:Hl.
  { rewrite (login_locked X env dto ip now au s u Hu Hl). simpl.
    split; [eexists; repeat split; reflexivity|].
    intros _. split; [reflexivity | discriminate]. }
  destruct (bcrypt_compare X (LoginDto.password dto) (User.passwordHash u)) eqn:Hp.
  2:{ destruct (login_wrong_secret X env dto ip now au s u Hu Hl Hp) as (Ho & _).
      split; [|discriminate]. rewrite Ho. eexists; repeat split; reflexivity. }
  unfold user_by_email in Hu.
  unfold login, bind, user_findFirst_email. rewrite Hu. simpl.
  rewrite Hl, Hp. simpl.
  destruct (UserStatus.eqb (User.status u) UserStatus.ACTIVE) eqn:Hs; simpl.
  - rewrite Hgate. simpl.
    split; [eexists; repeat split; reflexivity|].
    intros _. split; [reflexivity|]. intros _ _. exists msg. now split.
  - split; [eexists; repeat split; reflexivity|].
    intros _. split; [reflexivity|]. intros _ Hact. rewrite Hact in Hs. discriminate.
Qed.

(** C4. Five consecutive authentication failures on the secret of an actor
    set [lockedUntil] to fifteen minutes after the fifth; from then until
    that instant every call for the actor, whatever the secret, is refused
    with the account-locked error and writes nothing; and in any store a
    call for an actor whose lock lies in the future is refused with that
    error and leaves the store, hence the failed counter, as it was. *)
Theorem lockout_after_five_failures e s u a1 a2 a3 a4 a5 :
  user_by_email e s = Some u ->
  0 <= User.failedLoginAttempts u ->
  Forall (eq (Threw invalid_credentials))
    (snd (attempts X env e [a1; a2; a3; a4; a5] s)) ->
  let s5 := fst (attempts X env e [a1; a2; a3; a4; a5] s) in
  (exists u5,
     user_by_email e s5 = Some u5
     /\ User.lockedUntil u5 = Some (att_now a5 + 15 * 60 * 1000)
     /\ User.failedLoginAttempts u5 = User.failedLoginAttempts u + 5)
  /\ (forall pw ip now au,
        now < att_now a5 + 15 * 60 * 1000 ->
        login X env (LoginDto.mk e pw) ip now au s5 = (s5, Threw account_locked))
  /\ (forall s' u' dto ip now au,
        user_by_email (LoginDto.email dto) s' = Some u' ->
        locked u' now = true ->
        login X env dto ip now au s' = (s', Threw account_locked)).
Proof.
  intros Hu Hc Hall s5.
  destruct (attempts_all_failed X env e [a2; a3; a4; a5] a1 s u Hu Hall)
    as (u5 & Hu5 & Hc5 & Hlock).
  fold s5 in Hu5. simpl length in Hc5. simpl List.last in Hlock.
  assert (Hl5 : User.lockedUntil u5 = Some (att_now a5 + FIFTEEN_MINUTES))
    by (apply Hlock; lia).
  split; [exists u5; repeat split; [exact Hu5 | exact Hl5 | lia]|].
  split.
  - intros pw ip now au Hnow.
    apply (login_locked X env (LoginDto.mk e pw) ip now au s5 u5 Hu5).
    unfold locked. rewrite Hl5. apply Z.ltb_lt. exact Hnow.
  - intros s' u' dto ip now au Hu' Hl'. now apply login_locked with (u := u').
Qed.

(** C7, as amended. An unknown identifier and a secret mismatch for an
    actor that is not locked at the instant of the call throw the very same
    error: class [UnauthorizedError], message "Invalid credentials",
    status 401.  When the actor is locked, the mismatch is answered with the
    account-locked error instead. *)
Theorem unknown_and_mismatch_same_error dto1 ip1 now1 au1 s1 dto2 ip2 now2 au2 s2 u :
  user_by_email (LoginDto.email dto1) s1 = None ->
  user_by_email (LoginDto.email dto2) s2 = Some u ->
  bcrypt_compare X (LoginDto.password dto2) (User.passwordHash u) = false ->
  snd (login X env dto1 ip1 now1 au1 s1) = Threw invalid_credentials
  /\ (locked u now2 = false ->
      snd (login X env dto2 ip2 now2 au2 s2) = Threw invalid_credentials
      /\ same_failure (snd (login X env dto1 ip1 now1 au1 s1))
           (snd (login X env dto2 ip2 now2 au2 s2)))
  /\ (locked u now2 = true ->
      snd (login X env dto2 ip2 now2 au2 s2) = Threw account_locked).
Proof.
  intros H1 H2 Hp.
  rewrite (login_unknown X env dto1 ip1 now1 au1 s1 H1).
  split; [reflexivity|]. split.
  - intros Hl.
    destruct (login_wrong_secret X env dto2 ip2 now2 au2 s2 u H2 Hl Hp) as (-> & _).
    split; [reflexivity|]. do 2 eexists. repeat split.
  - intros Hl. now rewrite (login_locked X env dto2 ip2 now2 au2 s2 u H2 Hl).
Qed.

(** C3, the behaviour of the code.  For an actor of a suspended or
    cancelled tenant, [login] with the right secret throws and writes
    nothing, but what it throws is an [UnauthorizedError] (status 401), the
    class of the credential errors.  When the actor is neither locked nor
    inactive the message is "Tenant account is suspended" for a SUSPENDED
    tenant and "Tenant account is cancelled" for a CANCELLED one; for the
    same tenant the check of the request middleware gives a
    [ForbiddenError] (status 403, another class) with the same message. *)
Theorem suspended_tenant_login_error dto ip now au s u :
  user_by_email (LoginDto.email dto) s = Some u ->
  tenant_blocked s u ->
  bcrypt_compare X (LoginDto.password dto) (User.passwordHash u) = true ->
  fst (login X env dto ip now au s) = s
  /\ (exists e, snd (login X env dto ip now au s) = Threw (AppErr e)
                /\ errClass e = ErrorClass.Unauthorized /\ statusCode e = 401)
  /\ (forall t,
        tenant (join_tenant s u) = Some t ->
        locked u now = false -> User.status u = UserStatus.ACTIVE ->
        (Tenant.status t = TenantStatus.SUSPENDED ->
         snd (login X env dto ip now au s)
         = Threw (AppErr (UnauthorizedError "Tenant account is suspended"))
         /\ tenant_gate (join_tenant s u)
            = Some (ForbiddenError "Tenant account is suspended"))
        /\ (Tenant.status t = TenantStatus.CANCELLED ->
            snd (login X env dto ip now au s)
            = Threw (AppErr (UnauthorizedError "Tenant account is cancelled"))
            /\ tenant_gate (join_tenant s u)
               = Some (ForbiddenError "Tenant account is cancelled")))
  /\ (forall msg,
        errClass (UnauthorizedError msg) = errClass (UnauthorizedError "Invalid credentials")
        /\ errClass (ForbiddenError msg) <> errClass (UnauthorizedError msg)
        /\ statusCode (ForbiddenError msg) = 403).
Proof.
  intros Hu Hb Hp.
  destruct (login_blocked_tenant dto ip now au s u Hu Hb) as (He & Hrest).
  destruct (Hrest Hp) as (Hs & _).
  split; [exact Hs|]. split; [exact He|]. split.
  2:{ intros msg. split; [reflexivity|]. split; [discriminate | reflexivity]. }
  intros t Ht Hl Hact. destruct Hb as (Htid & _).
  assert (Hlogin : forall e, tenant_check (join_tenant s u) = Some e ->
            snd (login X env dto ip now au s) = Threw (AppErr e)).
  { intros e Hc. unfold user_by_email in Hu.
    unfold login, bind, user_findFirst_email. rewrite Hu. simpl.
    rewrite Hl, Hp, Hact. simpl.
    change (mkUserWithTenant u
              match User.tenantId u with
              | Some tid => List.find (fun t => String.eqb (Tenant.id t) tid) (tenants s)
              | None => None
              end) with (join_tenant s u).
    now rewrite Hc. }
  split; intros Hst.
  - split.
    + apply Hlogin. unfold tenant_check. simpl row. now rewrite Htid, Ht, Hst.
    + unfold tenant_gate. simpl row. now rewrite Htid, Ht, Hst.
  - split.
    + apply Hlogin. unfold tenant_check. simpl row. now rewrite Htid, Ht, Hst.
    + unfold tenant_gate. simpl row. now rewrite Htid, Ht, Hst.
Qed.

(** ** Rotation *)

(** C2, as amended. A value whose record has never been rotated or revoked
    and has not expired, which verifies and whose owner is ACTIVE, is
    exchanged by the first call provided that a new pair can be minted: the
    library signs both values and the new refresh value is not stored yet.
    Otherwise the call throws the signing error or the duplicate-key error
    and leaves the store as it was; this is what happens when the library
    signs the presented value again, as within the second it was issued.
    Once a call presenting the value has returned, its record carries a
    revocation timestamp, and whatever calls come in between and whatever
    the instant, presenting the same value again throws [UnauthorizedError]
    "Invalid refresh token" and writes nothing. *)
Theorem rotate_one_shot tok now s :
  (forall r u t,
     exchangeable X env tok now s r u ->
     mints X env u now s t ->
     refreshToken X env tok now s = (rotated tok now r u t s, Returned t))
  /\ (forall r u,
        exchangeable X env tok now s r u ->
        (forall t, ~ mints X env u now s t) ->
        exists e,
          refreshToken X env tok now s = (s, Threw e)
          /\ (e = PlainErr "jwt.sign" \/ e = PrismaErr "P2002"))
  /\ (forall r u a,
        exchangeable X env tok now s r u ->
        jwt_sign X (payload_of u) (JWT_SECRET env)
          (or_default (JWT_EXPIRES_IN env) "15m") now = Some a ->
        jwt_sign X (payload_of u) (JWT_REFRESH_SECRET env)
          (or_default (JWT_REFRESH_EXPIRES_IN env) "7d") now = Some tok ->
        refreshToken X env tok now s = (s, Threw (PrismaErr "P2002")))
  /\ (forall s1 t,
        refreshToken X env tok now s = (s1, Returned t) ->
        forall calls now',
          let s' := run X env s1 calls in
          revoked_in tok s'
          /\ refreshToken X env tok now' s' = (s', Threw invalid_refresh_token)).
Proof.
  split; [intros r u t; apply refreshToken_succeeds|].
  split; [intros r u; apply refreshToken_unminted|].
  split; [intros r u a; apply refreshToken_same_value|].
  intros s1 t Hok calls now' s'.
  assert (Hrev : revoked_in tok s').
  { apply revoked_in_run. eapply refreshToken_returned_revokes. exact Hok. }
  split; [exact Hrev | now apply refreshToken_revoked].
Qed.

(** C10, as amended. [refreshToken] never consults the lock: its outcome
    is the same under every lock state of the user rows.  So for an ACTIVE
    actor whose [lockedUntil] lies in the future, a value that verifies and
    whose record is neither revoked nor expired is exchanged for a new pair
    exactly as it is for an actor who is not locked: it is when a new pair
    can be minted, and when none can (the library does not sign, or signs a
    value that is already stored) the call throws the signing error or the
    duplicate-key error and writes nothing. *)
Theorem rotate_ignores_lock tok now s :
  (forall l c,
     snd (refreshToken X env tok now (with_lock_state l c s))
     = snd (refreshToken X env tok now s))
  /\ (forall r u t,
        exchangeable X env tok now s r u ->
        mints X env u now s t ->
        locked u now = true ->
        refreshToken X env tok now s = (rotated tok now r u t s, Returned t)
        /\ forall l c,
             snd (refreshToken X env tok now (with_lock_state l c s)) = Returned t)
  /\ (forall r u,
        exchangeable X env tok now s r u ->
        locked u now = true ->
        (forall t, ~ mints X env u now s t) ->
        exists e,
          refreshToken X env tok now s = (s, Threw e)
          /\ (e = PlainErr "jwt.sign" \/ e = PrismaErr "P2002")).
Proof.
  assert (Hany : forall l c,
            snd (refreshToken X env tok now (with_lock_state l c s))
            = snd (refreshToken X env tok now s)).
  { intros l c. rewrite refreshToken_relock.
    now destruct (refreshToken X env tok now s). }
  split; [exact Hany|]. split.
  - intros r u t He Hm _.
    pose proof (refreshToken_succeeds X env tok now s r u t He Hm) as Hok.
    split; [exact Hok|]. intros l c. now rewrite Hany, Hok.
  - intros r u He _ Hno. now apply refreshToken_unminted with r u.
Qed.

(** C1, the behaviour of the code: [refreshToken] loads the tenant of the
    user and never looks at it, so an ACTIVE actor of a suspended or
    cancelled tenant who presents a good value is given a new pair. *)
Theorem suspended_tenant_can_refresh tok now s r u t :
  exchangeable X env tok now s r u ->
  mints X env u now s t ->
  tenant_blocked s u ->
  refreshToken X env tok now s = (rotated tok now r u t s, Returned t).
Proof. intros He Hm _. now apply refreshToken_succeeds. Qed.

(** C8, as amended. When a call that presents a value has returned before
    the next one reads the record, the next one fails on the revocation it
    finds; but the last write of a call is an unconditional update by token
    value: it succeeds on a record that is already revoked and overwrites
    [revokedAt] and [replacedBy]. *)
Theorem rotate_sequential_and_blind_write tok nowA nowB laterB s s1 t :
  refreshToken X env tok nowA s = (s1, Returned t) ->
  race X env tok
    (whole_call CallerA nowA ++ List.map (fun n => (CallerB, n)) (nowB :: laterB)) s
  = mkRace s1 (Finished (Returned t)) (Finished (Threw invalid_refresh_token))
  /\ forall s' r nt now,
       refreshTokens s' !! tok = Some r ->
       rotate_step X env tok now (HaveNew nt) s'
       = (set_refreshTokens
            (<[tok := rotate_updates now (AuthTokens.refreshToken nt) r]>
               (refreshTokens s')) s',
          Finished (Returned nt)).
Proof.
  intros Hok. split; [|intros s' r nt now Hr; now apply rotate_last_write].
  unfold race. rewrite fold_left_app.
  change (whole_call CallerA nowA)
    with (List.map (fun n => (CallerA, n)) [nowA; nowA; nowA; nowA]).
  rewrite race_callerA. cbn [pcA pcB race_store].
  rewrite rotate_steps_refreshToken, Hok.
  rewrite race_callerB. cbn [pcA pcB race_store rotate_steps].
  rewrite rotate_step_revoked
    by (eapply refreshToken_returned_revokes; exact Hok).
  now rewrite rotate_steps_finished.
Qed.

(** ** Revocation *)

(** C6, as amended. [logout] never throws. A second [logout] of the same
    value leaves what the second call alone would have left: the same
    records are revoked as after the first call and the other records are
    untouched, but the revocation timestamp of the record and the expiry of
    the denylist entry are overwritten; the store is the one the first call
    left when both calls carry the same instant, and when there is neither a
    record for the value nor a Redis client. *)
Theorem logout_twice tok t1 t2 s :
  let s1 := fst (logout tok t1 s) in
  let s2 := fst (logout tok t2 s1) in
  snd (logout tok t1 s) = Returned tt
  /\ snd (logout tok t2 s1) = Returned tt
  /\ s2 = fst (logout tok t2 s)
  /\ (forall k, revoked_in k s2 <-> revoked_in k s1)
  /\ (forall k, k <> tok -> refreshTokens s2 !! k = refreshTokens s1 !! k)
  /\ (t1 = t2 -> s2 = s1)
  /\ (refreshTokens s !! tok = None -> redis s = None -> s2 = s1).
Proof.
  intros s1 s2. subst s1 s2.
  split; [apply logout_returns|]. split; [apply logout_returns|].
  split; [apply logout_absorbs|].
  split.
  { intros k. rewrite !logout_revoked_iff.
    rewrite logout_refreshTokens, lookup_alter_eq.
    split; [|tauto].
    intros [H | (-> & Hs)]; [exact H|].
    right. split; [reflexivity|].
    destruct (refreshTokens s !! tok); [now eexists | destruct Hs; discriminate]. }
  split.
  { intros k Hk. rewrite (logout_refreshTokens tok t2).
    now rewrite lookup_alter_ne by congruence. }
  split.
  { intros <-. apply logout_absorbs. }
  intros Hnone Hredis. rewrite logout_absorbs.
  rewrite !logout_eq. simpl. rewrite Hredis.
  now rewrite !alter_id' by exact Hnone.
Qed.


(** ** Audit *)

Lemma agree_perform c up1 up2 s1 s2 :
  same_but_audit s1 s2 ->
  snd (perform X env s1 (with_audit up1 c)) = snd (perform X env s2 (with_audit up2 c))
  /\ same_but_audit (fst (perform X env s1 (with_audit up1 c)))
       (fst (perform X env s2 (with_audit up2 c))).
Proof.
  intros H. destruct c as [dto g now au | dto ip now au | t now | t now]; simpl.
  - destruct (agree_register X env dto g now up1 up2 s1 s2 H) as [Ho Hs].
    destruct (register X env dto g now up1 s1), (register X env dto g now up2 s2).
    simpl in *. now subst.
  - destruct (agree_login X env dto ip now up1 up2 s1 s2 H) as [Ho Hs].
    destruct (login X env dto ip now up1 s1), (login X env dto ip now up2 s2).
    simpl in *. now subst.
  - destruct (agree_refreshToken_audit X env t now s1 s2 H) as [Ho Hs].
    destruct (refreshToken X env t now s1), (refreshToken X env t now s2).
    simpl in *. now subst.
  - destruct (agree_logout t now s1 s2 H) as [Ho Hs].
    destruct (logout t now s1), (logout t now s2).
    simpl in *. now subst.
Qed.

(** C9. A failed audit write never aborts or undoes the call it describes:
    [AuditService.log] returns even when its insert throws, and for register,
    login, refreshToken and logout alike the reply and every table but the
    audit log are the same whether the audit write succeeds or fails. *)
Theorem audit_failure_is_harmless c s :
  snd (perform X env s (with_audit true c)) = snd (perform X env s (with_audit false c))
  /\ same_but_audit (fst (perform X env s (with_audit true c)))
       (fst (perform X env s (with_audit false c)))
  /\ forall dto s', AuditService.log false dto s' = (s', Returned tt).
Proof.
  destruct (agree_perform c true false s s (same_but_audit_refl s)) as [Ho Hs].
  repeat split; try apply Hs; exact Ho.
Qed.

End Claims.

(** * Further properties of the service *)

(** ** The validators of [register] *)

Lemma span_until_split c l a b :
  span_until c l = (a, Some b) ->
  l = (a ++ c :: b)%list /\ Forall (fun x => x <> c) a.
Proof.
  revert a b. induction l as [|x l IH]; intros a b; simpl; [discriminate|].
  destruct (Ascii.eqb x c) eqn:E.
  - intros [= <- <-]. apply Ascii.eqb_eq in E. subst. split; [reflexivity | constructor].
  - destruct (span_until c l) as [a' b'] eqn:Hs. intros [= <- ->].
    destruct (IH a' b eq_refl) as [-> Hall].
    split; [reflexivity|]. constructor; [|exact Hall].
    intros ->. now rewrite Ascii.eqb_refl in E.
Qed.

Lemma span_until_app c a b :
  Forall (fun x => x <> c) a -> span_until c (a ++ c :: b)%list = (a, Some b).
Proof.
  induction 1 as [|x a Hx _ IH]; simpl.
  - now rewrite Ascii.eqb_refl.
  - destruct (Ascii.eqb x c) eqn:E; [apply Ascii.eqb_eq in E; contradiction|].
    now rewrite IH.
Qed.

Lemma has_inner_dot_split l :
  has_inner_dot l = true ->
  exists b c, l = (b ++ "."%char :: c)%list /\ b <> [] /\ c <> [].
Proof.
  induction l as [|x l IH]; [discriminate|].
  destruct l as [|y r]; [discriminate|].
  change (has_inner_dot (x :: y :: r))
    with ((Ascii.eqb y "."%char && negb (Nat.eqb (length r) 0))
          || has_inner_dot (y :: r)).
  intros H. apply orb_true_iff in H as [H | H].
  - apply andb_true_iff in H as [Hy Hr]. apply Ascii.eqb_eq in Hy. subst y.
    exists [x], r. repeat split; [discriminate|].
    destruct r; [discriminate | discriminate].
  - destruct (IH H) as (b & c & -> & Hb & Hc).
    exists (x :: b), c. repeat split; [discriminate | exact Hc].
Qed.

Lemma has_inner_dot_app b c :
  b <> [] -> c <> [] -> has_inner_dot (b ++ "."%char :: c)%list = true.
Proof.
  intros Hb Hc. induction b as [|x b IH]; [contradiction|].
  destruct b as [|y b].
  - destruct c; [contradiction | reflexivity].
  - change (has_inner_dot ((x :: y :: b) ++ "."%char :: c)%list)
      with ((Ascii.eqb y "."%char
             && negb (Nat.eqb (length (b ++ "."%char :: c)%list) 0))
            || has_inner_dot ((y :: b) ++ "."%char :: c)%list).
    rewrite IH by discriminate. apply orb_true_r.
Qed.

(** X1. [isValidEmail] accepts exactly the strings [local@domain.tld] of the
    regular expression: three non-empty parts without white space or [@],
    the first [@] after the local part and a dot inside what follows. *)
Theorem isValidEmail_iff email :
  isValidEmail email = true
  <-> exists a b c,
        list_ascii_of_string email = (a ++ "@"%char :: b ++ "."%char :: c)%list
        /\ a <> [] /\ b <> [] /\ c <> []
        /\ forallb is_email_char a = true
        /\ forallb is_email_char b = true
        /\ forallb is_email_char c = true.
Proof.
  unfold isValidEmail. split.
  - destruct (span_until "@"%char (list_ascii_of_string email)) as [loc [dom|]] eqn:Hs;
      [|discriminate].
    intros H. repeat (apply andb_true_iff in H as [H ?]).
    destruct (span_until_split _ _ _ _ Hs) as [Hl _].
    destruct (has_inner_dot_split dom) as (b & c & -> & Hb & Hc); [assumption|].
    exists loc, b, c. split; [exact Hl|].
    split; [destruct loc; [discriminate H | discriminate]|].
    split; [exact Hb|]. split; [exact Hc|]. split; [assumption|].
    match goal with
    | Hd : forallb is_email_char (b ++ _)%list = true |- _ =>
        rewrite forallb_app in Hd; apply andb_true_iff in Hd as [Hd1 Hd2];
        split; [exact Hd1 | exact Hd2]
    end.
  - intros (a & b & c & Hl & Ha & Hb & Hc & Fa & Fb & Fc). rewrite Hl.
    rewrite span_until_app.
    + rewrite has_inner_dot_app by assumption.
      rewrite Fa, forallb_app, Fb. simpl. rewrite Fc.
      destruct a; [contradiction | reflexivity].
    + rewrite forallb_forall in Fa. apply List.Forall_forall. intros x Hx ->.
      specialize (Fa _ Hx). discriminate.
Qed.

(** *** [createSlug] *)

Lemma alnum_not_dash c : is_lower c || is_digit c = true -> c <> dash.
Proof. intros H ->. discriminate H. Qed.

Lemma dash_runs_alphabet l : forall prev,
  forallb is_slug_char (dash_runs prev l) = true.
Proof.
  induction l as [|c l IH]; intros prev; simpl; [reflexivity|].
  destruct (is_lower c || is_digit c) eqn:E; simpl.
  - unfold is_slug_char at 1. rewrite E. simpl. apply IH.
  - destruct prev; simpl; [apply IH|]. apply IH.
Qed.

Lemma dash_runs_no_double l : forall prev,
  (forall a b, dash_runs prev l <> (a ++ dash :: dash :: b)%list)
  /\ (prev = true -> forall t, dash_runs prev l <> dash :: t).
Proof.
  induction l as [|c l IH]; intros prev; simpl.
  { split; [intros [|? ?] b; discriminate | intros _ t; discriminate]. }
  destruct (is_lower c || is_digit c) eqn:E.
  - pose proof (alnum_not_dash c E) as Hc. destruct (IH false) as [IH1 _]. split.
    + intros [|x a] b; simpl; intros [= H1 H2]; [contradiction|].
      now apply (IH1 a b).
    + intros _ t [= H1 _]. contradiction.
  - destruct prev.
    + apply IH.
    + destruct (IH true) as [IH1 IH2]. split; [|discriminate].
      intros [|x a] b Hab; simpl in Hab; injection Hab; intros.
      * now apply (IH2 eq_refl b).
      * now apply (IH1 a b).
Qed.

Lemma drop_dashes_suffix l :
  (exists p, l = (p ++ drop_dashes l)%list) /\ (forall t, drop_dashes l <> dash :: t).
Proof.
  induction l as [|c l [[p Hp] Hh]]; simpl.
  { split; [now exists [] | discriminate]. }
  destruct (Ascii.eqb c "-"%char) eqn:E.
  - split; [|exact Hh]. exists (c :: p). simpl. now rewrite <- Hp.
  - split; [now exists []|]. intros t [= -> _]. discriminate E.
Qed.

(** What [trim_dashes] returns sits inside its argument and has a dash at
    neither end. *)
Lemma trim_dashes_infix l :
  (exists p q, l = (p ++ trim_dashes l ++ q)%list)
  /\ (forall t, trim_dashes l <> dash :: t)
  /\ (forall a, trim_dashes l <> (a ++ [dash])%list).
Proof.
  unfold trim_dashes.
  destruct (drop_dashes_suffix l) as [[p Hp] Hh].
  destruct (drop_dashes_suffix (rev (drop_dashes l))) as [[q Hq] Hh'].
  set (m := drop_dashes l) in *. set (d := drop_dashes (rev m)) in *.
  assert (Hm : m = (rev d ++ rev q)%list).
  { rewrite <- (rev_involutive m), Hq, rev_app_distr. reflexivity. }
  split; [exists p, (rev q); now rewrite <- Hm|]. split.
  - intros t Ht. rewrite Ht in Hm. simpl in Hm. now apply (Hh (t ++ rev q)%list).
  - intros a Ha. apply (Hh' (rev a)).
    rewrite <- (rev_involutive d), Ha, rev_app_distr. reflexivity.
Qed.

(** X2. The slug is at most fifty characters of [[a-z0-9-]]; it never starts
    with a dash and never has two dashes in a row; it ends with a dash only
    when the cut at fifty characters falls right after one. *)
Theorem createSlug_shape name :
  let r := list_ascii_of_string (createSlug name) in
  (length r <= 50)%nat
  /\ forallb is_slug_char r = true
  /\ (forall t, r <> dash :: t)
  /\ (forall a b, r <> (a ++ dash :: dash :: b)%list)
  /\ ((length r < 50)%nat -> forall a, r <> (a ++ [dash])%list).
Proof.
  unfold createSlug. rewrite list_ascii_of_string_of_list_ascii.
  set (runs := dash_runs false (List.map to_lower (list_ascii_of_string name))).
  destruct (trim_dashes_infix runs) as ((p & q & Hpq) & Hhead & Hlast).
  set (t := trim_dashes runs) in *.
  assert (Hcut : t = (firstn 50 t ++ skipn 50 t)%list)
    by (symmetry; apply firstn_skipn).
  cbv zeta. split; [apply firstn_le_length|]. split.
  { pose proof (dash_runs_alphabet (List.map to_lower (list_ascii_of_string name)) false)
      as Hall.
    fold runs in Hall. rewrite Hpq, Hcut in Hall.
    rewrite !forallb_app in Hall.
    apply andb_true_iff in Hall as [_ Hall].
    apply andb_true_iff in Hall as [Hall _].
    apply andb_true_iff in Hall as [Hall _]. exact Hall. }
  split.
  { intros u Hu. rewrite Hu in Hcut. simpl in Hcut. now apply (Hhead (u ++ skipn 50 t)%list). }
  split.
  { intros a b Hab.
    destruct (dash_runs_no_double (List.map to_lower (list_ascii_of_string name)) false)
      as [Hno _].
    fold runs in Hno. apply (Hno (p ++ a)%list (b ++ skipn 50 t ++ q)%list).
    rewrite Hpq. rewrite Hcut at 1. rewrite Hab, <- !app_assoc. reflexivity. }
  intros Hlt a Ha.
  assert (Hall : firstn 50 t = t).
  { apply firstn_all2. rewrite length_firstn in Hlt. lia. }
  rewrite Hall in Ha. now apply (Hlast a).
Qed.

(** ** [login] and [register], case by case *)

Lemma log_eq up dto s : AuditService.log up dto s = (audited up dto s, Returned tt).
Proof.
  unfold AuditService.log, try_catch, auditLog_create, audited.
  destruct up; reflexivity.
Qed.

Section MoreFacts.

Variable X : Externals.
Variable env : Env.

Lemma mints_same_tokens u now s s' t :
  refreshTokens s' = refreshTokens s -> mints X env u now s t -> mints X env u now s' t.
Proof. unfold mints. intros ->. auto. Qed.

Lemma generateTokens_issued u now s t :
  mints X env u now s t ->
  generateTokens X env u now s = (issued u now t s, Returned t).
Proof. apply generateTokens_mints. Qed.

(** [generateTokens] stores one new record or nothing at all. *)
Lemma generateTokens_cases u now s :
  (exists e, generateTokens X env u now s = (s, Threw e))
  \/ (exists t, mints X env u now s t
                /\ generateTokens X env u now s = (issued u now t s, Returned t)).
Proof.
  unfold generateTokens, bind, sign, mints.
  destruct (jwt_sign X (payload_of u) (JWT_SECRET env) _ now) as [a|] eqn:Ha;
    [|left; eexists; reflexivity].
  simpl.
  destruct (jwt_sign X (payload_of u) (JWT_REFRESH_SECRET env) _ now) as [r|] eqn:Hr;
    [|left; eexists; reflexivity].
  simpl. unfold refreshToken_create. simpl.
  destruct (refreshTokens s !! r) eqn:Hs; [left; eexists; reflexivity|].
  right. exists (AuthTokens.mk a r). simpl. repeat split; assumption.
Qed.

(** X3. [generateTokens] stores one record or nothing.  When it throws (the
    library cannot sign, or the value is already stored) the store is as it
    was.  When it returns, both values are the library's signatures of the
    payload of the user, the refresh value was not stored before, and the one
    row added is keyed by it, owned by the user, unrevoked, and expires seven
    days after the call whatever lifetime [JWT_REFRESH_EXPIRES_IN] gives the
    value itself. *)
Theorem generateTokens_all_or_nothing u now s :
  let s' := fst (generateTokens X env u now s) in
  let o := snd (generateTokens X env u now s) in
  (forall e, o = Threw e ->
     s' = s /\ (e = PlainErr "jwt.sign" \/ e = PrismaErr "P2002"))
  /\ (forall t, o = Returned t ->
        mints X env u now s t
        /\ refreshTokens s'
           = <[AuthTokens.refreshToken t
               := RefreshToken.mk (User.id u) (AuthTokens.refreshToken t)
                    (now + 7 * 24 * 60 * 60 * 1000) None None]> (refreshTokens s)
        /\ users s' = users s /\ tenants s' = tenants s
        /\ auditLogs s' = auditLogs s /\ redis s' = redis s).
Proof.
  intros s' o. subst s' o.
  unfold generateTokens, bind, sign, mints.
  destruct (jwt_sign X (payload_of u) (JWT_SECRET env) _ now) as [a|] eqn:Ha.
  2:{ simpl. split; [intros e [= <-]; auto | discriminate]. }
  simpl.
  destruct (jwt_sign X (payload_of u) (JWT_REFRESH_SECRET env) _ now) as [r|] eqn:Hr.
  2:{ simpl. split; [intros e [= <-]; auto | discriminate]. }
  simpl. unfold refreshToken_create. simpl.
  destruct (refreshTokens s !! r) eqn:Hs; simpl.
  { split; [intros e [= <-]; auto | discriminate]. }
  split; [discriminate|]. intros t [= <-]. simpl.
  split; [split; [reflexivity | split; [reflexivity | exact Hs]]|].
  split; [reflexivity|]. auto.
Qed.

(** The secret is wrong: what [login] leaves and throws. *)
Lemma login_wrong_secret_eq dto ip now au s u :
  user_by_email (LoginDto.email dto) s = Some u ->
  locked u now = false ->
  bcrypt_compare X (LoginDto.password dto) (User.passwordHash u) = false ->
  login X env dto ip now au s
  = (audited au (login_failed_row u ip)
       (set_users
          (update_where_id (User.id u)
             (failed_login_updates (User.failedLoginAttempts u + 1) now) (users s)) s),
     Threw invalid_credentials).
Proof.
  unfold user_by_email. intros Hf Hl Hp.
  unfold login, bind, user_findFirst_email. rewrite Hf. simpl.
  rewrite Hl, Hp. simpl. unfold user_update.
  rewrite (found_has_id _ _ _ Hf). rewrite log_eq. reflexivity.
Qed.

(** The secret is right but the account is not ACTIVE. *)
Lemma login_inactive dto ip now au s u :
  user_by_email (LoginDto.email dto) s = Some u ->
  locked u now = false ->
  bcrypt_compare X (LoginDto.password dto) (User.passwordHash u) = true ->
  User.status u <> UserStatus.ACTIVE ->
  login X env dto ip now au s
  = (s, Threw (AppErr (UnauthorizedError "Account is not active"))).
Proof.
  unfold user_by_email. intros Hf Hl Hp Hs.
  unfold login, bind, user_findFirst_email. rewrite Hf. simpl.
  rewrite Hl, Hp. simpl.
  destruct (User.status u); try reflexivity. contradiction.
Qed.

(** The secret is right, the account ACTIVE, the tenant check refuses. *)
Lemma login_tenant_refused dto ip now au s u e :
  user_by_email (LoginDto.email dto) s = Some u ->
  locked u now = false ->
  bcrypt_compare X (LoginDto.password dto) (User.passwordHash u) = true ->
  User.status u = UserStatus.ACTIVE ->
  tenant_check (join_tenant s u) = Some e ->
  login X env dto ip now au s = (s, Threw (AppErr e)).
Proof.
  unfold user_by_email. intros Hf Hl Hp Hs Ht.
  unfold login, bind, user_findFirst_email. rewrite Hf. simpl.
  rewrite Hl, Hp, Hs. simpl. rewrite Ht. reflexivity.
Qed.

(** Every guard passes: the row is reset, then the pair is minted or the
    minting throws. *)
Lemma login_admitted dto ip now au s u :
  admissible X dto now s u ->
  let s1 := set_users
              (update_where_id (User.id u) (successful_login_updates now ip) (users s)) s in
  login X env dto ip now au s
  = match generateTokens X env u now s1 with
    | (s2, Returned t) =>
        (audited au (login_row u ip) s2, Returned (omitPasswordHash (join_tenant s u), t))
    | (s2, Threw e) => (s2, Threw e)
    end.
Proof.
  intros (Hf & Hl & Hp & Hs & Ht) s1. unfold user_by_email in Hf.
  unfold login, bind, user_findFirst_email.
  rewrite Hf. simpl. rewrite Hl, Hp, Hs. simpl. rewrite Ht.
  unfold user_update. rewrite (found_has_id _ _ _ Hf). simpl. fold s1.
  destruct (generateTokens X env u now s1) as [s2 [t|e]]; [|reflexivity].
  rewrite log_eq. reflexivity.
Qed.

End MoreFacts.

Section LoginCases.

Variable X : Externals.
Variable env : Env.

(** Every call of [login] goes one of the seven ways. *)
Lemma login_case_of dto ip now au s :
  login_case X env dto ip now au s (login X env dto ip now au s).
Proof.
  destruct (user_by_email (LoginDto.email dto) s) as [u|] eqn:Hf.
  2:{ rewrite (login_unknown X env dto ip now au s Hf). now constructor. }
  destruct (locked u now) eqn:Hl.
  { rewrite (login_locked X env dto ip now au s u Hf Hl). now apply Login_locked with u. }
  destruct (bcrypt_compare X (LoginDto.password dto) (User.passwordHash u)) eqn:Hp.
  2:{ rewrite (login_wrong_secret_eq X env dto ip now au s u Hf Hl Hp).
      now apply Login_mismatch. }
  destruct (UserStatus.eqb (User.status u) UserStatus.ACTIVE) eqn:Hs.
  2:{ assert (Hne : User.status u <> UserStatus.ACTIVE)
        by (intros E; rewrite E in Hs; discriminate).
      rewrite (login_inactive X env dto ip now au s u Hf Hl Hp Hne).
      now apply Login_inactive with u. }
  assert (Hact : User.status u = UserStatus.ACTIVE)
    by (destruct (User.status u); try discriminate; reflexivity).
  destruct (tenant_check (join_tenant s u)) as [e|] eqn:Ht.
  { rewrite (login_tenant_refused X env dto ip now au s u e Hf Hl Hp Hact Ht).
    now apply Login_tenant with u. }
  assert (Hadm : admissible X dto now s u) by (repeat split; assumption).
  rewrite (login_admitted X env dto ip now au s u Hadm). fold (logged u now ip s).
  destruct (generateTokens_cases X env u now (logged u now ip s)) as [[e He] | (t & Hm & Ht')].
  - rewrite He. now apply Login_unminted.
  - rewrite Ht'. apply Login_returned; [exact Hadm|].
    now apply mints_same_tokens with (logged u now ip s).
Qed.

End LoginCases.

Lemma failed_login_updates_id n now u :
  User.id (failed_login_updates n now u) = User.id u.
Proof. unfold failed_login_updates. now destruct (5 <=? n). Qed.

Lemma user_by_id_update j i f s :
  (forall u, User.id (f u) = User.id u) ->
  i <> j ->
  user_by_id j (set_users (update_where_id i f (users s)) s) = user_by_id j s.
Proof.
  intros Hid Hne. unfold user_by_id. simpl.
  rewrite find_update_where_id by (intros u; now rewrite Hid).
  destruct (List.find _ (users s)) as [v|] eqn:Hv; [|reflexivity]. simpl.
  apply find_some in Hv as [_ Hv]. apply String.eqb_eq in Hv.
  destruct (String.eqb (User.id v) i) eqn:E; [|reflexivity].
  apply String.eqb_eq in E. congruence.
Qed.

Lemma user_by_email_update e i f s u :
  (forall v, User.email (f v) = User.email v) ->
  user_by_email e s = Some u -> i = User.id u ->
  user_by_email e (set_users (update_where_id i f (users s)) s) = Some (f u).
Proof.
  intros Hem Hu ->. unfold user_by_email in *. simpl.
  rewrite find_update_where_id by (intros v; now rewrite Hem).
  rewrite Hu. simpl. now rewrite String.eqb_refl.
Qed.

Section LoginProperties.

Variable X : Externals.
Variable env : Env.

Lemma login_returns dto ip now au s u t :
  admissible X dto now s u ->
  mints X env u now s t ->
  login X env dto ip now au s
  = (audited au (login_row u ip) (issued u now t (logged u now ip s)),
     Returned (omitPasswordHash (join_tenant s u), t)).
Proof.
  intros Hadm Hm. rewrite (login_admitted X env dto ip now au s u Hadm).
  fold (logged u now ip s).
  now rewrite (generateTokens_issued X env u now (logged u now ip s) t)
    by (now apply mints_same_tokens with s).
Qed.

(** X4. When every guard passes and the pair can be minted, [login] returns the
    pair and the user as read before the reset (the counter and the lock in
    the answer are the old ones); the row is left with a zero counter, no
    lock and the instant of the call; the record of the refresh value is
    stored, unrevoked, owned by the user and expiring seven days later. *)
Theorem login_success dto ip now au s u t :
  admissible X dto now s u ->
  mints X env u now s t ->
  let s' := fst (login X env dto ip now au s) in
  snd (login X env dto ip now au s)
  = Returned (omitPasswordHash (join_tenant s u), t)
  /\ (exists u',
        user_by_email (LoginDto.email dto) s' = Some u'
        /\ User.failedLoginAttempts u' = 0
        /\ User.lockedUntil u' = None
        /\ User.lastLoginAt u' = Some now
        /\ User.id u' = User.id u)
  /\ refreshTokens s'
     = <[AuthTokens.refreshToken t
         := RefreshToken.mk (User.id u) (AuthTokens.refreshToken t)
              (now + 7 * 24 * 60 * 60 * 1000) None None]> (refreshTokens s)
  /\ UserWithoutPassword.failedLoginAttempts
       (omitPasswordHash (join_tenant s u)) = User.failedLoginAttempts u
  /\ UserWithoutPassword.lockedUntil
       (omitPasswordHash (join_tenant s u)) = User.lockedUntil u.
Proof.
  intros Hadm Hm s'. subst s'.
  rewrite (login_admitted X env dto ip now au s u Hadm).
  fold (logged u now ip s).
  rewrite (generateTokens_issued X env u now (logged u now ip s) t)
    by (now apply mints_same_tokens with s).
  destruct Hadm as (Hf & _).
  split; [reflexivity|]. split.
  - exists (successful_login_updates now ip u).
    assert (Hrow : user_by_email (LoginDto.email dto) (logged u now ip s)
                   = Some (successful_login_updates now ip u))
      by (apply user_by_email_update; auto).
    unfold user_by_email in *. destruct au; simpl in *; rewrite Hrow; auto.
  - split; [destruct au; reflexivity|]. split; reflexivity.
Qed.

(** X5. A lock that has run out does not clear the counter: with five failures
    on record, the next mismatch after the lock has elapsed locks the
    account again at once, for fifteen minutes from that call. *)
Theorem relock_after_elapsed_lock dto ip now au s u l :
  user_by_email (LoginDto.email dto) s = Some u ->
  User.lockedUntil u = Some l ->
  l <= now ->
  5 <= User.failedLoginAttempts u ->
  bcrypt_compare X (LoginDto.password dto) (User.passwordHash u) = false ->
  let s' := fst (login X env dto ip now au s) in
  snd (login X env dto ip now au s) = Threw invalid_credentials
  /\ exists u',
       user_by_email (LoginDto.email dto) s' = Some u'
       /\ User.lockedUntil u' = Some (now + 15 * 60 * 1000)
       /\ User.failedLoginAttempts u' = User.failedLoginAttempts u + 1
       /\ forall pw ip' now' au',
            now' < now + 15 * 60 * 1000 ->
            login X env (LoginDto.mk (LoginDto.email dto) pw) ip' now' au' s'
            = (s', Threw account_locked).
Proof.
  intros Hf Hlock Hle Hc Hp s'. subst s'.
  assert (Hl : locked u now = false).
  { unfold locked. rewrite Hlock. apply Z.ltb_ge. exact Hle. }
  destruct (login_wrong_secret X env dto ip now au s u Hf Hl Hp) as (Ho & _).
  split; [exact Ho|].
  pose proof (login_wrong_secret_row X env dto ip now au s u Hf Hl Hp) as Hrow.
  eexists. split; [exact Hrow|].
  rewrite failed_login_updates_lock, failed_login_updates_counter.
  assert (E : (5 <=? User.failedLoginAttempts u + 1) = true) by (apply Z.leb_le; lia).
  rewrite E. split; [reflexivity|]. split; [reflexivity|].
  intros pw ip' now' au' Hnow.
  apply (login_locked X env (LoginDto.mk (LoginDto.email dto) pw) ip' now' au' _ _ Hrow).
  unfold locked. rewrite failed_login_updates_lock, E. apply Z.ltb_lt. exact Hnow.
Qed.

(** X6. A caller who does not present the right secret learns nothing about
    the status of the account or of its tenant: whatever the store, the
    answer is "Invalid credentials" or the account-locked error. *)
Theorem login_without_secret dto ip now au s :
  (forall u, user_by_email (LoginDto.email dto) s = Some u ->
             bcrypt_compare X (LoginDto.password dto) (User.passwordHash u) = false) ->
  snd (login X env dto ip now au s) = Threw invalid_credentials
  \/ snd (login X env dto ip now au s) = Threw account_locked.
Proof.
  intros Hwrong.
  destruct (login_case_of X env dto ip now au s)
    as [ | | | u Hu _ Hp | u e Hu _ Hp | u e (Hu & _ & Hp & _) | u t (Hu & _ & Hp & _)];
    simpl; auto;
    rewrite (Hwrong u Hu) in Hp; discriminate.
Qed.

(** X7. [login] writes the row of the user it found and nothing else of the
    tables of rows: tenants and Redis are left alone, no stored refresh
    record changes, the rows keep their keys and identifiers, and a row
    with another key than the one found is returned as it was. *)
Theorem login_frame dto ip now au s :
  let s' := fst (login X env dto ip now au s) in
  tenants s' = tenants s
  /\ redis s' = redis s
  /\ (forall k r, refreshTokens s !! k = Some r -> refreshTokens s' !! k = Some r)
  /\ (user_by_email (LoginDto.email dto) s = None -> s' = s)
  /\ (forall u j, user_by_email (LoginDto.email dto) s = Some u ->
                  User.id u <> j -> user_by_id j s' = user_by_id j s).
Proof.
  intros s'. subst s'.
  assert (Hlogged : forall u j, User.id u <> j ->
            user_by_id j (logged u now ip s) = user_by_id j s).
  { intros u j Hne. now apply user_by_id_update. }
  assert (Hmis : forall u j, User.id u <> j ->
            user_by_id j (mismatched u now s) = user_by_id j s).
  { intros u j Hne. apply user_by_id_update; [|exact Hne].
    intros v. apply failed_login_updates_id. }
  destruct (login_case_of X env dto ip now au s)
    as [Hn | u Hu _ | u Hu _ _ | u Hu _ _ _ | u e Hu _ _ _ _
        | u e (Hu & _) _ | u t (Hu & _) (_ & _ & Hfresh)]; simpl.
  all: repeat split; auto; try congruence.
  all: try (intros v j Hv Hne; assert (v = u) by congruence; subst v).
  - destruct au; reflexivity.
  - destruct au; reflexivity.
  - destruct au; simpl; auto.
  - unfold user_by_id in *. destruct au; simpl in *; now apply Hmis.
  - now apply Hlogged.
  - destruct au; reflexivity.
  - destruct au; reflexivity.
  - intros k r Hk. assert (AuthTokens.refreshToken t <> k) by congruence.
    destruct au; simpl; now rewrite lookup_insert_ne.
  - unfold user_by_id in *. destruct au; simpl in *; now apply Hlogged.
Qed.

(** X8. What [login] leaves in the audit log: a LOGIN row when it returns, a
    LOGIN_FAILED row when the secret of an existing, unlocked user does not
    match, and nothing in every other case: an unknown identifier, a locked
    or inactive account, a refused tenant leave no trace. *)
Theorem login_audit_trail dto ip now au s :
  let s' := fst (login X env dto ip now au s) in
  let o := snd (login X env dto ip now au s) in
  (forall r, o = Returned r ->
     exists u, user_by_email (LoginDto.email dto) s = Some u
               /\ auditLogs s' = auditLogs (audited au (login_row u ip) s))
  /\ (forall u, user_by_email (LoginDto.email dto) s = Some u ->
        o = Threw invalid_credentials ->
        auditLogs s' = auditLogs (audited au (login_failed_row u ip) s))
  /\ (user_by_email (LoginDto.email dto) s = None -> auditLogs s' = auditLogs s)
  /\ (forall e, o = Threw e -> e <> invalid_credentials -> auditLogs s' = auditLogs s).
Proof.
  intros s' o. subst s' o.
  destruct (login_case_of X env dto ip now au s)
    as [Hn | u Hu Hl | u Hu Hl Hp | u Hu Hl Hp Hs | u e Hu Hl Hp Hs Ht
        | u e (Hu & Hl & Hp & Hs & Ht) Hg | u t (Hu & Hl & Hp & Hs & Ht) Hm]; simpl.
  - repeat split; try discriminate; auto; congruence.
  - repeat split; try discriminate; auto; try congruence.
  - repeat split; try discriminate; try congruence.
    intros v Hv _. assert (v = u) by congruence. subst v.
    destruct au; reflexivity.
  - repeat split; try discriminate; auto; try congruence.
  - repeat split; try discriminate; auto; try congruence.
    intros v Hv [= He]. exfalso.
    destruct (tenant_check_error _ _ Ht) as [-> | ->]; discriminate.
  - repeat split; try discriminate; auto; try congruence.
    intros v Hv [= He]. exfalso. subst e.
    unfold generateTokens, bind, sign in Hg.
    destruct (jwt_sign X _ (JWT_SECRET env) _ now); [|discriminate].
    simpl in Hg.
    destruct (jwt_sign X _ (JWT_REFRESH_SECRET env) _ now); [|discriminate].
    simpl in Hg. unfold refreshToken_create in Hg. simpl in Hg.
    destruct (refreshTokens s !! _); discriminate.
  - repeat split; try discriminate; try congruence.
    intros r _. exists u. split; [exact Hu|]. destruct au; reflexivity.
Qed.

End LoginProperties.

(** ** [register] *)

Lemma find_app_fresh {A} (p : A -> bool) l x :
  existsb p l = false -> p x = true -> List.find p (l ++ [x]) = Some x.
Proof.
  induction l as [|y l IH]; simpl; intros Hl Hx; [now rewrite Hx|].
  apply orb_false_iff in Hl as [Hy Hl]. rewrite Hy. now apply IH.
Qed.

Lemma find_none_existsb {A} (p : A -> bool) l :
  List.find p l = None -> existsb p l = false.
Proof.
  induction l as [|y l IH]; simpl; [reflexivity|].
  destruct (p y); [discriminate | exact IH].
Qed.

Lemma existsb_orb_false {A} (p q : A -> bool) l :
  existsb p l = false -> existsb q l = false ->
  existsb (fun x => p x || q x) l = false.
Proof.
  induction l as [|y l IH]; simpl; [reflexivity|].
  intros Hp Hq. apply orb_false_iff in Hp as [-> Hp].
  apply orb_false_iff in Hq as [-> Hq]. simpl. now apply IH.
Qed.

Section RegisterProperties.

Variable X : Externals.
Variable env : Env.

(** Past the checks, [register] inserts the two rows, then mints. *)
Lemma register_enrolled dto g now au s :
  registrable dto g s ->
  register X env dto g now au s
  = match generateTokens X env (new_user X dto g) now (enrolled X dto g now s) with
    | (s2, Returned t) =>
        (audited au (register_row (new_tenant dto g now) (new_user X dto g)) s2,
         Returned
           (omitPasswordHash
              (mkUserWithTenant (new_user X dto g) (Some (new_tenant dto g now))), t))
    | (s2, Threw e) => (s2, Threw e)
    end.
Proof.
  intros (Hv & Hp & Hu & Hsl & Htid & Huid).
  unfold register. rewrite Hv, Hp. simpl.
  unfold bind at 1. unfold user_findFirst_email. unfold user_by_email in Hu.
  rewrite Hu. simpl.
  unfold bind at 1. unfold tenant_findUnique_slug. rewrite Hsl. simpl.
  unfold bind at 1. unfold transaction, bind, tenant_create, user_create. simpl.
  rewrite (existsb_orb_false _ _ _ Htid (find_none_existsb _ _ Hsl)).
  simpl. rewrite Huid. simpl.
  assert (Hj : join_tenant
                 (set_users (users s ++ [new_user X dto g])
                    (set_tenants (tenants s ++ [new_tenant dto g now]) s))
                 (new_user X dto g)
               = mkUserWithTenant (new_user X dto g) (Some (new_tenant dto g now))).
  { unfold join_tenant. simpl. f_equal.
    apply find_app_fresh; [exact Htid | apply String.eqb_refl]. }
  unfold enrolled, new_user, new_tenant, register_row in *.
  match goal with
  | |- context [generateTokens X env ?u now ?st] =>
      destruct (generateTokens X env u now st) as [s2 [t|e]]; [|reflexivity]
  end.
  rewrite log_eq. unfold ret. rewrite Hj. reflexivity.
Qed.

(** Every call of [register] goes one of the seven ways. *)
Lemma register_case_of dto g now au s :
  register_case X env dto g now au s (register X env dto g now au s).
Proof.
  destruct (isValidEmail (RegisterUserDto.email dto)) eqn:Hv.
  2:{ unfold register. rewrite Hv. now constructor. }
  destruct (isStrongPassword (RegisterUserDto.password dto)) eqn:Hp.
  2:{ unfold register. rewrite Hv, Hp. now constructor. }
  destruct (user_by_email (RegisterUserDto.email dto) s) as [u|] eqn:Hu.
  { unfold register. rewrite Hv, Hp. simpl. unfold bind, user_findFirst_email.
    unfold user_by_email in Hu. rewrite Hu. simpl. now apply Register_email_taken with u. }
  destruct (List.find (fun t => String.eqb (Tenant.slug t)
                                  (createSlug (RegisterUserDto.tenantName dto)))
              (tenants s)) as [t|] eqn:Hsl.
  { unfold register. rewrite Hv, Hp. simpl. unfold bind at 1, user_findFirst_email.
    unfold user_by_email in Hu. rewrite Hu. simpl.
    unfold bind at 1, tenant_findUnique_slug. rewrite Hsl. simpl.
    now apply Register_name_taken with t. }
  destruct (existsb (fun t => String.eqb (Tenant.id t) (gen_tenantId g)) (tenants s))
    eqn:Htid.
  { assert (Hno : ~ registrable dto g s)
      by (intros (_ & _ & _ & _ & H & _); congruence).
    unfold register. rewrite Hv, Hp. simpl. unfold bind at 1, user_findFirst_email.
    pose proof Hu as Hu'. unfold user_by_email in Hu'. rewrite Hu'. simpl.
    unfold bind at 1, tenant_findUnique_slug. rewrite Hsl. simpl.
    unfold bind at 1, transaction, bind, tenant_create. simpl.
    replace (existsb _ (tenants s)) with true.
    - now apply Register_key_clash.
    - symmetry. apply existsb_exists. apply existsb_exists in Htid as (x & Hin & Hx).
      exists x. split; [exact Hin|]. now rewrite Hx. }
  destruct (existsb (fun u => String.eqb (User.id u) (gen_userId g)) (users s))
    eqn:Huid.
  { assert (Hno : ~ registrable dto g s)
      by (intros (_ & _ & _ & _ & _ & H); congruence).
    unfold register. rewrite Hv, Hp. simpl. unfold bind at 1, user_findFirst_email.
    pose proof Hu as Hu'. unfold user_by_email in Hu'. rewrite Hu'. simpl.
    unfold bind at 1, tenant_findUnique_slug. rewrite Hsl. simpl.
    unfold bind at 1, transaction, bind, tenant_create, user_create. simpl.
    rewrite (existsb_orb_false _ _ _ Htid (find_none_existsb _ _ Hsl)). simpl.
    rewrite Huid. simpl. now apply Register_key_clash. }
  assert (Hreg : registrable dto g s) by (repeat split; assumption).
  rewrite (register_enrolled dto g now au s Hreg).
  destruct (generateTokens_cases X env (new_user X dto g) now (enrolled X dto g now s))
    as [[e He] | (t & Hm & Ht)].
  - rewrite He. now apply Register_unminted.
  - rewrite Ht. apply Register_returned; [exact Hreg|].
    now apply mints_same_tokens with (enrolled X dto g now s).
Qed.

(** What [generateTokens] throws is never an application error. *)
Lemma generateTokens_throws u now s s' e :
  generateTokens X env u now s = (s', Threw e) ->
  e = PlainErr "jwt.sign" \/ e = PrismaErr "P2002".
Proof.
  unfold generateTokens, bind, sign.
  destruct (jwt_sign X _ (JWT_SECRET env) _ now); [|intros [= _ <-]; now left].
  simpl.
  destruct (jwt_sign X _ (JWT_REFRESH_SECRET env) _ now); [|intros [= _ <-]; now left].
  simpl. unfold refreshToken_create. simpl.
  destruct (refreshTokens s !! _); [intros [= _ <-]; now right | discriminate].
Qed.

Lemma enrolled_finds dto g now s :
  user_by_email (RegisterUserDto.email dto) s = None ->
  user_by_email (RegisterUserDto.email dto) (enrolled X dto g now s)
  = Some (new_user X dto g).
Proof.
  intros Hu. unfold user_by_email in *. simpl.
  apply find_app_fresh; [now apply find_none_existsb | apply String.eqb_refl].
Qed.

(** X9. A registration that passes the checks, with keys the tables do not
    hold and a pair that can be minted, returns the pair and the new user
    with its tenant; it has inserted the tenant (plan and status TRIAL,
    trial of fourteen days, limits 5 / 1000 / 1 GiB), the user (TENANT_ADMIN,
    ACTIVE, e-mail not verified, counter 0, no lock) and the record of the
    refresh value. *)
Theorem register_success dto g now au s t :
  registrable dto g s ->
  mints X env (new_user X dto g) now s t ->
  let s' := fst (register X env dto g now au s) in
  snd (register X env dto g now au s)
  = Returned
      (omitPasswordHash
         (mkUserWithTenant (new_user X dto g) (Some (new_tenant dto g now))), t)
  /\ users s' = (users s ++ [new_user X dto g])%list
  /\ tenants s' = (tenants s ++ [new_tenant dto g now])%list
  /\ refreshTokens s'
     = <[AuthTokens.refreshToken t := issued_row (new_user X dto g) now t]>
         (refreshTokens s)
  /\ user_by_email (RegisterUserDto.email dto) s' = Some (new_user X dto g)
  /\ auditLogs s'
     = auditLogs (audited au (register_row (new_tenant dto g now) (new_user X dto g)) s).
Proof.
  intros Hreg Hm s'. subst s'.
  rewrite (register_enrolled dto g now au s Hreg).
  rewrite (generateTokens_issued X env _ now (enrolled X dto g now s) t)
    by (now apply mints_same_tokens with s).
  destruct Hreg as (_ & _ & Hu & _).
  pose proof (enrolled_finds dto g now s Hu) as Hfind.
  unfold user_by_email in *.
  destruct au; simpl in *; repeat split; auto.
Qed.

(** X10. [register] inserts the tenant row and the user row together or not at
    all, and when it answers with a validation or conflict error the store
    is exactly as it was. *)
Theorem register_rows_together dto g now au s :
  let s' := fst (register X env dto g now au s) in
  (s' = s
   \/ (registrable dto g s
       /\ users s' = (users s ++ [new_user X dto g])%list
       /\ tenants s' = (tenants s ++ [new_tenant dto g now])%list))
  /\ (forall e, snd (register X env dto g now au s) = Threw (AppErr e) -> s' = s).
Proof.
  intros s'. subst s'.
  destruct (register_case_of dto g now au s)
    as [ | | | | | e Hreg Hg | t Hreg Hm]; simpl;
    try (split; [now left | intros; reflexivity]).
  - split; [right; split; [exact Hreg | split; reflexivity]|].
    intros a [= ->]. destruct (generateTokens_throws _ _ _ _ _ Hg); discriminate.
  - split; [|discriminate]. right.
    split; [exact Hreg | destruct au; split; reflexivity].
Qed.

(** X11. The pair is minted after the transaction has committed: when minting
    fails, [register] throws but the tenant and the user stay inserted, and
    the same registration tried again is refused with "Email already
    registered" and writes nothing. *)
Theorem register_unminted_leaves_rows dto g now au s :
  registrable dto g s ->
  (forall t, ~ mints X env (new_user X dto g) now s t) ->
  (exists e, register X env dto g now au s = (enrolled X dto g now s, Threw e)
             /\ (e = PlainErr "jwt.sign" \/ e = PrismaErr "P2002"))
  /\ forall g' now' au',
       register X env dto g' now' au' (enrolled X dto g now s)
       = (enrolled X dto g now s, Threw email_taken).
Proof.
  intros Hreg Hno. split.
  - rewrite (register_enrolled dto g now au s Hreg).
    destruct (generateTokens_cases X env (new_user X dto g) now (enrolled X dto g now s))
      as [[e He] | (t & Hm & _)].
    + rewrite He. exists e. split; [reflexivity|]. eapply generateTokens_throws. exact He.
    + exfalso. apply (Hno t). now apply mints_same_tokens with (enrolled X dto g now s).
  - intros g' now' au'. destruct Hreg as (Hv & Hp & Hu & _).
    pose proof (enrolled_finds dto g now s Hu) as Hfind.
    unfold register. rewrite Hv, Hp. simpl. unfold bind, user_findFirst_email.
    unfold user_by_email in Hfind. rewrite Hfind. reflexivity.
Qed.

Lemma registered_store dto g now au s t :
  registrable dto g s ->
  mints X env (new_user X dto g) now s t ->
  fst (register X env dto g now au s)
  = audited au (register_row (new_tenant dto g now) (new_user X dto g))
      (issued (new_user X dto g) now t (enrolled X dto g now s)).
Proof.
  intros Hreg Hm. rewrite (register_enrolled dto g now au s Hreg).
  rewrite (generateTokens_issued X env _ now (enrolled X dto g now s) t)
    by (now apply mints_same_tokens with s).
  reflexivity.
Qed.

Lemma registered_join dto g now au s t :
  registrable dto g s ->
  mints X env (new_user X dto g) now s t ->
  join_tenant (fst (register X env dto g now au s)) (new_user X dto g)
  = mkUserWithTenant (new_user X dto g) (Some (new_tenant dto g now)).
Proof.
  intros Hreg Hm. rewrite (registered_store dto g now au s t Hreg Hm).
  destruct Hreg as (_ & _ & _ & _ & Htid & _).
  unfold join_tenant. f_equal.
  assert (Hf : List.find (fun t0 => String.eqb (Tenant.id t0) (gen_tenantId g))
                 (tenants s ++ [new_tenant dto g now]) = Some (new_tenant dto g now))
    by (apply find_app_fresh; [exact Htid | apply String.eqb_refl]).
  destruct au; simpl; exact Hf.
Qed.

Lemma registered_facts dto g now au s t :
  registrable dto g s ->
  mints X env (new_user X dto g) now s t ->
  tenants (fst (register X env dto g now au s))
  = (tenants s ++ [new_tenant dto g now])%list
  /\ user_by_email (RegisterUserDto.email dto) (fst (register X env dto g now au s))
     = Some (new_user X dto g).
Proof.
  intros Hreg Hm. rewrite (registered_store dto g now au s t Hreg Hm).
  destruct Hreg as (_ & _ & Hu & _).
  pose proof (enrolled_finds dto g now s Hu) as Hfind.
  unfold user_by_email in *. destruct au; simpl in *; split; auto.
Qed.

(** X12. After a registration, the same identifier is refused with "Email
    already registered", and another identifier with a tenant name that
    yields the same slug (same letters and digits, whatever the case and
    the punctuation) with "Tenant name already taken"; neither call
    writes. *)
Theorem register_conflicts dto g now au s t dto2 g2 now2 au2 :
  registrable dto g s ->
  mints X env (new_user X dto g) now s t ->
  isValidEmail (RegisterUserDto.email dto2) = true ->
  isStrongPassword (RegisterUserDto.password dto2) = true ->
  let s' := fst (register X env dto g now au s) in
  (RegisterUserDto.email dto2 = RegisterUserDto.email dto ->
   register X env dto2 g2 now2 au2 s' = (s', Threw email_taken))
  /\ (user_by_email (RegisterUserDto.email dto2) s' = None ->
      createSlug (RegisterUserDto.tenantName dto2)
      = createSlug (RegisterUserDto.tenantName dto) ->
      register X env dto2 g2 now2 au2 s' = (s', Threw name_taken)).
Proof.
  intros Hreg Hm Hv Hp s'.
  destruct (registered_facts dto g now au s t Hreg Hm) as (Hten & Hfind).
  fold s' in Hten, Hfind. split.
  - intros He. unfold register. rewrite Hv, Hp. simpl.
    unfold bind, user_findFirst_email. rewrite He.
    unfold user_by_email in Hfind. rewrite Hfind. reflexivity.
  - intros Hnone Hslug. unfold register. rewrite Hv, Hp. simpl.
    unfold bind at 1, user_findFirst_email.
    unfold user_by_email in Hnone. rewrite Hnone. simpl.
    unfold bind at 1, tenant_findUnique_slug. rewrite Hten, Hslug.
    destruct Hreg as (_ & _ & _ & Hsl & _).
    rewrite (find_app_fresh _ (tenants s) (new_tenant dto g now)
               (find_none_existsb _ _ Hsl) (String.eqb_refl _)).
    reflexivity.
Qed.

(** X13. Registration and login fit: with a hash that [bcrypt.compare] accepts
    for the password it was made from, the user just registered logs in
    with the same identifier and password, and gets the new tenant back
    with the pair. *)
Theorem register_then_login dto g now au s t ip now2 au2 t2 :
  registrable dto g s ->
  mints X env (new_user X dto g) now s t ->
  bcrypt_compare X (RegisterUserDto.password dto)
    (bcrypt_hash X (RegisterUserDto.password dto) 12 (gen_salt g)) = true ->
  let s' := fst (register X env dto g now au s) in
  let credentials :=
    LoginDto.mk (RegisterUserDto.email dto) (RegisterUserDto.password dto) in
  mints X env (new_user X dto g) now2 s' t2 ->
  snd (login X env credentials ip now2 au2 s')
  = Returned
      (omitPasswordHash
         (mkUserWithTenant (new_user X dto g) (Some (new_tenant dto g now))), t2).
Proof.
  intros Hreg Hm Hb s' credentials Hm2.
  destruct (registered_facts dto g now au s t Hreg Hm) as (_ & Hfind).
  pose proof (registered_join dto g now au s t Hreg Hm) as Hjoin.
  fold s' in Hfind, Hjoin.
  assert (Hadm : admissible X credentials now2 s' (new_user X dto g)).
  { repeat split; try assumption; try reflexivity.
    rewrite Hjoin. unfold tenant_check. simpl.
    destruct (negb _); reflexivity. }
  rewrite (login_returns X env credentials ip now2 au2 s' _ t2 Hadm Hm2).
  simpl. rewrite Hjoin. reflexivity.
Qed.

End RegisterProperties.

(** ** [refreshToken], all or nothing *)

Section RefreshProperties.

Variable X : Externals.
Variable env : Env.

Lemma refreshToken_outcomes tok now s :
  let s' := fst (refreshToken X env tok now s) in
  let o := snd (refreshToken X env tok now s) in
  (forall e, o = Threw e ->
     s' = s
     /\ (e = invalid_refresh_token \/ e = token_expired \/ e = user_gone
         \/ e = PlainErr "jwt.sign" \/ e = PrismaErr "P2002"))
  /\ (forall t, o = Returned t ->
        exists r u,
          exchangeable X env tok now s r u
          /\ mints X env u now s t
          /\ s' = rotated tok now r u t s).
Proof.
  intros s' o. subst s' o.
  unfold refreshToken, try_catch, bind, verify.
  destruct (jwt_verify X tok (JWT_REFRESH_SECRET env) now) as [p|k] eqn:Hv; simpl.
  2:{ destruct k; simpl; (split; [intros e [= <-]; auto | discriminate]). }
  destruct (refreshTokens s !! tok) as [r|] eqn:Hr; simpl.
  2:{ split; [intros e [= <-]; auto | discriminate]. }
  destruct (RefreshToken.revokedAt r) as [rv|] eqn:Hrev; simpl.
  { split; [intros e [= <-]; auto | discriminate]. }
  destruct (RefreshToken.expiresAt r <? now) eqn:Hexp; simpl.
  { split; [intros e [= <-]; auto | discriminate]. }
  unfold user_findUnique_id. simpl.
  destruct (List.find _ (users s)) as [u|] eqn:Hu; simpl.
  2:{ split; [intros e [= <-]; auto 6 | discriminate]. }
  destruct (UserStatus.eqb (User.status u) UserStatus.ACTIVE) eqn:Hs; simpl.
  2:{ split; [intros e [= <-]; auto 6 | discriminate]. }
  destruct (generateTokens_cases X env u now s) as [[e He] | (t & Hm & Ht)].
  - rewrite He. simpl.
    destruct (generateTokens_throws X env _ _ _ _ _ He) as [-> | ->]; simpl;
      (split; [intros e' [= <-]; auto 8 | discriminate]).
  - rewrite Ht. simpl. unfold refreshToken_update. simpl.
    assert (Hne : AuthTokens.refreshToken t <> tok)
      by (destruct Hm as (_ & _ & Hfresh); congruence).
    rewrite lookup_insert_ne by exact Hne. rewrite Hr. simpl.
    split; [discriminate|]. intros t' [= <-]. exists r, u.
    split; [|split; [exact Hm | reflexivity]].
    repeat split; auto.
    + exists p. split; [exact Hv | exact Hu].
    + apply Z.ltb_ge in Hexp. lia.
    + destruct (User.status u); try discriminate; reflexivity.
Qed.

(** X14. [refreshToken] either throws and leaves the store exactly as it was, or
    returns a pair: then every guard has passed and the store has gained the
    record of the new value and the revocation of the old one, with the new
    value as its successor, and nothing else. What it throws is one of its
    three [UnauthorizedError]s, the error of the signing library or the
    rejection of a duplicate value. *)
Theorem refreshToken_all_or_nothing tok now s :
  let s' := fst (refreshToken X env tok now s) in
  let o := snd (refreshToken X env tok now s) in
  (forall e, o = Threw e ->
     s' = s
     /\ (e = invalid_refresh_token \/ e = token_expired \/ e = user_gone
         \/ e = PlainErr "jwt.sign" \/ e = PrismaErr "P2002"))
  /\ (forall t, o = Returned t ->
        exists r u,
          exchangeable X env tok now s r u
          /\ mints X env u now s t
          /\ s' = rotated tok now r u t s).
Proof. exact (refreshToken_outcomes tok now s). Qed.

End RefreshProperties.

(** ** Invariants over sequences of calls *)

Lemma NoDup_id_unique (l : list User.t) u v :
  NoDup (List.map User.id l) -> In u l -> In v l -> User.id v = User.id u -> v = u.
Proof.
  induction l as [|x l IH]; intros Hnd Hu Hv Hid; [destruct Hu|].
  simpl in Hnd. apply NoDup_cons in Hnd as [Hx Hl].
  assert (Hnot : forall w, In w l -> User.id w <> User.id x).
  { intros w Hw E. apply Hx. rewrite <- E. apply list_elem_of_In.
    now apply in_map. }
  destruct Hu as [-> | Hu], Hv as [-> | Hv]; auto.
  - exfalso. now apply (Hnot v Hv).
  - exfalso. apply (Hnot u Hu). congruence.
Qed.

Lemma update_where_id_ids i f l :
  (forall v, User.id (f v) = User.id v) ->
  List.map User.id (update_where_id i f l) = List.map User.id l.
Proof.
  intros Hid. unfold update_where_id. rewrite List.map_map.
  apply List.map_ext. intros v. destruct (String.eqb (User.id v) i); auto.
Qed.

Lemma users_sane_same s s' : users s' = users s -> users_sane s -> users_sane s'.
Proof. unfold users_sane. now intros ->. Qed.

Lemma users_sane_update s u f :
  users_sane s -> In u (users s) ->
  (forall v, User.id (f v) = User.id v) -> row_sane (f u) ->
  users_sane (set_users (update_where_id (User.id u) f (users s)) s).
Proof.
  intros [Hnd Hall] Hu Hid Hf. split; simpl.
  - now rewrite update_where_id_ids.
  - unfold update_where_id. apply List.Forall_forall. intros w Hw.
    apply in_map_iff in Hw as (v & <- & Hv).
    destruct (String.eqb (User.id v) (User.id u)) eqn:E.
    + apply String.eqb_eq in E.
      now rewrite (NoDup_id_unique _ u v Hnd Hu Hv E).
    + rewrite List.Forall_forall in Hall. now apply Hall.
Qed.

Lemma users_sane_enrolled X dto g now s :
  users_sane s -> registrable dto g s -> users_sane (enrolled X dto g now s).
Proof.
  intros [Hnd Hall] (_ & _ & _ & _ & _ & Huid). split; simpl.
  - rewrite List.map_app. simpl. apply NoDup_app. split; [exact Hnd|].
    split; [|apply NoDup_singleton].
    intros i Hi Hg. apply list_elem_of_singleton in Hg. subst i.
    apply list_elem_of_In, in_map_iff in Hi as (v & Hv & Hin).
    assert (existsb (fun u => String.eqb (User.id u) (gen_userId g)) (users s) = true).
    { apply existsb_exists. exists v. split; [exact Hin|]. now apply String.eqb_eq. }
    congruence.
  - apply List.Forall_app. split; [exact Hall|]. constructor; [|constructor].
    split; simpl; [lia|]. intros [? ?]. discriminate.
Qed.

Lemma records_kept_refl s : records_kept s s.
Proof. intros k r Hr. exists r. auto. Qed.

Lemma records_kept_trans s1 s2 s3 :
  records_kept s1 s2 -> records_kept s2 s3 -> records_kept s1 s3.
Proof.
  intros H12 H23 k r Hr.
  destruct (H12 k r Hr) as (r2 & Hr2 & Hu2 & He2 & Hv2).
  destruct (H23 k r2 Hr2) as (r3 & Hr3 & Hu3 & He3 & Hv3).
  exists r3. repeat split; [exact Hr3 | congruence | congruence | auto].
Qed.

Lemma records_kept_same s s' :
  refreshTokens s' = refreshTokens s -> records_kept s s'.
Proof. intros E k r Hr. exists r. rewrite E. auto. Qed.

Lemma records_kept_issued u now t s :
  refreshTokens s !! AuthTokens.refreshToken t = None ->
  records_kept s (issued u now t s).
Proof.
  intros Hfresh k r Hr. exists r. simpl.
  rewrite lookup_insert_ne by congruence. auto.
Qed.

Lemma records_kept_rotated tok now r u t s :
  refreshTokens s !! tok = Some r ->
  refreshTokens s !! AuthTokens.refreshToken t = None ->
  records_kept s (rotated tok now r u t s).
Proof.
  intros Hr Hfresh k r0 Hr0. simpl.
  destruct (decide (tok = k)) as [<-|Hne].
  - rewrite lookup_insert_eq. eexists. split; [reflexivity|].
    assert (r0 = r) by congruence. subst r0. repeat split. intros _. now eexists.
  - rewrite lookup_insert_ne by exact Hne.
    rewrite lookup_insert_ne by congruence. exists r0. auto.
Qed.

Lemma records_kept_logout tok now s : records_kept s (fst (logout tok now s)).
Proof.
  intros k r Hr. rewrite logout_refreshTokens.
  destruct (decide (tok = k)) as [<-|Hne].
  - rewrite lookup_alter_eq, Hr. simpl. eexists. split; [reflexivity|].
    repeat split. intros _. now eexists.
  - rewrite lookup_alter_ne by exact Hne. exists r. auto.
Qed.

Lemma records_linked_same s s' :
  refreshTokens s' = refreshTokens s -> records_linked s -> records_linked s'.
Proof. unfold records_linked. now intros ->. Qed.

Lemma records_linked_issued u now t s :
  refreshTokens s !! AuthTokens.refreshToken t = None ->
  records_linked s -> records_linked (issued u now t s).
Proof.
  intros Hfresh Hl k r k' Hr Hrep. simpl in *.
  destruct (decide (AuthTokens.refreshToken t = k)) as [<-|Hne].
  - rewrite lookup_insert_eq in Hr. injection Hr as <-. discriminate Hrep.
  - rewrite lookup_insert_ne in Hr by exact Hne.
    destruct (Hl k r k' Hr Hrep) as (Hv & Hk & [r' Hr']).
    repeat split; auto.
    destruct (decide (AuthTokens.refreshToken t = k')) as [<-|Hne'];
      [congruence|].
    rewrite lookup_insert_ne by exact Hne'. now exists r'.
Qed.

Lemma records_linked_rotated tok now r u t s :
  refreshTokens s !! tok = Some r ->
  refreshTokens s !! AuthTokens.refreshToken t = None ->
  records_linked s -> records_linked (rotated tok now r u t s).
Proof.
  intros Hr Hfresh Hl k r0 k' Hr0 Hrep. simpl in *.
  assert (Hnt : AuthTokens.refreshToken t <> tok) by congruence.
  assert (Hstored : forall j, is_Some (refreshTokens s !! j) ->
            is_Some ((<[tok := rotate_updates now (AuthTokens.refreshToken t) r]>
                        (<[AuthTokens.refreshToken t := issued_row u now t]>
                           (refreshTokens s))) !! j)).
  { intros j Hj. destruct (decide (tok = j)) as [<-|?];
      [rewrite lookup_insert_eq; now eexists|].
    rewrite lookup_insert_ne by assumption.
    destruct (decide (AuthTokens.refreshToken t = j)) as [<-|?];
      [rewrite lookup_insert_eq; now eexists|].
    now rewrite lookup_insert_ne by assumption. }
  destruct (decide (tok = k)) as [<-|Hne].
  - rewrite lookup_insert_eq in Hr0. injection Hr0 as <-. simpl in Hrep.
    injection Hrep as <-. split; [now eexists|]. split; [exact Hnt|].
    rewrite lookup_insert_ne by congruence. rewrite lookup_insert_eq. now eexists.
  - rewrite lookup_insert_ne in Hr0 by exact Hne.
    destruct (decide (AuthTokens.refreshToken t = k)) as [<-|Hne'].
    + rewrite lookup_insert_eq in Hr0. injection Hr0 as <-. discriminate Hrep.
    + rewrite lookup_insert_ne in Hr0 by exact Hne'.
      destruct (Hl k r0 k' Hr0 Hrep) as (Hv & Hk & Hs).
      repeat split; auto.
Qed.

Lemma records_linked_logout tok now s :
  records_linked s -> records_linked (fst (logout tok now s)).
Proof.
  intros Hl k r k' Hr Hrep. rewrite logout_refreshTokens in *.
  assert (Hstored : forall j, is_Some (refreshTokens s !! j) ->
            is_Some (alter (set_revokedAt (Some now)) tok (refreshTokens s) !! j)).
  { intros j [x Hx]. destruct (decide (tok = j)) as [<-|?].
    - rewrite lookup_alter_eq, Hx. now eexists.
    - rewrite lookup_alter_ne by assumption. now exists x. }
  destruct (decide (tok = k)) as [<-|Hne].
  - rewrite lookup_alter_eq in Hr.
    destruct (refreshTokens s !! tok) as [r0|] eqn:Hr0; [|discriminate].
    injection Hr as <-. simpl in Hrep.
    destruct (Hl tok r0 k' Hr0 Hrep) as (_ & Hk & Hs).
    split; [now eexists|]. split; [exact Hk | now apply Hstored].
  - rewrite lookup_alter_ne in Hr by exact Hne.
    destruct (Hl k r k' Hr Hrep) as (Hv & Hk & Hs).
    repeat split; auto.
Qed.

Section Invariants.

Variable X : Externals.
Variable env : Env.

Lemma user_by_email_In e s u : user_by_email e s = Some u -> In u (users s).
Proof. intros H. now apply find_some in H. Qed.

Lemma users_sane_audited au r s : users_sane s -> users_sane (audited au r s).
Proof. unfold audited. now destruct au. Qed.

Lemma users_sane_mismatched u now s :
  users_sane s -> In u (users s) -> users_sane (mismatched u now s).
Proof.
  intros Hs Hu. apply users_sane_update; auto.
  - intros v. unfold failed_login_updates.
    now destruct (5 <=? User.failedLoginAttempts u + 1).
  - destruct Hs as [_ Hall]. rewrite List.Forall_forall in Hall.
    destruct (Hall u Hu) as [H0 Hl]. unfold failed_login_updates, row_sane.
    destruct (5 <=? User.failedLoginAttempts u + 1) eqn:E; simpl.
    + split; [lia|]. intros _. lia.
    + split; [lia|]. intros Hk. specialize (Hl Hk). lia.
Qed.

Lemma users_sane_logged u now ip s :
  users_sane s -> In u (users s) -> users_sane (logged u now ip s).
Proof.
  intros Hs Hu. apply users_sane_update; auto.
  split; simpl; [lia|]. intros [? ?]. discriminate.
Qed.

Lemma exec_users_sane s c : users_sane s -> users_sane (exec X env s c).
Proof.
  intros Hs. destruct c as [dto g now au | dto ip now au | tok now | tok now]; simpl.
  - destruct (register_case_of X env dto g now au s); simpl; auto.
    + now apply users_sane_enrolled.
    + apply users_sane_audited.
      eapply users_sane_same; [|apply users_sane_enrolled; eauto]. reflexivity.
  - destruct (login_case_of X env dto ip now au s); simpl; auto.
    + apply users_sane_audited, users_sane_mismatched; auto.
      eapply user_by_email_In; eauto.
    + apply users_sane_logged; auto. destruct H as [H _].
      eapply user_by_email_In; eauto.
    + apply users_sane_audited.
      eapply users_sane_same; [|apply (users_sane_logged u now ip s); auto].
      * reflexivity.
      * destruct H as [H _]. eapply user_by_email_In; eauto.
  - pose proof (refreshToken_outcomes X env tok now s) as [Ht Hr].
    destruct (refreshToken X env tok now s) as [s' [t|e]]; simpl in *.
    + destruct (Hr t eq_refl) as (r & u & _ & _ & ->).
      eapply users_sane_same; [|exact Hs]. reflexivity.
    + now destruct (Ht e eq_refl) as [-> _].
  - destruct (logout_other_tables tok now s) as (Hu & _).
    eapply users_sane_same; [|exact Hs]. exact Hu.
Qed.

Lemma records_kept_audited au r s : records_kept s (audited au r s).
Proof. apply records_kept_same. unfold audited. now destruct au. Qed.

Lemma exec_records_kept s c : records_kept s (exec X env s c).
Proof.
  destruct c as [dto g now au | dto ip now au | tok now | tok now]; simpl.
  - destruct (register_case_of X env dto g now au s); simpl;
      try apply records_kept_refl.
    + now apply records_kept_same.
    + eapply records_kept_trans; [|apply records_kept_audited].
      eapply records_kept_trans;
        [|apply records_kept_issued; destruct H0 as (_ & _ & Hf); exact Hf].
      now apply records_kept_same.
  - destruct (login_case_of X env dto ip now au s); simpl;
      try apply records_kept_refl.
    + eapply records_kept_trans; [|apply records_kept_audited].
      now apply records_kept_same.
    + now apply records_kept_same.
    + eapply records_kept_trans; [|apply records_kept_audited].
      eapply records_kept_trans;
        [|apply records_kept_issued; destruct H0 as (_ & _ & Hf); exact Hf].
      now apply records_kept_same.
  - pose proof (refreshToken_outcomes X env tok now s) as [Ht Hr].
    destruct (refreshToken X env tok now s) as [s' [t|e]]; simpl in *.
    + destruct (Hr t eq_refl) as (r & u & (_ & Hs & _) & (_ & _ & Hf) & ->).
      now apply records_kept_rotated.
    + destruct (Ht e eq_refl) as [-> _]. apply records_kept_refl.
  - apply records_kept_logout.
Qed.

Lemma records_linked_audited au r s : records_linked s -> records_linked (audited au r s).
Proof. apply records_linked_same. unfold audited. now destruct au. Qed.

Lemma exec_records_linked s c : records_linked s -> records_linked (exec X env s c).
Proof.
  intros Hs. destruct c as [dto g now au | dto ip now au | tok now | tok now]; simpl.
  - destruct (register_case_of X env dto g now au s) as [| | | | | |t Hreg Hm];
      simpl; auto.
    apply records_linked_audited, records_linked_issued.
    + destruct Hm as (_ & _ & Hf); exact Hf.
    + exact Hs.
  - destruct (login_case_of X env dto ip now au s) as [| | | | | |u t Hadm Hm];
      simpl; auto.
    + now apply records_linked_audited.
    + apply records_linked_audited, records_linked_issued.
      * destruct Hm as (_ & _ & Hf); exact Hf.
      * exact Hs.
  - pose proof (refreshToken_outcomes X env tok now s) as [Ht Hr].
    destruct (refreshToken X env tok now s) as [s' [t|e]]; simpl in *.
    + destruct (Hr t eq_refl) as (r & u & (_ & Hk & _) & (_ & _ & Hf) & ->).
      now apply records_linked_rotated.
    + now destruct (Ht e eq_refl) as [-> _].
  - now apply records_linked_logout.
Qed.

(** X15. Every call of the service keeps the user table sane: identifiers stay
    pairwise distinct, no counter of failures is negative and a row that
    carries a lock carries at least five failures.  So it holds in every
    store a sequence of calls reaches from a sane one. *)
Theorem users_stay_sane calls s :
  users_sane s -> users_sane (run X env s calls).
Proof.
  revert s. induction calls as [|c calls IH]; intros s Hs; [exact Hs|].
  simpl. apply IH. now apply exec_users_sane.
Qed.

(** X16. No call of the service deletes a refresh-token record, changes the user
    or the expiry of one, or clears a revocation: whatever the calls, every
    record stored before them is stored after them for the same user with the
    same expiry, and revoked if it was. *)
Theorem records_are_kept calls s : records_kept s (run X env s calls).
Proof.
  revert s. induction calls as [|c calls IH]; intros s; [apply records_kept_refl|].
  simpl. eapply records_kept_trans; [apply exec_records_kept | apply IH].
Qed.

(** X17. The chain of successors stays well formed under every sequence of calls:
    a record that names a successor is revoked, the successor is another
    value, and the successor's record is stored. *)
Theorem records_stay_linked calls s :
  records_linked s -> records_linked (run X env s calls).
Proof.
  revert s. induction calls as [|c calls IH]; intros s Hs; [exact Hs|].
  simpl. apply IH. now apply exec_records_linked.
Qed.

Lemma same_identity_refl u : same_identity u u.
Proof. unfold same_identity. tauto. Qed.

Lemma same_identity_trans u v w :
  same_identity u v -> same_identity v w -> same_identity u w.
Proof. unfold same_identity. intuition congruence. Qed.

Lemma Forall2_same_identity_refl l : Forall2 same_identity l l.
Proof. induction l; constructor; auto using same_identity_refl. Qed.

Lemma Forall2_same_identity_map g l :
  (forall u, same_identity u (g u)) -> Forall2 same_identity l (List.map g l).
Proof. intros Hg. induction l; simpl; constructor; auto. Qed.

Lemma Forall2_same_identity_trans l1 l2 l3 :
  Forall2 same_identity l1 l2 -> Forall2 same_identity l2 l3 ->
  Forall2 same_identity l1 l3.
Proof.
  intros H12. revert l3. induction H12; intros l3 H23; inversion H23; subst;
    constructor; eauto using same_identity_trans.
Qed.

Lemma grown_refl s : grown s s.
Proof.
  exists (users s), [], [], []. rewrite !app_nil_r.
  repeat split; auto using Forall2_same_identity_refl.
Qed.

Lemma grown_trans s1 s2 s3 : grown s1 s2 -> grown s2 s3 -> grown s1 s3.
Proof.
  intros (a & b & ts & al & Hu & Hf & Hb & Ht & Hts & Ha)
         (a' & b' & ts' & al' & Hu' & Hf' & Hb' & Ht' & Hts' & Ha').
  rewrite Hu in Hf'. apply Forall2_app_inv_l in Hf' as (x & y & Hx & Hy & ->).
  exists x, (y ++ b')%list, (ts ++ ts')%list, (al ++ al')%list.
  split; [now rewrite Hu', <- app_assoc|].
  split; [now apply Forall2_same_identity_trans with a|].
  split.
  { apply List.Forall_app. split; [|exact Hb'].
    clear - Hb Hy. induction Hy as [|u v b y Huv Hy IH]; [constructor|].
    inversion Hb as [|? ? [Hr Hs] Hb']; subst. constructor; [|now apply IH].
    destruct Huv as (_ & _ & _ & _ & _ & _ & Hrole & Hst & _). split; congruence. }
  split; [now rewrite Ht', Ht, <- app_assoc|].
  split; [now apply List.Forall_app|].
  now rewrite Ha', Ha, <- app_assoc.
Qed.

Lemma grown_audited au r s : grown s (audited au r s).
Proof.
  unfold audited. destruct au; [|apply grown_refl].
  exists (users s), [], [], [r]. simpl. rewrite !app_nil_r.
  repeat split; auto using Forall2_same_identity_refl.
Qed.

Lemma grown_same s s' :
  users s' = users s -> tenants s' = tenants s -> auditLogs s' = auditLogs s ->
  grown s s'.
Proof.
  intros Hu Ht Ha. exists (users s), [], [], []. rewrite !app_nil_r.
  repeat split; auto using Forall2_same_identity_refl.
Qed.

Lemma grown_update i f s :
  (forall u, same_identity u (f u)) ->
  grown s (set_users (update_where_id i f (users s)) s).
Proof.
  intros Hf.
  exists (update_where_id i f (users s)), [], [], []. simpl. rewrite !app_nil_r.
  repeat split; auto.
  apply Forall2_same_identity_map. intros u.
  destruct (String.eqb (User.id u) i); auto using same_identity_refl.
Qed.

Lemma grown_enrolled dto g now s : grown s (enrolled X dto g now s).
Proof.
  exists (users s), [new_user X dto g], [new_tenant dto g now], []. simpl.
  rewrite app_nil_r.
  repeat split; auto using Forall2_same_identity_refl.
Qed.

Lemma exec_grown s c : grown s (exec X env s c).
Proof.
  destruct c as [dto g now au | dto ip now au | tok now | tok now]; simpl.
  - destruct (register_case_of X env dto g now au s); simpl;
      try apply grown_refl.
    + apply grown_enrolled.
    + eapply grown_trans; [|apply grown_audited].
      eapply grown_trans; [apply grown_enrolled|]. now apply grown_same.
  - destruct (login_case_of X env dto ip now au s); simpl;
      try apply grown_refl.
    + eapply grown_trans; [|apply grown_audited].
      apply grown_update. intros v. unfold failed_login_updates, same_identity.
      now destruct (5 <=? User.failedLoginAttempts u + 1).
    + apply grown_update. intros v. unfold same_identity. simpl. tauto.
    + eapply grown_trans; [|apply grown_audited].
      eapply grown_trans; [|apply grown_same; reflexivity].
      apply grown_update. intros v. unfold same_identity. simpl. tauto.
  - pose proof (refreshToken_outcomes X env tok now s) as [Ht Hr].
    destruct (refreshToken X env tok now s) as [s' [t|e]]; simpl in *.
    + destruct (Hr t eq_refl) as (r & u & _ & _ & ->). now apply grown_same.
    + destruct (Ht e eq_refl) as [-> _]. apply grown_refl.
  - destruct (logout_other_tables tok now s) as (Hu & Ht & Ha).
    now apply grown_same.
Qed.

(** X18. The service only adds rows: after any sequence of calls every user is
    still there, in place, with the identifier, tenant, e-mail address,
    hash, names, role, status and verification flag it had (only the
    counter, the lock and the last login change); every tenant is there
    unchanged; the audit log has only been appended to.  The users added are
    TENANT_ADMIN and ACTIVE, the tenants added are TRIAL: no call creates a
    SUPER_ADMIN or changes a role or a status. *)
Theorem tables_only_grow calls s : grown s (run X env s calls).
Proof.
  revert s. induction calls as [|c calls IH]; intros s; [apply grown_refl|].
  simpl. eapply grown_trans; [apply exec_grown | apply IH].
Qed.

End Invariants.

(** * The HTTP layer *)

Lemma substring_all s : String.substring 0 (String.length s) s = s.
Proof. induction s as [|c s IH]; simpl; [reflexivity | now rewrite IH]. Qed.

Lemma bearer_token tok : substring_from 7 ("Bearer " +:+ tok) = tok.
Proof.
  unfold substring_from. cbv [String.append]. fold String.append.
  simpl. rewrite ?Nat.sub_0_r. apply substring_all.
Qed.

Lemma bearer_startsWith tok : startsWith ("Bearer " +:+ tok) "Bearer " = true.
Proof.
  unfold startsWith. cbv [String.append]. fold String.append. simpl.
  repeat (match goal with |- context [Ascii.ascii_dec ?a ?b] =>
            destruct (Ascii.ascii_dec a b); [|congruence] end).
  now destruct tok.
Qed.

Lemma startsWith_truthy h :
  startsWith h "Bearer " = true -> truthy_string (Some h) = true.
Proof. destruct h; [discriminate | reflexivity]. Qed.

Lemma tenant_gate_check user :
  tenant_gate user = None <-> tenant_check user = None.
Proof.
  unfold tenant_gate, tenant_check.
  destruct (truthy_string (User.tenantId (row user))); [|tauto].
  destruct (tenant user) as [t|]; [|tauto].
  destruct (TenantStatus.eqb (Tenant.status t) TenantStatus.SUSPENDED);
    [split; discriminate|].
  destruct (TenantStatus.eqb (Tenant.status t) TenantStatus.CANCELLED);
    [split; discriminate | tauto].
Qed.

Lemma UserStatus_eqb_eq a b : UserStatus.eqb a b = true <-> a = b.
Proof. destruct a, b; simpl; split; congruence. Qed.

Lemma UserRole_eqb_eq a b : UserRole_eqb a b = true <-> a = b.
Proof. destruct a, b; simpl; split; congruence. Qed.

Lemma find_by_id_NoDup (l : list User.t) u :
  NoDup (List.map User.id l) -> In u l ->
  List.find (fun v => String.eqb (User.id v) (User.id u)) l = Some u.
Proof.
  intros Hnd Hin.
  destruct (List.find (fun v => String.eqb (User.id v) (User.id u)) l) as [v|] eqn:Hf.
  - apply find_some in Hf as [Hv Hid]. apply String.eqb_eq in Hid.
    f_equal. now apply (NoDup_id_unique l u v).
  - exfalso. apply (find_none _ _ Hf u) in Hin. now rewrite String.eqb_refl in Hin.
Qed.

Lemma find_map_id (f : User.t -> User.t) i l :
  (forall u, User.id (f u) = User.id u) ->
  List.find (fun u => String.eqb (User.id u) i) (List.map f l)
  = f <$> List.find (fun u => String.eqb (User.id u) i) l.
Proof.
  intros Hid. induction l as [|x l IH]; simpl; [reflexivity|].
  rewrite Hid. destruct (String.eqb (User.id x) i); [reflexivity | exact IH].
Qed.

Lemma join_tenant_same s s' u v :
  tenants s' = tenants s -> User.tenantId v = User.tenantId u ->
  tenant (join_tenant s' v) = tenant (join_tenant s u).
Proof. intros Ht Hv. unfold join_tenant. simpl. now rewrite Ht, Hv. Qed.

Lemma tenant_gate_same s s' u v :
  tenants s' = tenants s -> User.tenantId v = User.tenantId u ->
  tenant_gate (join_tenant s' v) = tenant_gate (join_tenant s u).
Proof.
  intros Ht Hv. unfold tenant_gate.
  rewrite (join_tenant_same s s' u v Ht Hv). simpl. now rewrite Hv.
Qed.

Lemma tenant_check_gate user e :
  tenant_check user = Some e ->
  e = UnauthorizedError (message e)
  /\ tenant_gate user = Some (ForbiddenError (message e)).
Proof.
  unfold tenant_check, tenant_gate.
  destruct (truthy_string _); [|discriminate].
  destruct (tenant user) as [t|]; [|discriminate].
  destruct (TenantStatus.eqb _ TenantStatus.SUSPENDED); [intros [= <-]; now split|].
  destruct (TenantStatus.eqb _ TenantStatus.CANCELLED); [intros [= <-]; now split|].
  discriminate.
Qed.

Section HttpProperties.

Variable X : Externals.
Variable env : Env.
Variable NODE_ENV : option string.
Variable jwt_message : JwtErrorKind -> string.

Lemma authenticate_passes {B} (req : Request.t B) now s p u :
  authenticated X env req now s p u ->
  authenticate X env req now s
  = (s, Continue (Request.attach p (tenant (join_tenant s u)) req)).
Proof.
  intros (h & Hh & Hp & Hv & Hu & Ha & Hg).
  unfold authenticate, authenticate_try. cbv zeta. rewrite Hh.
  change (default "" (Some h)) with h.
  rewrite (startsWith_truthy h Hp), Hp. simpl.
  unfold bind, verify. rewrite Hv. unfold ret, user_findUnique_id.
  unfold user_by_id in Hu. rewrite Hu. simpl. rewrite Ha. simpl.
  now rewrite Hg.
Qed.

Lemma authenticate_cases {B} (req : Request.t B) now s :
  (exists e, In e authenticate_errors /\ authenticate X env req now s = (s, Fail e))
  \/ (exists p u, authenticated X env req now s p u
                  /\ authenticate X env req now s
                     = (s, Continue (Request.attach p (tenant (join_tenant s u)) req))).
Proof.
  unfold authenticate, authenticate_try, authenticate_errors. cbv zeta.
  destruct (Request.authorization req) as [h|] eqn:Hh.
  2:{ left. eexists. split; [|reflexivity]. simpl. auto. }
  change (default "" (Some h)) with h.
  destruct (truthy_string (Some h)) eqn:Ht; cbn [negb orb].
  2:{ left. eexists. split; [|reflexivity]. simpl. auto. }
  destruct (startsWith h "Bearer ") eqn:Hp; cbn [negb orb].
  2:{ left. eexists. split; [|reflexivity]. simpl. auto. }
  unfold bind, verify.
  destruct (jwt_verify X (substring_from 7 h) (JWT_SECRET env) now) as [p|k] eqn:Hv.
  2:{ left. unfold throw. exists (AppErr (UnauthorizedError "Invalid token")).
      split; [simpl; auto | destruct k; reflexivity]. }
  unfold ret, user_findUnique_id. cbn beta iota.
  destruct (List.find (fun u => String.eqb (User.id u) (JWTPayload.userId p)) (users s))
    as [u|] eqn:Hu; simpl.
  2:{ left. eexists. split; [|reflexivity]. simpl. auto. }
  destruct (UserStatus.eqb (User.status u) UserStatus.ACTIVE) eqn:Ha; simpl.
  2:{ left. eexists. split; [|reflexivity]. simpl. auto. }
  destruct (tenant_gate (join_tenant s u)) as [e|] eqn:Hg.
  - left. exists (AppErr e). split; [|reflexivity].
    unfold tenant_gate in Hg.
    destruct (truthy_string (User.tenantId (row (join_tenant s u)))); [|discriminate].
    destruct (tenant (join_tenant s u)) as [t|]; [|discriminate].
    destruct (TenantStatus.eqb (Tenant.status t) TenantStatus.SUSPENDED).
    { injection Hg as <-. simpl. auto 10. }
    destruct (TenantStatus.eqb (Tenant.status t) TenantStatus.CANCELLED);
      [|discriminate].
    injection Hg as <-. simpl. auto 10.
  - right. exists p, u. split; [|reflexivity].
    exists h. repeat split; auto. now apply UserStatus_eqb_eq.
Qed.

(** X19. [authenticate] reads the store and never writes it.  What it passes to
    [next] is one of six errors, four with status 401 and two with 403:
    "Token expired" is not among them, since a value that fails
    verification for any reason, expiry included, is answered "Invalid
    token".  It calls [next()] exactly when every guard passes, and then the
    request carries the decoded payload and the tenant of the stored row. *)
Theorem authenticate_outcomes {B} (req : Request.t B) now s :
  fst (authenticate X env req now s) = s
  /\ (forall e, snd (authenticate X env req now s) = Fail e ->
        In e authenticate_errors
        /\ e <> AppErr (UnauthorizedError "Token expired"))
  /\ (forall req',
        snd (authenticate X env req now s) = Continue req'
        <-> exists p u, authenticated X env req now s p u
                        /\ req' = Request.attach p (tenant (join_tenant s u)) req)
  /\ (forall h k,
        Request.authorization req = Some h ->
        startsWith h "Bearer " = true ->
        jwt_verify X (substring_from 7 h) (JWT_SECRET env) now = Rejected k ->
        snd (authenticate X env req now s)
        = Fail (AppErr (UnauthorizedError "Invalid token"))).
Proof.
  split; [|split; [|split]].
  - destruct (authenticate_cases req now s) as [(e & _ & ->) | (p & u & _ & ->)];
      reflexivity.
  - intros e He.
    destruct (authenticate_cases req now s) as [(e' & Hin & H) | (p & u & _ & H)];
      rewrite H in He; simpl in He; [|discriminate].
    injection He as <-. split; [exact Hin|].
    unfold authenticate_errors in Hin. simpl in Hin.
    intuition (subst; discriminate).
  - intros req'. split.
    + intros Hc.
      destruct (authenticate_cases req now s) as [(e' & _ & H) | (p & u & Ha & H)];
        rewrite H in Hc; simpl in Hc; [discriminate|].
      injection Hc as <-. now exists p, u.
    + intros (p & u & Ha & ->). now rewrite (authenticate_passes req now s p u Ha).
  - intros h k Hh Hp Hv.
    unfold authenticate, authenticate_try. cbv zeta. rewrite Hh.
    change (default "" (Some h)) with h.
    rewrite (startsWith_truthy h Hp), Hp. cbn [negb orb].
    unfold bind, verify. rewrite Hv. unfold throw. now destruct k.
Qed.

(** X20. The role gates read the payload attached to the request and nothing
    else.  Whoever passes [requireSuperAdmin] passes [requireAdmin], which
    admits the same requests as [requireRole(SUPER_ADMIN, TENANT_ADMIN)];
    [requireRole()] with no role admits nobody.  A gate that lets a request
    through hands it over unchanged.  Without a user on the request the role
    gates answer 401 but [requireTenant] answers 403. *)
Theorem role_gates {B} (req : Request.t B) :
  (requireSuperAdmin req = Continue req -> requireAdmin req = Continue req)
  /\ (requireAdmin req = Continue req
      <-> requireRole [UserRole.SUPER_ADMIN; UserRole.TENANT_ADMIN] req = Continue req)
  /\ (forall req', requireRole [] req <> Continue req')
  /\ (forall roles req',
        requireRole roles req = Continue req'
        <-> req' = req
            /\ exists p, Request.user req = Some p /\ In (JWTPayload.role p) roles)
  /\ (forall req', requireTenant req = Continue req' ->
        req' = req
        /\ exists p tid, Request.user req = Some p
                         /\ JWTPayload.tenantId p = Some tid /\ tid <> "")
  /\ (Request.user req = None ->
      (forall roles,
         requireRole roles req = Fail (AppErr (UnauthorizedError "Unauthorized")))
      /\ requireAdmin req = Fail (AppErr (UnauthorizedError "Unauthorized"))
      /\ requireSuperAdmin req = Fail (AppErr (UnauthorizedError "Unauthorized"))
      /\ requireTenant req = Fail (AppErr (ForbiddenError "Tenant context required"))).
Proof.
  unfold requireSuperAdmin, requireAdmin, requireRole, requireTenant.
  split; [|split; [|split; [|split; [|split]]]].
  - destruct (Request.user req) as [p|]; [|discriminate].
    destruct (JWTPayload.role p); simpl; congruence.
  - destruct (Request.user req) as [p|]; [|tauto].
    destruct (existsb (UserRole_eqb (JWTPayload.role p))
                [UserRole.SUPER_ADMIN; UserRole.TENANT_ADMIN]); simpl;
      split; congruence.
  - intros req'. destruct (Request.user req); discriminate.
  - intros roles req'. split.
    + destruct (Request.user req) as [p|]; [|discriminate].
      destruct (existsb (UserRole_eqb (JWTPayload.role p)) roles) eqn:E; simpl;
        [|discriminate].
      intros [= <-]. split; [reflexivity|]. exists p. split; [reflexivity|].
      apply existsb_exists in E as (r & Hr & Heq).
      apply UserRole_eqb_eq in Heq. now subst r.
    + intros (-> & p' & -> & Hin).
      assert (E : existsb (UserRole_eqb (JWTPayload.role p')) roles = true).
      { apply existsb_exists. exists (JWTPayload.role p'). split; [exact Hin|].
        now apply UserRole_eqb_eq. }
      now rewrite E.
  - intros req'. destruct (Request.user req) as [p|]; simpl; [|discriminate].
    destruct (JWTPayload.tenantId p) as [tid|] eqn:E; simpl; [|discriminate].
    destruct (String.eqb tid "") eqn:Et; simpl; [discriminate|].
    intros [= <-]. split; [reflexivity|]. exists p, tid.
    split; [reflexivity|]. split; [exact E|]. now apply String.eqb_neq.
  - intros ->. simpl. auto.
Qed.

(** X21. The error handler answers an [AppError] with the status and the message
    of its class, and every other error with 400 or 500 and
    [success: false]; unless [NODE_ENV] is "development" it never shows the
    message of an error that is not an [AppError].  Its branch for errors
    named "ValidationError" is never taken: the [ValidationError]s of the
    service are [AppError]s and are answered 400 by the first branch. *)
Theorem errorHandler_discloses {D} (err : Thrown) :
  let res : Response.t D := errorHandler NODE_ENV jwt_message err in
  Response.success res = false
  /\ Response.data res = None
  /\ Response.cookie res = CookieKept
  /\ (forall e, err = AppErr e ->
        Response.status res = statusCode e /\ Response.error res = Some (message e))
  /\ ((forall e, err <> AppErr e) ->
      (Response.status res = 400 \/ Response.status res = 500)
      /\ (development NODE_ENV = false ->
          Response.error res = Some "Database operation failed"
          \/ Response.error res = Some "Internal server error"))
  /\ err_name err <> "ValidationError"
  /\ (forall msg,
        errorHandler NODE_ENV jwt_message (AppErr (ValidationError msg))
        = Response.mk 400 false None (Some msg) (@None D) CookieKept).
Proof.
  intros res. subst res.
  destruct err as [e | k | code | msg]; [| destruct k | |]; simpl;
    (split; [reflexivity|]); (split; [reflexivity|]); (split; [reflexivity|]);
    (split; [|split; [|split; [discriminate | reflexivity]]]).
  - intros e' [= <-]. auto.
  - intros H. now destruct (H e).
  - discriminate.
  - intros _. split; [auto|]. intros ->. auto.
  - discriminate.
  - intros _. split; [auto|]. intros ->. auto.
  - discriminate.
  - intros _. split; [auto|]. intros ->. auto.
  - discriminate.
  - intros _. split; [auto|]. intros _. auto.
  - discriminate.
  - intros _. split; [auto|]. intros ->. auto.
Qed.

Lemma login_returned_inv dto ip now au s u t :
  snd (login X env dto ip now au s) = Returned (u, t) ->
  exists u0,
    admissible X dto now s u0
    /\ mints X env u0 now s t
    /\ fst (login X env dto ip now au s)
       = audited au (login_row u0 ip) (issued u0 now t (logged u0 now ip s))
    /\ u = omitPasswordHash (join_tenant s u0).
Proof.
  intros Hret.
  pose proof (login_case_of X env dto ip now au s) as Hc.
  destruct (login X env dto ip now au s) as [s' o] eqn:Hl. simpl in Hret. subst o.
  inversion Hc; subst.
  match goal with
  | Ha : admissible _ _ _ _ ?w, Hm : mints _ _ ?w _ _ _ |- _ =>
      exists w; split; [exact Ha | split; [exact Hm | split; reflexivity]]
  end.
Qed.

(** X22. Login and the middleware fit: in a store whose user identifiers are
    distinct, when [login] has returned a pair and the library verifies the
    access value as a payload naming that user, [authenticate] lets the
    request that carries it as a bearer value through, with that payload
    and the tenant [login] returned attached. *)
Theorem login_then_authenticate {B} dto ip now au s u t (req : Request.t B) now' p :
  users_sane s ->
  snd (login X env dto ip now au s) = Returned (u, t) ->
  Request.authorization req = Some ("Bearer " +:+ AuthTokens.accessToken t) ->
  jwt_verify X (AuthTokens.accessToken t) (JWT_SECRET env) now' = Verified p ->
  JWTPayload.userId p = UserWithoutPassword.id u ->
  authenticate X env req now' (fst (login X env dto ip now au s))
  = (fst (login X env dto ip now au s),
     Continue (Request.attach p (UserWithoutPassword.tenant u) req)).
Proof.
  intros [Hnd _] Hret Hh Hv Hp.
  destruct (login_returned_inv dto ip now au s u t Hret) as (u0 & Hadm & _ & -> & ->).
  destruct Hadm as (Hu0 & _ & _ & Hact & Htc).
  set (u1 := successful_login_updates now ip u0).
  set (s1 := audited au (login_row u0 ip) (issued u0 now t (logged u0 now ip s))).
  assert (Hts : tenants s1 = tenants s).
  { unfold s1, audited. now destruct au. }
  assert (Hus : users s1
                = update_where_id (User.id u0) (successful_login_updates now ip) (users s)).
  { unfold s1, audited. now destruct au. }
  assert (Hjoin : tenant (join_tenant s1 u1) = tenant (join_tenant s u0)).
  { now apply join_tenant_same. }
  replace (UserWithoutPassword.tenant (omitPasswordHash (join_tenant s u0)))
    with (tenant (join_tenant s1 u1)) by exact Hjoin.
  apply authenticate_passes.
  exists ("Bearer " +:+ AuthTokens.accessToken t).
  split; [exact Hh|]. split; [apply bearer_startsWith|].
  rewrite bearer_token. split; [exact Hv|].
  split; [|split].
  - unfold user_by_id. rewrite Hus, Hp. simpl.
    rewrite find_update_where_id by reflexivity.
    rewrite (find_by_id_NoDup (users s) u0 Hnd (user_by_email_In _ _ _ Hu0)).
    simpl. now rewrite String.eqb_refl.
  - exact Hact.
  - rewrite (tenant_gate_same s s1 u0 u1 Hts eq_refl). now apply tenant_gate_check.
Qed.

(** X23. The middleware trusts the payload, not the row: it consults the stored
    user for its existence, its status and its tenant only.  Whatever else
    changes in the rows (the role, the e-mail address, the counters), the
    same request is answered the same way and carries the same payload, so a
    role written into an access value holds until the value expires. *)
Theorem authenticate_trusts_payload {B} (req : Request.t B) now s f :
  (forall u, User.id (f u) = User.id u
             /\ User.status (f u) = User.status u
             /\ User.tenantId (f u) = User.tenantId u) ->
  snd (authenticate X env req now (set_users (List.map f (users s)) s))
  = snd (authenticate X env req now s).
Proof.
  intros Hf.
  assert (Hid : forall u, User.id (f u) = User.id u) by (intros u; apply Hf).
  set (s1 := set_users (List.map f (users s)) s).
  destruct (authenticate_cases req now s) as [(e & Hin & H) | (p & u & Ha & H)];
    rewrite H; cbn [snd].
  - unfold authenticate, authenticate_try in H |- *. cbv zeta in H |- *.
    destruct (Request.authorization req) as [h|] eqn:Hh;
      [|simpl in H |- *; congruence].
    change (default "" (Some h)) with h in H |- *.
    destruct (truthy_string (Some h)) eqn:Ht; cbn [negb orb] in H |- *;
      [|simpl in H |- *; congruence].
    destruct (startsWith h "Bearer ") eqn:Hp; cbn [negb orb] in H |- *;
      [|simpl in H |- *; congruence].
    unfold bind, verify in H |- *.
    destruct (jwt_verify X (substring_from 7 h) (JWT_SECRET env) now) as [p|k] eqn:Hv.
    2:{ unfold throw in H |- *. simpl in H |- *. congruence. }
    unfold ret, user_findUnique_id in H |- *. cbn beta iota in H |- *.
    unfold s1 at 2. cbn [users set_users].
    rewrite (find_map_id f _ (users s) Hid).
    destruct (List.find (fun u => String.eqb (User.id u) (JWTPayload.userId p)) (users s))
      as [u|] eqn:Hu; simpl in H |- *; [|congruence].
    destruct (Hf u) as (_ & Hst & Htid). rewrite Hst.
    destruct (UserStatus.eqb (User.status u) UserStatus.ACTIVE); simpl in H |- *;
      [|congruence].
    change (mkUserWithTenant (f u)
              match User.tenantId (f u) with
              | Some tid => List.find (fun t => String.eqb (Tenant.id t) tid) (tenants s)
              | None => None
              end) with (join_tenant s1 (f u)).
    change (mkUserWithTenant u
              match User.tenantId u with
              | Some tid => List.find (fun t => String.eqb (Tenant.id t) tid) (tenants s)
              | None => None
              end) with (join_tenant s u) in H.
    rewrite (tenant_gate_same s s1 u (f u) eq_refl Htid).
    destruct (tenant_gate (join_tenant s u)); simpl in H |- *; [congruence|].
    unfold ret in H. discriminate H.
  - destruct Ha as (h & Hh & Hp & Hv & Hu & Hact & Hg).
    destruct (Hf u) as (_ & Hst & Htid).
    rewrite (authenticate_passes req now s1 p (f u)).
    + cbn [snd]. now rewrite (join_tenant_same s s1 u (f u) eq_refl Htid).
    + exists h. split; [exact Hh|]. split; [exact Hp|]. split; [exact Hv|].
      split; [|split].
      * unfold user_by_id, s1. cbn [users set_users].
        rewrite (find_map_id f _ (users s) Hid).
        unfold user_by_id in Hu. now rewrite Hu.
      * congruence.
      * now rewrite (tenant_gate_same s s1 u (f u) eq_refl Htid).
Qed.

(** X24. The same tenant condition is answered with two statuses: a user of a
    suspended or cancelled tenant who presents the right secret is refused
    by the login route with 401, and the same user presenting an access
    value that still verifies is refused by the middleware with 403; both
    answers carry the same message. *)
Theorem tenant_refusal_401_then_403
    dto (rl : Request.t LoginDto.t) now au {B} (req : Request.t B) now' s u e h p :
  Request.body rl = dto ->
  user_by_email (LoginDto.email dto) s = Some u ->
  locked u now = false ->
  bcrypt_compare X (LoginDto.password dto) (User.passwordHash u) = true ->
  User.status u = UserStatus.ACTIVE ->
  tenant_check (join_tenant s u) = Some e ->
  Request.authorization req = Some h ->
  startsWith h "Bearer " = true ->
  jwt_verify X (substring_from 7 h) (JWT_SECRET env) now' = Verified p ->
  user_by_id (JWTPayload.userId p) s = Some u ->
  answered NODE_ENV jwt_message (snd (AuthController.login X env NODE_ENV rl now au s))
  = Response.mk 401 false None (Some (message e)) None CookieKept
  /\ authenticate X env req now' s = (s, Fail (AppErr (ForbiddenError (message e))))
  /\ errorHandler NODE_ENV jwt_message (AppErr (ForbiddenError (message e)))
     = Response.mk 403 false None (Some (message e)) (@None unit) CookieKept.
Proof.
  intros Hb Hu Hl Hpw Hact Htc Hh Hp Hv Hid.
  destruct (tenant_check_gate _ _ Htc) as [He Hg].
  split; [|split; [|reflexivity]].
  - unfold AuthController.login. rewrite Hb.
    rewrite (login_tenant_refused X env dto _ now au s u e Hu Hl Hpw Hact Htc).
    simpl. now rewrite He.
  - unfold authenticate, authenticate_try. cbv zeta. rewrite Hh.
    change (default "" (Some h)) with h.
    rewrite (startsWith_truthy h Hp), Hp. cbn [negb orb].
    unfold bind, verify. rewrite Hv. unfold ret, user_findUnique_id. cbn beta iota.
    unfold user_by_id in Hid. rewrite Hid. simpl. rewrite Hact. simpl.
    now rewrite Hg.
Qed.

Lemma authenticate_errors_status {D} e :
  In e authenticate_errors ->
  (Response.status (errorHandler NODE_ENV jwt_message e : Response.t D) = 401
   \/ Response.status (errorHandler NODE_ENV jwt_message e : Response.t D) = 403)
  /\ Response.data (errorHandler NODE_ENV jwt_message e : Response.t D) = None.
Proof.
  unfold authenticate_errors. simpl.
  intros [<- | [<- | [<- | [<- | [<- | [<- | []]]]]]]; simpl; auto.
Qed.

(** X25. What the refresh route answers.  The status is 200, 401, 400 or 500.
    A 200 means that the service has rotated the presented value: then
    the body carries the new access value and the cookie the new refresh
    value, http-only and strict.  With any other status the store is as it
    was and no cookie is set.  A request with neither cookie nor body value
    is answered 401 without calling the service; a request whose cookies
    were never parsed is answered 500. *)
Theorem refresh_route req now s :
  let s' := fst (AuthController.refresh X env NODE_ENV req now s) in
  let res := answered NODE_ENV jwt_message
               (snd (AuthController.refresh X env NODE_ENV req now s)) in
  (Response.status res = 200 \/ Response.status res = 401
   \/ Response.status res = 400 \/ Response.status res = 500)
  /\ (Response.status res <> 200 ->
      s' = s /\ Response.cookie res = CookieKept /\ Response.data res = None)
  /\ (Response.status res = 200 ->
      exists tok t r u,
        cookie_or_body req = Returned (Some tok)
        /\ exchangeable X env tok now s r u
        /\ mints X env u now s t
        /\ s' = rotated tok now r u t s
        /\ Response.data res = Some (AuthTokens.accessToken t)
        /\ Response.cookie res
           = CookieSet (AuthTokens.refreshToken t) true (production NODE_ENV) "strict"
               (7 * 24 * 60 * 60 * 1000))
  /\ (Request.cookies req = None -> Response.status res = 500)
  /\ (forall c,
        Request.cookies req = Some c ->
        truthy_string (or_else (c !! "refreshToken")
                         (RefreshBody.refreshToken (Request.body req))) = false ->
        res = Response.mk 401 false None (Some "Refresh token not provided") None
                CookieKept).
Proof.
  intros s' res. subst s' res. unfold AuthController.refresh, cookie_or_body.
  destruct (Request.cookies req) as [c|] eqn:Hc.
  2:{ simpl. split; [auto|]. split; [auto|]. split; [discriminate|].
      split; [reflexivity | discriminate]. }
  set (token := or_else (c !! "refreshToken")
                  (RefreshBody.refreshToken (Request.body req))).
  destruct (truthy_string token) eqn:Ht; cbn [negb].
  2:{ simpl. split; [auto|]. split; [auto|]. split; [discriminate|].
      split; [discriminate|]. intros c' [= <-] _. reflexivity. }
  destruct token as [tok|] eqn:Htok; [|discriminate Ht].
  change (default "" (Some tok)) with tok.
  pose proof (refreshToken_outcomes X env tok now s) as [Hthrew Hret].
  destruct (refreshToken X env tok now s) as [s1 [t|e]]; cbn [fst snd] in *.
  - destruct (Hret t eq_refl) as (r & u & Hex & Hm & ->). simpl.
    split; [auto|]. split; [intros H; now destruct H|].
    split; [|split; [discriminate|]].
    + intros _. exists tok, t, r, u.
      split; [reflexivity|]. split; [exact Hex|]. split; [exact Hm|].
      split; [reflexivity|]. split; reflexivity.
    + intros c' [= <-] Hf. unfold token in Htok. rewrite Htok in Hf. congruence.
  - destruct (Hthrew e eq_refl) as [-> He].
    assert (Hst : (Response.status (errorHandler NODE_ENV jwt_message e
                                      : Response.t string) = 401
                   \/ Response.status (errorHandler NODE_ENV jwt_message e
                                         : Response.t string) = 400
                   \/ Response.status (errorHandler NODE_ENV jwt_message e
                                         : Response.t string) = 500)
                  /\ Response.cookie (errorHandler NODE_ENV jwt_message e
                                        : Response.t string) = CookieKept
                  /\ Response.data (errorHandler NODE_ENV jwt_message e
                                      : Response.t string) = None).
    { destruct He as [-> | [-> | [-> | [-> | ->]]]]; simpl; auto. }
    simpl. destruct Hst as (Hst & Hck & Hd).
    split; [tauto|]. split; [auto|].
    split; [intros H200; rewrite H200 in Hst; intuition discriminate|].
    split; [discriminate|]. intros c' [= <-] Hf.
    unfold token in Htok. rewrite Htok in Hf. congruence.
Qed.

(** X26. The logout route.  A request the middleware refuses is answered 401 or
    403 and changes nothing.  A request it admits, with parsed cookies, is
    always answered 200 "Logout successful" with the cookie cleared,
    whatever value it presents (unknown, expired, already revoked, or the
    value of another user: the authenticated user is not compared with the
    owner of the record); the store is the one [AuthService.logout] leaves
    for that value, and is untouched when no value is presented. *)
Theorem logout_route req now now' s :
  let out := behind_authenticate X env NODE_ENV jwt_message req now
               (fun r => AuthController.logout r now') s in
  ((forall p u, ~ authenticated X env req now s p u) ->
   fst out = s
   /\ (Response.status (snd out) = 401 \/ Response.status (snd out) = 403))
  /\ (forall p u,
        authenticated X env req now s p u ->
        (Request.cookies req = None ->
         fst out = s /\ Response.status (snd out) = 500)
        /\ (forall c,
              Request.cookies req = Some c ->
              let token := or_else (c !! "refreshToken")
                             (RefreshBody.refreshToken (Request.body req)) in
              snd out
              = Response.mk 200 true (Some "Logout successful") None None CookieCleared
              /\ (forall tok, token = Some tok -> tok <> "" ->
                    fst out = fst (logout tok now' s))
              /\ (truthy_string token = false -> fst out = s))).
Proof.
  intros out. subst out. unfold behind_authenticate. split.
  - intros Hno.
    destruct (authenticate_cases req now s) as [(e & Hin & ->) | (p & u & Ha & _)];
      [|now destruct (Hno p u)].
    cbn [fst snd]. split; [reflexivity|].
    apply (authenticate_errors_status (D:=unit) e Hin).
  - intros p u Ha. rewrite (authenticate_passes req now s p u Ha).
    unfold AuthController.logout, cookie_or_body. cbn [Request.attach Request.cookies
      Request.body]. split.
    + intros ->. simpl. auto.
    + intros c ->.
      set (token := or_else (c !! "refreshToken")
                      (RefreshBody.refreshToken (Request.body req))).
      destruct (truthy_string token) eqn:Ht.
      * destruct token as [tok|] eqn:Htok; [|discriminate Ht].
        change (default "" (Some tok)) with tok.
        pose proof (logout_returns tok now' s) as Hr.
        destruct (logout tok now' s) as [s1 o] eqn:Hl. simpl in Hr. subst o.
        cbn [fst snd answered]. split; [reflexivity|].
        split; [|discriminate]. intros tok' [= <-] _. now rewrite Hl.
      * cbn [fst snd answered]. split; [reflexivity|].
        split; [|reflexivity]. intros tok -> Hne. simpl in Ht.
        apply negb_false_iff, String.eqb_eq in Ht. contradiction.
Qed.

(** X27. The route of the current user.  It never writes.  A request the
    middleware admits is answered 200 with the stored row of the user the
    payload names, joined with its tenant and without the hash; every other
    request is answered 401 or 403 without data.  Behind the middleware the
    controller's own 404 never shows, nor does a 500. *)
Theorem me_route {B} (req : Request.t B) now s :
  let out := behind_authenticate X env NODE_ENV jwt_message req now
               (fun r => AuthController.me r) s in
  fst out = s
  /\ (forall p u,
        authenticated X env req now s p u ->
        snd out
        = Response.mk 200 true None None (Some (omitPasswordHash (join_tenant s u)))
            CookieKept)
  /\ ((forall p u, ~ authenticated X env req now s p u) ->
      (Response.status (snd out) = 401 \/ Response.status (snd out) = 403)
      /\ Response.data (snd out) = None)
  /\ Response.status (snd out) <> 404
  /\ Response.status (snd out) <> 500.
Proof.
  intros out. subst out. unfold behind_authenticate.
  destruct (authenticate_cases req now s) as [(e & Hin & He) | (p & u & Ha & ->)].
  - destruct (authenticate_errors_status (D:=UserWithoutPassword.t) e Hin)
      as [Hst Hd].
    split; [now rewrite He|].
    split; [intros p u Ha|rewrite He; split; [auto|]].
    + rewrite (authenticate_passes req now s p u Ha) in He. discriminate He.
    + cbn [snd]. split; intros H; rewrite H in Hst; intuition discriminate.
  - assert (Hme : AuthController.me (Request.attach p (tenant (join_tenant s u)) req) s
                  = (s, Sent (Response.mk 200 true None None
                                (Some (omitPasswordHash (join_tenant s u))) CookieKept))).
    { destruct Ha as (h & _ & _ & _ & Hu & _). unfold AuthController.me.
      cbn [Request.attach Request.user]. unfold user_findUnique_id.
      unfold user_by_id in Hu. now rewrite Hu. }
    rewrite Hme. cbn [fst snd answered].
    split; [reflexivity|]. split; [|split; [|split; discriminate]].
    + intros p' u' Ha'.
      pose proof (authenticate_passes req now s p u Ha) as H1.
      pose proof (authenticate_passes req now s p' u' Ha') as H2.
      rewrite H1 in H2. injection H2 as Hatt.
      destruct Ha as (h & Hh & _ & Hv & Hu & _).
      destruct Ha' as (h' & Hh' & _ & Hv' & Hu' & _).
      rewrite Hh in Hh'. injection Hh' as <-. rewrite Hv in Hv'.
      injection Hv' as <-. rewrite Hu in Hu'. now injection Hu' as <-.
    + intros Hno. now destruct (Hno p u).
Qed.

(** X28. What the login controller answers, through the error handler when
    it passes an error on, to a request that has reached it (the rate
    limiter the router puts in front of it is not part of this statement).
    The status is 200, 401, 400 or 500.  A 200 means that [login] returned:
    then the body carries the user and the access value only, the refresh
    value travels in the http-only cookie, and the address written to the
    row and to the audit log is [req.ip], or the socket's when [req.ip] is
    missing.  Any other answer sets no cookie and carries no data; a 401
    carries one of the five messages of [login]. *)
Theorem login_controller_answers req now au s :
  let ipAddress := or_else (Request.ip req) (Request.remoteAddress req) in
  let out := AuthController.login X env NODE_ENV req now au s in
  let res := answered NODE_ENV jwt_message (snd out) in
  (Response.status res = 200 \/ Response.status res = 401
   \/ Response.status res = 400 \/ Response.status res = 500)
  /\ (Response.status res = 200 ->
      exists u t,
        admissible X (Request.body req) now s u
        /\ mints X env u now s t
        /\ Response.data res
           = Some (omitPasswordHash (join_tenant s u), AuthTokens.accessToken t)
        /\ Response.cookie res
           = CookieSet (AuthTokens.refreshToken t) true (production NODE_ENV) "strict"
               (7 * 24 * 60 * 60 * 1000)
        /\ fst out
           = audited au (login_row u ipAddress)
               (issued u now t (logged u now ipAddress s)))
  /\ (Response.status res <> 200 ->
      Response.cookie res = CookieKept /\ Response.data res = None)
  /\ (Response.status res = 401 ->
      exists msg,
        Response.error res = Some msg
        /\ In msg ["Invalid credentials"; "Account is locked. Please try again later.";
                   "Account is not active"; "Tenant account is suspended";
                   "Tenant account is cancelled"]).
Proof.
  intros ipAddress out res. subst out res. unfold AuthController.login. cbv zeta.
  fold ipAddress.
  destruct (login_case_of X env (Request.body req) ipAddress now au s)
    as [Hu | u Hu Hl | u Hu Hl Hp | u Hu Hl Hp Hs | u e Hu Hl Hp Hs Ht
        | u e Hadm Hg | u t Hadm Hm].
  - simpl. split; [auto|]. split; [discriminate|]. split; [auto|].
    intros _. eexists. split; [reflexivity|]. simpl. auto.
  - simpl. split; [auto|]. split; [discriminate|]. split; [auto|].
    intros _. eexists. split; [reflexivity|]. simpl. auto.
  - simpl. split; [auto|]. split; [discriminate|]. split; [auto|].
    intros _. eexists. split; [reflexivity|]. simpl. auto.
  - simpl. split; [auto|]. split; [discriminate|]. split; [auto|].
    intros _. eexists. split; [reflexivity|]. simpl. auto.
  - destruct (tenant_check_error _ _ Ht) as [-> | ->]; simpl;
      (split; [auto|]); (split; [discriminate|]); (split; [auto|]);
      intros _; eexists; (split; [reflexivity|]); simpl; auto 10.
  - destruct (generateTokens_throws X env _ _ _ _ _ Hg) as [-> | ->]; simpl;
      (split; [auto|]); (split; [discriminate|]); (split; [auto|]); discriminate.
  - simpl. split; [auto|]. split.
    + intros _. exists u, t. split; [exact Hadm|]. split; [exact Hm|].
      split; [reflexivity|]. split; reflexivity.
    + split; [intros H; now destruct H | discriminate].
Qed.


End HttpProperties.

(** * The claims on the reference instance *)

Import Ref.

(** Alice, session open since 5000, presents her value at 7000. *)
Lemma alice_exchangeable s :
  users s = [alice] ->
  refreshTokens s = {[alice_refresh := alice_record]} ->
  exchangeable X env alice_refresh 7000 s alice_record alice.
Proof.
  intros Hu Hr. unfold exchangeable, user_by_id. rewrite Hu, Hr.
  split; [eexists; split; reflexivity|].
  repeat split; try reflexivity. vm_compute. discriminate.
Defined.

Lemma alice_mints s :
  refreshTokens s = {[alice_refresh := alice_record]} ->
  mints X env alice 7000 s alice_pair_7000.
Proof. intros Hr. unfold mints. rewrite Hr. repeat split. Defined.

(** C4 on an instance: five wrong guesses at 1000, ..., 5000 lock Alice
    until 5000 + 15 min, and her right secret is refused at 6000. *)
Lemma lockout_after_five_failures_witness :
  let s5 := fst (attempts X env "a@x.com"
                   [wrong 1000; wrong 2000; wrong 3000; wrong 4000; wrong 5000] store0) in
  (exists u5,
     user_by_email "a@x.com" s5 = Some u5
     /\ User.lockedUntil u5 = Some (5000 + 15 * 60 * 1000)
     /\ User.failedLoginAttempts u5 = 0 + 5)
  /\ login X env alice_login None 6000 true s5 = (s5, Threw account_locked).
Proof.
  destruct (lockout_after_five_failures X env "a@x.com" store0 alice
              (wrong 1000) (wrong 2000) (wrong 3000) (wrong 4000) (wrong 5000))
    as (Hlock & Hsixth & _).
  - reflexivity.
  - simpl. lia.
  - vm_compute. repeat constructor.
  - split; [exact Hlock|]. apply Hsixth. simpl. lia.
Defined.

(** C7: as stated the claim fails once the actor is locked: an unknown
    identifier is answered "Invalid credentials", a wrong secret for locked
    Alice "Account is locked. Please try again later.". *)
Lemma locked_actor_is_told_apart :
  user_by_email (LoginDto.email nobody_guess) store_locked = None
  /\ user_by_email (LoginDto.email alice_guess) store_locked = Some alice_locked
  /\ bcrypt_compare X (LoginDto.password alice_guess) (User.passwordHash alice_locked)
     = false
  /\ snd (login X env nobody_guess None 7000 true store_locked)
     = Threw invalid_credentials
  /\ snd (login X env alice_guess None 7000 true store_locked)
     = Threw account_locked
  /\ ~ same_failure (snd (login X env nobody_guess None 7000 true store_locked))
        (snd (login X env alice_guess None 7000 true store_locked)).
Proof.
  do 5 (split; [reflexivity|]).
  intros (e1 & e2 & H1 & H2 & Hm).
  vm_compute in H1. vm_compute in H2.
  injection H1 as <-. injection H2 as <-. vm_compute in Hm. discriminate.
Qed.

Lemma unknown_and_mismatch_same_error_witness :
  snd (login X env nobody_guess None 7000 true store0) = Threw invalid_credentials
  /\ snd (login X env alice_guess None 7000 true store0) = Threw invalid_credentials
  /\ same_failure (snd (login X env nobody_guess None 7000 true store0))
       (snd (login X env alice_guess None 7000 true store0)).
Proof.
  destruct (unknown_and_mismatch_same_error X env nobody_guess None 7000 true store0
              alice_guess None 7000 true store0 alice) as (Hunknown & Hopen & _);
    [reflexivity | reflexivity | reflexivity |].
  split; [exact Hunknown|]. apply Hopen. reflexivity.
Defined.

(** C3 at the failing input: with the right secret, the error thrown for
    Alice's suspended tenant has the class of the credential errors. *)
Lemma suspended_tenant_error_same_class :
  bcrypt_compare X (LoginDto.password alice_login) (User.passwordHash alice) = true
  /\ snd (login X env alice_login None 7000 true store_suspended)
     = Threw (AppErr (UnauthorizedError "Tenant account is suspended"))
  /\ errClass (UnauthorizedError "Tenant account is suspended")
     = errClass (UnauthorizedError "Invalid credentials")
  /\ ~ throws_other_class_than ErrorClass.Unauthorized
        (snd (login X env alice_login None 7000 true store_suspended)).
Proof.
  do 3 (split; [reflexivity|]). intros (e & He & Hc).
  vm_compute in He. injection He as <-. apply Hc. reflexivity.
Qed.

Lemma alice_blocked : tenant_blocked store_suspended alice.
Proof.
  split; [reflexivity|]. exists acme_suspended. split; [reflexivity | now left].
Defined.

(** C3 on an instance: Alice's tenant is suspended; [login] answers with
    the 401 class where the middleware's check answers 403. *)
Lemma suspended_tenant_login_error_witness :
  fst (login X env alice_login None 7000 true store_suspended) = store_suspended
  /\ snd (login X env alice_login None 7000 true store_suspended)
     = Threw (AppErr (UnauthorizedError "Tenant account is suspended"))
  /\ statusCode (UnauthorizedError "Tenant account is suspended") = 401
  /\ tenant_gate (join_tenant store_suspended alice)
     = Some (ForbiddenError "Tenant account is suspended")
  /\ statusCode (ForbiddenError "Tenant account is suspended") = 403.
Proof.
  destruct (suspended_tenant_login_error X env alice_login None 7000 true
              store_suspended alice) as (Hs & _ & Hm & _).
  - reflexivity.
  - exact alice_blocked.
  - reflexivity.
  - destruct (Hm acme_suspended) as [Hsusp _]; try reflexivity.
    destruct (Hsusp eq_refl) as [Hlogin Hgate].
    split; [exact Hs|]. split; [exact Hlogin|]. split; [reflexivity|].
    split; [exact Hgate | reflexivity].
Defined.

(** C1 on an instance: Alice is ACTIVE, her tenant is suspended, and at 7000
    her value of 5000 is exchanged for a new pair. *)
Lemma suspended_tenant_can_refresh_witness :
  refreshToken X env alice_refresh 7000 store_suspended
  = (rotated alice_refresh 7000 alice_record alice alice_pair_7000 store_suspended,
     Returned alice_pair_7000).
Proof.
  apply (suspended_tenant_can_refresh X env alice_refresh 7000 store_suspended
           alice_record alice alice_pair_7000).
  - now apply alice_exchangeable.
  - now apply alice_mints.
  - exact alice_blocked.
Defined.

(** C2: as stated the claim fails: Alice's value of 5000 has never been
    rotated or revoked, has not expired and passes every guard at 5500, yet
    the exchange does not succeed even once: within the second of issue the
    library signs the same value again, the insert is refused as a
    duplicate and the store stays as it was. *)
Lemma same_second_rotation_is_refused :
  refreshTokens store_session !! alice_refresh = Some alice_record
  /\ RefreshToken.revokedAt alice_record = None
  /\ RefreshToken.replacedBy alice_record = None
  /\ 5500 <= RefreshToken.expiresAt alice_record
  /\ jwt_verify X alice_refresh (JWT_REFRESH_SECRET env) 5500
     = Verified (payload_of alice)
  /\ user_by_id "u1" store_session = Some alice
  /\ User.status alice = UserStatus.ACTIVE
  /\ refreshToken X env alice_refresh 5500 store_session
     = (store_session, Threw (PrismaErr "P2002")).
Proof.
  do 3 (split; [reflexivity|]).
  split; [vm_compute; discriminate|].
  do 3 (split; [reflexivity|]). reflexivity.
Qed.

(** C2 on an instance: the exchange at 7000 succeeds; after a logout of
    another value and a new login, the same value is refused at 9000. *)
Lemma rotate_one_shot_witness :
  let later := [CallLogout "other" 7500; CallLogin alice_login None 8000 true] in
  let s1 := rotated alice_refresh 7000 alice_record alice alice_pair_7000 store_session in
  refreshToken X env alice_refresh 7000 store_session = (s1, Returned alice_pair_7000)
  /\ refreshToken X env alice_refresh 9000 (run X env s1 later)
     = (run X env s1 later, Threw invalid_refresh_token).
Proof.
  intros later s1.
  destruct (rotate_one_shot X env alice_refresh 7000 store_session)
    as (Hfirst & _ & _ & Hreplay).
  assert (H1 : refreshToken X env alice_refresh 7000 store_session
               = (s1, Returned alice_pair_7000)).
  { apply Hfirst; [now apply alice_exchangeable | now apply alice_mints]. }
  split; [exact H1|]. apply (Hreplay s1 alice_pair_7000 H1 later 9000).
Defined.

(** C10: as stated the claim fails: Alice is ACTIVE and locked until
    5000 + 15 min, her value verifies and its record is neither revoked nor
    expired, yet at 5500 the exchange returns no pair: the library signs
    the same value again and the insert is refused as a duplicate. *)
Lemma locked_same_second_rotation_is_refused :
  User.status alice_locked = UserStatus.ACTIVE
  /\ locked alice_locked 5500 = true
  /\ refreshTokens store_session_locked !! alice_refresh = Some alice_record
  /\ RefreshToken.revokedAt alice_record = None
  /\ 5500 <= RefreshToken.expiresAt alice_record
  /\ jwt_verify X alice_refresh (JWT_REFRESH_SECRET env) 5500
     = Verified (payload_of alice_locked)
  /\ user_by_id "u1" store_session_locked = Some alice_locked
  /\ refreshToken X env alice_refresh 5500 store_session_locked
     = (store_session_locked, Threw (PrismaErr "P2002")).
Proof.
  do 4 (split; [reflexivity|]).
  split; [vm_compute; discriminate|].
  do 2 (split; [reflexivity|]). reflexivity.
Qed.

(** C10 on an instance: Alice is locked until 5000 + 15 min, and her value
    is exchanged at 7000, as it is when her lock is cleared. *)
Lemma rotate_ignores_lock_witness :
  locked alice_locked 7000 = true
  /\ snd (refreshToken X env alice_refresh 7000 store_session_locked)
     = Returned alice_pair_7000
  /\ snd (refreshToken X env alice_refresh 7000
            (with_lock_state (fun _ => None) (fun _ => 0) store_session_locked))
     = Returned alice_pair_7000.
Proof.
  split; [reflexivity|].
  destruct (rotate_ignores_lock X env alice_refresh 7000 store_session_locked)
    as (_ & Hlocked & _).
  destruct (Hlocked alice_record alice_locked alice_pair_7000) as (Hok & Hany).
  - unfold exchangeable, user_by_id.
    split; [eexists; split; reflexivity|].
    repeat split; try reflexivity. vm_compute. discriminate.
  - repeat split.
  - reflexivity.
  - split; [now rewrite Hok | apply Hany].
Defined.

(** C8: as stated the claim fails: when both calls have read the record
    before either writes it, both return a pair (the two pairs are minted
    in different seconds), and the second write replaces the first. *)
Lemma racing_calls_both_win :
  let r := race X env alice_refresh
             [(CallerA, 7000); (CallerB, 7000); (CallerA, 7000); (CallerB, 7000);
              (CallerA, 7000); (CallerB, 8000); (CallerA, 7000); (CallerB, 8000)]
             store_session in
  succeeded (pcA r) = true /\ succeeded (pcB r) = true /\ ~ one_winner r.
Proof.
  intros r. assert (HA : succeeded (pcA r) = true) by (vm_compute; reflexivity).
  assert (HB : succeeded (pcB r) = true) by (vm_compute; reflexivity).
  split; [exact HA|]. split; [exact HB|].
  unfold one_winner. rewrite HA, HB. discriminate.
Qed.

Lemma rotate_sequential_and_blind_write_witness :
  race X env alice_refresh
    (whole_call CallerA 7000 ++ [(CallerB, 7500); (CallerB, 7600)]) store_session
  = mkRace (rotated alice_refresh 7000 alice_record alice alice_pair_7000 store_session)
      (Finished (Returned alice_pair_7000))
      (Finished (Threw invalid_refresh_token)).
Proof.
  destruct (rotate_sequential_and_blind_write X env alice_refresh 7000 7500 [7600]
              store_session
              (rotated alice_refresh 7000 alice_record alice alice_pair_7000 store_session)
              alice_pair_7000) as (Hseq & _).
  - apply refreshToken_succeeds; [now apply alice_exchangeable | now apply alice_mints].
  - exact Hseq.
Defined.

(** C6: as stated the claim fails: a second [logout] one second later
    rewrites the revocation timestamp, so the store is not the one the first
    call left. *)
Lemma second_logout_changes_store :
  fst (logout alice_refresh 2000 (fst (logout alice_refresh 1000 store_session)))
  <> fst (logout alice_refresh 1000 store_session).
Proof.
  intros H.
  apply (f_equal (fun s => RefreshToken.revokedAt <$> refreshTokens s !! alice_refresh)) in H.
  vm_compute in H. discriminate.
Qed.

Lemma logout_twice_witness :
  snd (logout alice_refresh 1000 (fst (logout alice_refresh 1000 store_session)))
  = Returned tt
  /\ fst (logout alice_refresh 1000 (fst (logout alice_refresh 1000 store_session)))
     = fst (logout alice_refresh 1000 store_session)
  /\ fst (logout "other" 2000 (fst (logout "other" 1000 store_no_redis)))
     = fst (logout "other" 1000 store_no_redis).
Proof.
  destruct (logout_twice alice_refresh 1000 1000 store_session)
    as (_ & Hret & _ & _ & _ & Hsame & _).
  destruct (logout_twice "other" 1000 2000 store_no_redis)
    as (_ & _ & _ & _ & _ & _ & Hnone).
  split; [exact Hret|]. split; [now apply Hsame|].
  apply Hnone; reflexivity.
Defined.



(** * More properties on the reference instance *)

Import Scenes.

(** X1 on an instance. *)
Lemma isValidEmail_iff_witness : isValidEmail "a@x.com" = true.
Proof.
  apply (proj2 (isValidEmail_iff "a@x.com")).
  exists ["a"%char], ["x"%char], ["c"%char; "o"%char; "m"%char].
  split; [reflexivity|]. repeat split; discriminate || reflexivity.
Defined.

(** X2 on an instance. *)
Lemma createSlug_shape_witness :
  createSlug "  Globex -- Corp!" = "globex-corp"
  /\ forall a, list_ascii_of_string (createSlug "  Globex -- Corp!") <> (a ++ [dash])%list.
Proof.
  split; [reflexivity|].
  destruct (createSlug_shape "  Globex -- Corp!") as (_ & _ & _ & _ & H).
  apply H. vm_compute. lia.
Defined.

Lemma alice_admissible : admissible X alice_login 7000 store0 alice.
Proof. repeat split. Defined.

Lemma alice_mints_7000 : mints X env alice 7000 store0 alice_pair_7000.
Proof. repeat split. Defined.

(** X3 on an instance. A pair for Alice at 7000: the record expires at 7000 + 7 days. *)
Lemma generateTokens_all_or_nothing_witness :
  mints X env alice 7000 store0 alice_pair_7000
  /\ refreshTokens (fst (generateTokens X env alice 7000 store0))
     = <[AuthTokens.refreshToken alice_pair_7000
         := RefreshToken.mk "u1" (AuthTokens.refreshToken alice_pair_7000)
              (7000 + 7 * 24 * 60 * 60 * 1000) None None]> ∅.
Proof.
  destruct (generateTokens_all_or_nothing X env alice 7000 store0) as [_ H].
  destruct (H alice_pair_7000 eq_refl) as (H1 & H2 & _).
  split; [exact H1 | exact H2].
Defined.

(** X4 on an instance. Alice logs in at 7000. *)
Lemma login_success_witness :
  snd (login X env alice_login None 7000 true store0)
  = Returned (omitPasswordHash (join_tenant store0 alice), alice_pair_7000)
  /\ refreshTokens (fst (login X env alice_login None 7000 true store0))
     = <[AuthTokens.refreshToken alice_pair_7000
         := RefreshToken.mk "u1" (AuthTokens.refreshToken alice_pair_7000)
              (7000 + 7 * 24 * 60 * 60 * 1000) None None]> ∅.
Proof.
  destruct (login_success X env alice_login None 7000 true store0 alice alice_pair_7000
              alice_admissible alice_mints_7000) as (H1 & _ & H3 & _).
  split; [exact H1 | exact H3].
Defined.

(** X5 on an instance. Alice's lock ran out at 905000; a wrong guess at 1000000 locks her
    again until 1900000. *)
Lemma relock_after_elapsed_lock_witness :
  snd (login X env alice_guess None 1000000 true store_locked)
  = Threw invalid_credentials
  /\ exists u',
       user_by_email "a@x.com"
         (fst (login X env alice_guess None 1000000 true store_locked)) = Some u'
       /\ User.lockedUntil u' = Some (1000000 + 15 * 60 * 1000)
       /\ User.failedLoginAttempts u' = 5 + 1.
Proof.
  destruct (relock_after_elapsed_lock X env alice_guess None 1000000 true store_locked
              alice_locked (5000 + FIFTEEN_MINUTES))
    as (H1 & u' & Hu & Hl & Hc & _).
  - reflexivity.
  - reflexivity.
  - vm_compute. discriminate.
  - simpl. lia.
  - reflexivity.
  - split; [exact H1|]. exists u'. split; [exact Hu|]. split; [exact Hl | exact Hc].
Defined.

(** X6 on an instance. *)
Lemma login_without_secret_witness :
  snd (login X env alice_guess None 7000 true store_suspended) = Threw invalid_credentials
  \/ snd (login X env alice_guess None 7000 true store_suspended) = Threw account_locked.
Proof.
  apply (login_without_secret X env alice_guess None 7000 true store_suspended).
  intros u Hu. vm_compute in Hu. injection Hu as <-. reflexivity.
Defined.

(** X7 on an instance. A mismatch for Alice leaves Bob's row alone. *)
Lemma login_frame_witness :
  user_by_id "u2" (fst (login X env alice_guess None 7000 true store0))
  = user_by_id "u2" store0.
Proof.
  destruct (login_frame X env alice_guess None 7000 true store0) as (_ & _ & _ & _ & H).
  apply (H alice).
  - reflexivity.
  - discriminate.
Defined.

(** X8 on an instance. *)
Lemma login_audit_trail_witness :
  auditLogs (fst (login X env nobody_guess None 7000 true store0)) = auditLogs store0.
Proof.
  destruct (login_audit_trail X env nobody_guess None 7000 true store0)
    as (_ & _ & H & _).
  apply H. reflexivity.
Defined.

Lemma bob_registrable : registrable bob_dto bob_gen store0.
Proof. repeat split. Defined.

Lemma bob_mints_9000 : mints X env (new_user X bob_dto bob_gen) 9000 store0 bob_pair_9000.
Proof. repeat split. Defined.

(** X9 on an instance. Bob registers at 9000. *)
Lemma register_success_witness :
  snd (register X env bob_dto bob_gen 9000 true store0)
  = Returned
      (omitPasswordHash
         (mkUserWithTenant (new_user X bob_dto bob_gen)
            (Some (new_tenant bob_dto bob_gen 9000))), bob_pair_9000)
  /\ users (fst (register X env bob_dto bob_gen 9000 true store0))
     = [alice; new_user X bob_dto bob_gen].
Proof.
  destruct (register_success X env bob_dto bob_gen 9000 true store0 bob_pair_9000
              bob_registrable bob_mints_9000) as (H1 & H2 & _).
  split; [exact H1 | exact H2].
Defined.

(** X10 on an instance. A registration with an address that is taken writes nothing. *)
Lemma register_rows_together_witness :
  fst (register X env (RegisterUserDto.mk "Initech" "a@x.com" "Xyz789!@" "Al" "A")
         bob_gen 9000 true store0) = store0.
Proof.
  destruct (register_rows_together X env
              (RegisterUserDto.mk "Initech" "a@x.com" "Xyz789!@" "Al" "A")
              bob_gen 9000 true store0) as [_ H].
  apply (H (ConflictError "Email already registered")). reflexivity.
Defined.

(** X11 on an instance. Without signing secrets Bob's rows are inserted and the call throws. *)
Lemma register_unminted_leaves_rows_witness :
  (exists e,
     register X env_no_secret bob_dto bob_gen 9000 true store0
     = (enrolled X bob_dto bob_gen 9000 store0, Threw e)
     /\ (e = PlainErr "jwt.sign" \/ e = PrismaErr "P2002"))
  /\ register X env_no_secret bob_dto carol_gen 10000 true
       (enrolled X bob_dto bob_gen 9000 store0)
     = (enrolled X bob_dto bob_gen 9000 store0, Threw email_taken).
Proof.
  destruct (register_unminted_leaves_rows X env_no_secret bob_dto bob_gen 9000 true store0)
    as [H1 H2].
  - exact bob_registrable.
  - intros t (Hs & _). vm_compute in Hs. discriminate Hs.
  - split; [exact H1 | apply H2].
Defined.

(** X12 on an instance. After Bob, Carol's "globex-corp" is taken. *)
Lemma register_conflicts_witness :
  register X env carol_dto carol_gen 10000 true
    (fst (register X env bob_dto bob_gen 9000 true store0))
  = (fst (register X env bob_dto bob_gen 9000 true store0), Threw name_taken).
Proof.
  destruct (register_conflicts X env bob_dto bob_gen 9000 true store0 bob_pair_9000
              carol_dto carol_gen 10000 true) as [_ H].
  - exact bob_registrable.
  - exact bob_mints_9000.
  - reflexivity.
  - reflexivity.
  - apply H; reflexivity.
Defined.

(** X13 on an instance. Bob registers at 9000 and logs in at 20000. *)
Lemma register_then_login_witness :
  snd (login X env (LoginDto.mk "b@y.org" "Xyz789!@") None 20000 true
         (fst (register X env bob_dto bob_gen 9000 true store0)))
  = Returned
      (omitPasswordHash
         (mkUserWithTenant (new_user X bob_dto bob_gen)
            (Some (new_tenant bob_dto bob_gen 9000))), bob_pair_20000).
Proof.
  apply (register_then_login X env bob_dto bob_gen 9000 true store0 bob_pair_9000
           None 20000 true bob_pair_20000).
  - exact bob_registrable.
  - exact bob_mints_9000.
  - reflexivity.
  - repeat split.
Defined.

(** X14 on an instance. Alice's value of 5000, presented at 7000, is exchanged. *)
Lemma refreshToken_all_or_nothing_witness :
  exists r u,
    exchangeable X env alice_refresh 7000 store_session r u
    /\ mints X env u 7000 store_session alice_pair_7000
    /\ fst (refreshToken X env alice_refresh 7000 store_session)
       = rotated alice_refresh 7000 r u alice_pair_7000 store_session.
Proof.
  destruct (refreshToken_all_or_nothing X env alice_refresh 7000 store_session)
    as [_ H].
  apply (H alice_pair_7000). reflexivity.
Defined.

Lemma store0_sane : users_sane store0.
Proof.
  split.
  - apply NoDup_singleton.
  - repeat constructor; simpl; [lia | intros [? ?]; discriminate].
Defined.

(** X15 on an instance. *)
Lemma users_stay_sane_witness : users_sane (run X env store0 a_day).
Proof. apply (users_stay_sane X env a_day store0). exact store0_sane. Defined.

Lemma store_session_linked : records_linked store_session.
Proof.
  intros k r k' Hr Hrep. simpl in Hr.
  apply lookup_singleton_Some in Hr as [<- <-]. discriminate Hrep.
Defined.

(** X17 on an instance. *)
Lemma records_stay_linked_witness :
  records_linked (run X env store_session a_day).
Proof.
  apply (records_stay_linked X env a_day store_session). exact store_session_linked.
Defined.

(** X22 on an instance. Alice logs in at 7000 and calls a private route at 8000. *)
Lemma login_then_authenticate_witness :
  authenticate X env (bearer alice_access) 8000
    (fst (login X env alice_login None 7000 true store0))
  = (fst (login X env alice_login None 7000 true store0),
     Continue (Request.attach alice_payload (Some acme) (bearer alice_access))).
Proof.
  apply (login_then_authenticate X env alice_login None 7000 true store0
           (omitPasswordHash (join_tenant store0 alice)) alice_pair_7000
           (bearer alice_access) 8000 alice_payload).
  - exact store0_sane.
  - reflexivity.
  - reflexivity.
  - reflexivity.
  - reflexivity.
Defined.

(** X23 on an instance. Alice is demoted after her access value was minted: the middleware
    still hands over TENANT_ADMIN, and [requireAdmin] lets her through. *)
Lemma authenticate_trusts_payload_witness :
  snd (authenticate X env (bearer alice_access) 8000
         (set_users (List.map demote (users store_session)) store_session))
  = Continue (Request.attach alice_payload (Some acme) (bearer alice_access))
  /\ requireAdmin (Request.attach alice_payload (Some acme) (bearer alice_access))
     = Continue (Request.attach alice_payload (Some acme) (bearer alice_access)).
Proof.
  split; [|reflexivity].
  rewrite (authenticate_trusts_payload X env (bearer alice_access) 8000 store_session
             demote).
  - reflexivity.
  - intros u. repeat split.
Defined.

(** X24 on an instance. Alice's tenant is suspended: 401 at login, 403 behind the middleware. *)
Lemma tenant_refusal_401_then_403_witness :
  answered (Some "production") jwt_says
    (snd (AuthController.login X env (Some "production")
            (Request.mk None None alice_login (Some "10.0.0.1") None None None)
            7000 true store_suspended))
  = Response.mk 401 false None (Some "Tenant account is suspended") None CookieKept
  /\ authenticate X env (bearer alice_access) 8000 store_suspended
     = (store_suspended, Fail (AppErr (ForbiddenError "Tenant account is suspended"))).
Proof.
  destruct (tenant_refusal_401_then_403 X env (Some "production") jwt_says
              alice_login
              (Request.mk None None alice_login (Some "10.0.0.1") None None None)
              7000 true (bearer alice_access) 8000 store_suspended alice
              (UnauthorizedError "Tenant account is suspended")
              ("Bearer " +:+ alice_access) alice_payload)
    as (H1 & H2 & _); try reflexivity.
  split; [exact H1 | exact H2].
Defined.

(** X19 on an instance. An access value that has expired is answered "Invalid token". *)
Lemma authenticate_outcomes_witness :
  jwt_verify X alice_access (JWT_SECRET env) 1000000 = Rejected TokenExpiredError
  /\ snd (authenticate X env (bearer alice_access) 1000000 store_session)
     = Fail (AppErr (UnauthorizedError "Invalid token")).
Proof.
  split; [reflexivity|].
  destruct (authenticate_outcomes X env (bearer alice_access) 1000000 store_session)
    as (_ & _ & _ & H).
  apply (H ("Bearer " +:+ alice_access) TokenExpiredError); reflexivity.
Defined.

(** X20 on an instance. A request without a user: 401 from the role gates, 403 from
    [requireTenant]. *)
Lemma role_gates_witness :
  requireAdmin (bearer alice_access) = Fail (AppErr (UnauthorizedError "Unauthorized"))
  /\ requireTenant (bearer alice_access)
     = Fail (AppErr (ForbiddenError "Tenant context required")).
Proof.
  destruct (role_gates (bearer alice_access)) as (_ & _ & _ & _ & _ & H).
  destruct (H eq_refl) as (_ & H1 & _ & H2).
  split; [exact H1 | exact H2].
Defined.

(** X21 on an instance. In production the message of a failing signature stays inside. *)
Lemma errorHandler_discloses_witness :
  Response.status (errorHandler (Some "production") jwt_says (PlainErr "jwt.sign")
                   : Response.t unit) = 500
  /\ (Response.error (errorHandler (Some "production") jwt_says (PlainErr "jwt.sign")
                      : Response.t unit) = Some "Database operation failed"
      \/ Response.error (errorHandler (Some "production") jwt_says (PlainErr "jwt.sign")
                         : Response.t unit) = Some "Internal server error").
Proof.
  destruct (errorHandler_discloses (D:=unit) (Some "production") jwt_says
              (PlainErr "jwt.sign")) as (_ & _ & _ & _ & H & _).
  destruct H as [_ H]; [discriminate|].
  split; [reflexivity|]. apply H. reflexivity.
Defined.

(** X25 on an instance. Alice's cookie of 5000 is exchanged at 7000 through the route. *)
Lemma refresh_route_witness :
  exists tok t r u,
    cookie_or_body (with_cookie "" alice_refresh) = Returned (Some tok)
    /\ exchangeable X env tok 7000 store_session r u
    /\ mints X env u 7000 store_session t
    /\ fst (AuthController.refresh X env (Some "production")
              (with_cookie "" alice_refresh) 7000 store_session)
       = rotated tok 7000 r u t store_session
    /\ Response.data
         (answered (Some "production") jwt_says
            (snd (AuthController.refresh X env (Some "production")
                    (with_cookie "" alice_refresh) 7000 store_session)))
       = Some (AuthTokens.accessToken t)
    /\ Response.cookie
         (answered (Some "production") jwt_says
            (snd (AuthController.refresh X env (Some "production")
                    (with_cookie "" alice_refresh) 7000 store_session)))
       = CookieSet (AuthTokens.refreshToken t) true (production (Some "production"))
           "strict" (7 * 24 * 60 * 60 * 1000).
Proof.
  destruct (refresh_route X env (Some "production") jwt_says
              (with_cookie "" alice_refresh) 7000 store_session) as (_ & _ & H & _).
  apply H. reflexivity.
Defined.

(** X26 on an instance. Alice, authenticated, presents a value nobody was ever given: 200. *)
Lemma logout_route_witness :
  snd (behind_authenticate X env (Some "production") jwt_says
         (with_cookie alice_access "no such value") 8000
         (fun r => AuthController.logout r 8000) store_session)
  = Response.mk 200 true (Some "Logout successful") None None CookieCleared.
Proof.
  destruct (logout_route X env (Some "production") jwt_says
              (with_cookie alice_access "no such value") 8000 8000 store_session)
    as [_ H].
  destruct (H alice_payload alice) as [_ H'].
  - exists ("Bearer " +:+ alice_access). repeat split.
  - destruct (H' {[ "refreshToken" := "no such value" ]} eq_refl) as [H1 _].
    exact H1.
Defined.

(** X27 on an instance. *)
Lemma me_route_witness :
  snd (behind_authenticate X env (Some "production") jwt_says
         (bearer alice_access) 8000 (fun r => AuthController.me r) store_session)
  = Response.mk 200 true None None
      (Some (omitPasswordHash (join_tenant store_session alice))) CookieKept.
Proof.
  destruct (me_route X env (Some "production") jwt_says (bearer alice_access) 8000
              store_session) as (_ & H & _).
  apply (H alice_payload alice).
  exists ("Bearer " +:+ alice_access). repeat split.
Defined.

(** X28 on an instance. Alice logs in from 10.0.0.1 at 7000. *)
Lemma login_controller_answers_witness :
  exists u t,
    admissible X alice_login 7000 store0 u
    /\ mints X env u 7000 store0 t
    /\ Response.cookie
         (answered (Some "production") jwt_says
            (snd (AuthController.login X env (Some "production")
                    (Request.mk None None alice_login (Some "10.0.0.1") None None None)
                    7000 true store0)))
       = CookieSet (AuthTokens.refreshToken t) true true "strict"
           (7 * 24 * 60 * 60 * 1000)
    /\ fst (AuthController.login X env (Some "production")
              (Request.mk None None alice_login (Some "10.0.0.1") None None None)
              7000 true store0)
       = audited true (login_row u (Some "10.0.0.1"))
           (issued u 7000 t (logged u 7000 (Some "10.0.0.1") store0)).
Proof.
  destruct (login_controller_answers X env (Some "production") jwt_says
              (Request.mk None None alice_login (Some "10.0.0.1") None None None)
              7000 true store0) as (_ & H & _).
  destruct (H eq_refl) as (u & t & Ha & Hm & _ & Hc & Hs).
  exists u, t. split; [exact Ha|]. split; [exact Hm|]. split; [exact Hc | exact Hs].
Defined.

